(** * AI-Agent-System: the upload route, the processing driver and the
      in-memory store

    A shallow embedding of [server/storage.ts] (class [MemStorage]) and of
    the parts of [server/routes.ts] that write to it: the [/api/upload]
    handler, [processFileWithAI] and the [close] listener of the child
    process.  Row types follow [shared/schema.ts].

    Conventions of the embedding:
    - a JS [number] used as an id, a size or a duration is a [Z]; the
      counter [currentId] is exact as long as it stays below 2^53;
    - a [Date] is the [Z] of its [getTime()];
    - a nullable column is an [option]; a [jsonb] column is a [json] value;
    - [Map<number, T>] is a [gmap Z T]; [Array.from(m.values())] is
      [rows m], the values in the order of their ids, which is the insertion
      order in a store built by the methods ([values m] is the same values
      in no particular order, for statements that do not depend on it);
    - an [async] function is a [task]: a tree of effects with its [await]
      points marked, run by the run-to-completion loop [run_macrotask]. *)

From Stdlib Require Import ZArith QArith Lqa String Ascii List Sorted.
From stdpp Require Import gmap strings list fin_maps pretty sorting.

Open Scope string_scope.
Open Scope list_scope.
Open Scope Z_scope.

Set Warnings "-register-all".

(** ** JSON values and JS numbers *)

Inductive json : Type :=
| JNull
| JBool (b : bool)
| JNum (n : Z)
| JStr (s : string)
| JArr (items : list json)
| JObj (fields : list (string * json)).

(** The result of an arithmetic expression on JS numbers: a finite value
    or one of the three special values.  A finite value is kept exact: the
    round-off of an operation is not modelled, its overflow is.  The sign
    of a zero is not kept (no divisor below is a negative zero). *)
Inductive number : Type :=
| Num (q : Q)
| NaN
| Infinity
| NegInfinity.

(** The least magnitude an operation rounds to an infinity, half a unit in
    the last place above the largest double: 2^1024 - 2^970. *)
Definition overflow_threshold : Q := inject_Z (2 ^ 1024 - 2 ^ 970).

(** The number an operation gives when its exact result is [q]. *)
Definition js_number (q : Q) : number :=
  if Qle_bool overflow_threshold q then Infinity
  else if Qle_bool q (- overflow_threshold) then NegInfinity
  else Num q.

(** What holds of every number an operation gives: when it is finite it
    is below the threshold. *)
Definition below_threshold (x : number) : Prop :=
  match x with
  | Num q => (- overflow_threshold < q < overflow_threshold)%Q
  | _ => True
  end.

(** [Infinity] with the sign of [q] when [positive], with the other sign
    otherwise (a zero counts as positive). *)
Definition signed_infinity (positive : bool) (q : Q) : number :=
  if Bool.eqb positive (Qle_bool 0 q) then Infinity else NegInfinity.

(** [x + y] *)
Definition js_add (x y : number) : number :=
  match x, y with
  | NaN, _ | _, NaN => NaN
  | Num a, Num b => js_number (a + b)
  | Infinity, NegInfinity | NegInfinity, Infinity => NaN
  | Infinity, _ | _, Infinity => Infinity
  | NegInfinity, _ | _, NegInfinity => NegInfinity
  end.

(** [x / y] *)
Definition js_div (x y : number) : number :=
  match x, y with
  | NaN, _ | _, NaN => NaN
  | Num a, Num b =>
      if Qeq_bool b 0 then
        if Qeq_bool a 0 then NaN else signed_infinity true a
      else js_number (a / b)
  | Num _, _ => Num 0
  | Infinity, Num b => signed_infinity true b
  | NegInfinity, Num b => signed_infinity false b
  | _, _ => NaN
  end.

(** [x * y] *)
Definition js_mul (x y : number) : number :=
  match x, y with
  | NaN, _ | _, NaN => NaN
  | Num a, Num b => js_number (a * b)
  | Infinity, Num b | Num b, Infinity =>
      if Qeq_bool b 0 then NaN else signed_infinity true b
  | NegInfinity, Num b | Num b, NegInfinity =>
      if Qeq_bool b 0 then NaN else signed_infinity false b
  | Infinity, Infinity | NegInfinity, NegInfinity => Infinity
  | _, _ => NegInfinity
  end.

Definition is_finite (x : number) : Prop :=
  match x with Num _ => True | _ => False end.

(** ** Strings: [toLowerCase] and [path.extname] *)

(** [String.prototype.toLowerCase] on the ASCII range; other code units
    are left as they are (no character outside ASCII lowers to one of the
    letters of the four accepted extensions). *)
Definition lower_ascii (c : ascii) : ascii :=
  let n := nat_of_ascii c in
  if ((65 <=? n)%nat && (n <=? 90)%nat)%bool then ascii_of_nat (n + 32) else c.

Fixpoint toLowerCase (s : string) : string :=
  match s with
  | EmptyString => EmptyString
  | String c rest => String (lower_ascii c) (toLowerCase rest)
  end.

(** The loop state of [path.extname] (POSIX flavour of Node's [path]). *)
Record extname_state : Type := {
  startDot : Z;
  startPart : Z;
  end_ : Z;
  matchedSlash : bool;
  preDotState : Z
}.

Definition extname_init : extname_state :=
  {| startDot := -1; startPart := 0; end_ := -1;
     matchedSlash := true; preDotState := 0 |}.

Definition CHAR_FORWARD_SLASH : ascii := "/"%char.
Definition CHAR_DOT : ascii := "."%char.

(** One iteration of [for (let i = path.length - 1; i >= 0; --i)], at index
    [i] on the code unit [code]; [inl] is [break]. *)
Definition extname_step (i : Z) (code : ascii) (st : extname_state)
  : extname_state + extname_state :=
  if Ascii.eqb code CHAR_FORWARD_SLASH then
    if negb (matchedSlash st) then
      inl {| startDot := startDot st; startPart := i + 1; end_ := end_ st;
             matchedSlash := matchedSlash st; preDotState := preDotState st |}
    else inr st
  else
    let st1 :=
      if end_ st =? -1 then
        {| startDot := startDot st; startPart := startPart st; end_ := i + 1;
           matchedSlash := false; preDotState := preDotState st |}
      else st in
    if Ascii.eqb code CHAR_DOT then
      if startDot st1 =? -1 then
        inr {| startDot := i; startPart := startPart st1; end_ := end_ st1;
               matchedSlash := matchedSlash st1; preDotState := preDotState st1 |}
      else if negb (preDotState st1 =? 1) then
        inr {| startDot := startDot st1; startPart := startPart st1;
               end_ := end_ st1; matchedSlash := matchedSlash st1;
               preDotState := 1 |}
      else inr st1
    else if negb (startDot st1 =? -1) then
      inr {| startDot := startDot st1; startPart := startPart st1;
             end_ := end_ st1; matchedSlash := matchedSlash st1;
             preDotState := -1 |}
    else inr st1.

(** The loop, from index [n - 1] down to 0. *)
Fixpoint extname_loop (path : string) (n : nat) (st : extname_state)
  : extname_state :=
  match n with
  | O => st
  | S i =>
      match String.get i path with
      | None => st
      | Some code =>
          match extname_step (Z.of_nat i) code st with
          | inl stopped => stopped
          | inr st' => extname_loop path i st'
          end
      end
  end.

Definition extname (path : string) : string :=
  let st := extname_loop path (String.length path) extname_init in
  if (startDot st =? -1)
     || (end_ st =? -1)
     || (preDotState st =? 0)
     || ((preDotState st =? 1)
         && (startDot st =? end_ st - 1)
         && (startDot st =? startPart st + 1))
  then ""
  else substring (Z.to_nat (startDot st))
                 (Z.to_nat (end_ st - startDot st)) path.

(** Whether a character occurs in a string. *)
Fixpoint has_char (c : ascii) (s : string) : bool :=
  match s with
  | EmptyString => false
  | String x rest => Ascii.eqb x c || has_char c rest
  end.

(** The extension of a file name as one reads it off the name, without
    [path.extname]: the name is cut at its last dot into a stem and a
    piece; the extension is the dot and the piece when the stem is not
    empty, and a name without a dot, or with its only dot in front, has
    none. *)
Fixpoint cut_at_last_dot (name : string) : option (string * string) :=
  match name with
  | EmptyString => None
  | String c rest =>
      match cut_at_last_dot rest with
      | Some (stem, piece) => Some (String c stem, piece)
      | None => if Ascii.eqb c CHAR_DOT then Some (EmptyString, rest) else None
      end
  end.

Definition extension_of_name (name : string) : string :=
  match cut_at_last_dot name with
  | Some (String _ _, piece) => String CHAR_DOT piece
  | _ => EmptyString
  end.

(** [Array.prototype.includes] on an array of string literals. *)
Definition includes (l : list string) (s : string) : bool :=
  existsb (String.eqb s) l.


(** ** Rows of the five tables ([shared/schema.ts]) *)

(** What a column of a row holds, for statements that range over columns. *)
Inductive cell : Type :=
| CNum (n : Z)
| CText (s : string)
| CDate (d : Z)
| CJson (j : json)
| CNull.

Definition nullable {A : Type} (f : A -> cell) (x : option A) : cell :=
  match x with Some a => f a | None => CNull end.

(** [{ ...existing, ...updates }] on one property: the value of [updates]
    when it names the property, the one of [existing] otherwise. *)
Definition spread {A : Type} (existing : A) (update : option A) : A :=
  match update with Some v => v | None => existing end.

Module User.
Record t : Type := mk { id : Z; username : string; password : string }.
End User.

Module InsertUser.
Record t : Type := mk { username : string; password : string }.
End InsertUser.

Module ProcessedFile.
Record t : Type := mk {
  id : Z;
  filename : string;
  originalName : string;
  fileType : string;
  size : Z;
  uploadedAt : Z;
  processedAt : option Z;
  status : string;
  classificationResult : json;
  extractedData : json;
  businessIntent : option string;
  priority : option string;
  agentAssigned : option string
}.

Inductive column : Type :=
| Id | Filename | OriginalName | FileType | Size | UploadedAt | ProcessedAt
| Status | ClassificationResult | ExtractedData | BusinessIntent | Priority
| AgentAssigned.

Definition get (c : column) (r : t) : cell :=
  match c with
  | Id => CNum (id r)
  | Filename => CText (filename r)
  | OriginalName => CText (originalName r)
  | FileType => CText (fileType r)
  | Size => CNum (size r)
  | UploadedAt => CDate (uploadedAt r)
  | ProcessedAt => nullable CDate (processedAt r)
  | Status => CText (status r)
  | ClassificationResult => CJson (classificationResult r)
  | ExtractedData => CJson (extractedData r)
  | BusinessIntent => nullable CText (businessIntent r)
  | Priority => nullable CText (priority r)
  | AgentAssigned => nullable CText (agentAssigned r)
  end.
End ProcessedFile.

(** [InsertProcessedFile]: a row without [id], [uploadedAt], [processedAt]. *)
Module InsertProcessedFile.
Record t : Type := mk {
  filename : string;
  originalName : string;
  fileType : string;
  size : Z;
  status : string;
  classificationResult : json;
  extractedData : json;
  businessIntent : option string;
  priority : option string;
  agentAssigned : option string
}.
End InsertProcessedFile.

(** [Partial<ProcessedFile>]: every property present ([Some]) or absent. *)
Module PartialProcessedFile.
Record t : Type := mk {
  id : option Z;
  filename : option string;
  originalName : option string;
  fileType : option string;
  size : option Z;
  uploadedAt : option Z;
  processedAt : option (option Z);
  status : option string;
  classificationResult : option json;
  extractedData : option json;
  businessIntent : option (option string);
  priority : option (option string);
  agentAssigned : option (option string)
}.

Definition empty : t :=
  mk None None None None None None None None None None None None None.

Definition get (c : ProcessedFile.column) (u : t) : option cell :=
  match c with
  | ProcessedFile.Id => CNum <$> id u
  | ProcessedFile.Filename => CText <$> filename u
  | ProcessedFile.OriginalName => CText <$> originalName u
  | ProcessedFile.FileType => CText <$> fileType u
  | ProcessedFile.Size => CNum <$> size u
  | ProcessedFile.UploadedAt => CDate <$> uploadedAt u
  | ProcessedFile.ProcessedAt => nullable CDate <$> processedAt u
  | ProcessedFile.Status => CText <$> status u
  | ProcessedFile.ClassificationResult => CJson <$> classificationResult u
  | ProcessedFile.ExtractedData => CJson <$> extractedData u
  | ProcessedFile.BusinessIntent => nullable CText <$> businessIntent u
  | ProcessedFile.Priority => nullable CText <$> priority u
  | ProcessedFile.AgentAssigned => nullable CText <$> agentAssigned u
  end.
End PartialProcessedFile.

Module AgentActivity.
Record t : Type := mk {
  id : Z;
  fileId : option Z;
  agentName : string;
  action : string;
  input : json;
  output : json;
  status : string;
  timestamp : Z;
  processingTime : option Z;
  errorMessage : option string
}.
End AgentActivity.

Module InsertAgentActivity.
Record t : Type := mk {
  fileId : option Z;
  agentName : string;
  action : string;
  input : json;
  output : json;
  status : string;
  processingTime : option Z;
  errorMessage : option string
}.
End InsertAgentActivity.

Module TriggeredAction.
Record t : Type := mk {
  id : Z;
  fileId : option Z;
  actionType : string;
  description : string;
  priority : string;
  status : string;
  externalApiCall : option string;
  timestamp : Z;
  metadata : json
}.

Inductive column : Type :=
| Id | FileId | ActionType | Description | Priority | Status
| ExternalApiCall | Timestamp | Metadata.

Definition get (c : column) (r : t) : cell :=
  match c with
  | Id => CNum (id r)
  | FileId => nullable CNum (fileId r)
  | ActionType => CText (actionType r)
  | Description => CText (description r)
  | Priority => CText (priority r)
  | Status => CText (status r)
  | ExternalApiCall => nullable CText (externalApiCall r)
  | Timestamp => CDate (timestamp r)
  | Metadata => CJson (metadata r)
  end.
End TriggeredAction.

Module InsertTriggeredAction.
Record t : Type := mk {
  fileId : option Z;
  actionType : string;
  description : string;
  priority : string;
  status : string;
  externalApiCall : option string;
  metadata : json
}.
End InsertTriggeredAction.

(** [Partial<TriggeredAction>]. *)
Module PartialTriggeredAction.
Record t : Type := mk {
  id : option Z;
  fileId : option (option Z);
  actionType : option string;
  description : option string;
  priority : option string;
  status : option string;
  externalApiCall : option (option string);
  timestamp : option Z;
  metadata : option json
}.

Definition get (c : TriggeredAction.column) (u : t) : option cell :=
  match c with
  | TriggeredAction.Id => CNum <$> id u
  | TriggeredAction.FileId => nullable CNum <$> fileId u
  | TriggeredAction.ActionType => CText <$> actionType u
  | TriggeredAction.Description => CText <$> description u
  | TriggeredAction.Priority => CText <$> priority u
  | TriggeredAction.Status => CText <$> status u
  | TriggeredAction.ExternalApiCall => nullable CText <$> externalApiCall u
  | TriggeredAction.Timestamp => CDate <$> timestamp u
  | TriggeredAction.Metadata => CJson <$> metadata u
  end.
End PartialTriggeredAction.

Module SystemMetric.
Record t : Type := mk {
  id : Z; metricName : string; metricValue : string; timestamp : Z
}.
End SystemMetric.

Module InsertSystemMetric.
Record t : Type := mk { metricName : string; metricValue : string }.
End InsertSystemMetric.

(** ** Thrown errors *)

Inductive Error : Type := MkError (message : string).

(** What a call produces: the value it returns, or the error it throws
    (for an [async] function: the value its promise is fulfilled with, or
    the reason it is rejected with). *)
Inductive outcome (A : Type) : Type :=
| Returned (a : A)
| Thrown (e : Error).
Arguments Returned {A} a.
Arguments Thrown {A} e.

(** ** [class MemStorage] *)

Record MemStorage : Type := {
  users : gmap Z User.t;
  processedFiles : gmap Z ProcessedFile.t;
  agentActivities : gmap Z AgentActivity.t;
  triggeredActions : gmap Z TriggeredAction.t;
  systemMetrics : gmap Z SystemMetric.t;
  currentId : Z
}.

(** [constructor()] *)
Definition MemStorage_new : MemStorage :=
  {| users := ∅; processedFiles := ∅; agentActivities := ∅;
     triggeredActions := ∅; systemMetrics := ∅; currentId := 1 |}.

(** The values of a table, in no particular order. *)
Definition values {A : Type} (m : gmap Z A) : list A := (map_to_list m).*2.

(** ** Iteration order of a [Map] *)

(** The keys of a table in ascending order.  A [Map] iterates in insertion
    order; the methods of [MemStorage] insert under the ids the counter
    hands out and otherwise [set] keys that are present, which keeps their
    place, so in a store built by the methods the insertion order is this
    one ([insertion_order_is_id_order] below). *)
Definition ids {A : Type} (m : gmap Z A) : list Z :=
  merge_sort Z.le (map_to_list m).*1.

(** [Array.from(m.values())] in such a store. *)
Definition rows {A : Type} (m : gmap Z A) : list A :=
  omap (fun id => m !! id) (ids m).

Definition set_users (m : gmap Z User.t) (this : MemStorage) : MemStorage :=
  {| users := m; processedFiles := processedFiles this;
     agentActivities := agentActivities this;
     triggeredActions := triggeredActions this;
     systemMetrics := systemMetrics this; currentId := currentId this |}.

Definition set_processedFiles (m : gmap Z ProcessedFile.t) (this : MemStorage)
  : MemStorage :=
  {| users := users this; processedFiles := m;
     agentActivities := agentActivities this;
     triggeredActions := triggeredActions this;
     systemMetrics := systemMetrics this; currentId := currentId this |}.

Definition set_agentActivities (m : gmap Z AgentActivity.t) (this : MemStorage)
  : MemStorage :=
  {| users := users this; processedFiles := processedFiles this;
     agentActivities := m;
     triggeredActions := triggeredActions this;
     systemMetrics := systemMetrics this; currentId := currentId this |}.

Definition set_triggeredActions (m : gmap Z TriggeredAction.t)
  (this : MemStorage) : MemStorage :=
  {| users := users this; processedFiles := processedFiles this;
     agentActivities := agentActivities this;
     triggeredActions := m;
     systemMetrics := systemMetrics this; currentId := currentId this |}.

Definition set_systemMetrics (m : gmap Z SystemMetric.t) (this : MemStorage)
  : MemStorage :=
  {| users := users this; processedFiles := processedFiles this;
     agentActivities := agentActivities this;
     triggeredActions := triggeredActions this;
     systemMetrics := m; currentId := currentId this |}.

(** [const id = this.currentId++]: the id taken, and the store with the
    counter moved on. *)
Definition next_id (this : MemStorage) : Z * MemStorage :=
  (currentId this,
   {| users := users this; processedFiles := processedFiles this;
      agentActivities := agentActivities this;
      triggeredActions := triggeredActions this;
      systemMetrics := systemMetrics this; currentId := currentId this + 1 |}).

Definition getUser (id : Z) (this : MemStorage) : option User.t :=
  users this !! id.

Definition createUser (insertUser : InsertUser.t) (this : MemStorage)
  : User.t * MemStorage :=
  let '(id, this) := next_id this in
  let user :=
    {| User.id := id;
       User.username := InsertUser.username insertUser;
       User.password := InsertUser.password insertUser |} in
  (user, set_users (<[id := user]> (users this)) this).

Definition createProcessedFile (now : Z) (file : InsertProcessedFile.t)
  (this : MemStorage) : ProcessedFile.t * MemStorage :=
  let '(id, this) := next_id this in
  let processedFile :=
    {| ProcessedFile.filename := InsertProcessedFile.filename file;
       ProcessedFile.originalName := InsertProcessedFile.originalName file;
       ProcessedFile.fileType := InsertProcessedFile.fileType file;
       ProcessedFile.size := InsertProcessedFile.size file;
       ProcessedFile.status := InsertProcessedFile.status file;
       ProcessedFile.classificationResult :=
         InsertProcessedFile.classificationResult file;
       ProcessedFile.extractedData := InsertProcessedFile.extractedData file;
       ProcessedFile.businessIntent := InsertProcessedFile.businessIntent file;
       ProcessedFile.priority := InsertProcessedFile.priority file;
       ProcessedFile.agentAssigned := InsertProcessedFile.agentAssigned file;
       ProcessedFile.id := id;
       ProcessedFile.uploadedAt := now;
       ProcessedFile.processedAt := None |} in
  (processedFile,
   set_processedFiles (<[id := processedFile]> (processedFiles this)) this).

(** [{ ...existing, ...updates }] for a [ProcessedFile]. *)
Definition ProcessedFile_assign (existing : ProcessedFile.t)
  (updates : PartialProcessedFile.t) : ProcessedFile.t :=
  {| ProcessedFile.id :=
       spread (ProcessedFile.id existing) (PartialProcessedFile.id updates);
     ProcessedFile.filename :=
       spread (ProcessedFile.filename existing)
              (PartialProcessedFile.filename updates);
     ProcessedFile.originalName :=
       spread (ProcessedFile.originalName existing)
              (PartialProcessedFile.originalName updates);
     ProcessedFile.fileType :=
       spread (ProcessedFile.fileType existing)
              (PartialProcessedFile.fileType updates);
     ProcessedFile.size :=
       spread (ProcessedFile.size existing) (PartialProcessedFile.size updates);
     ProcessedFile.uploadedAt :=
       spread (ProcessedFile.uploadedAt existing)
              (PartialProcessedFile.uploadedAt updates);
     ProcessedFile.processedAt :=
       spread (ProcessedFile.processedAt existing)
              (PartialProcessedFile.processedAt updates);
     ProcessedFile.status :=
       spread (ProcessedFile.status existing)
              (PartialProcessedFile.status updates);
     ProcessedFile.classificationResult :=
       spread (ProcessedFile.classificationResult existing)
              (PartialProcessedFile.classificationResult updates);
     ProcessedFile.extractedData :=
       spread (ProcessedFile.extractedData existing)
              (PartialProcessedFile.extractedData updates);
     ProcessedFile.businessIntent :=
       spread (ProcessedFile.businessIntent existing)
              (PartialProcessedFile.businessIntent updates);
     ProcessedFile.priority :=
       spread (ProcessedFile.priority existing)
              (PartialProcessedFile.priority updates);
     ProcessedFile.agentAssigned :=
       spread (ProcessedFile.agentAssigned existing)
              (PartialProcessedFile.agentAssigned updates) |}.

Definition updateProcessedFile (id : Z) (updates : PartialProcessedFile.t)
  (this : MemStorage) : outcome ProcessedFile.t * MemStorage :=
  match processedFiles this !! id with
  | None =>
      (Thrown (MkError ("ProcessedFile with id " +:+ pretty id +:+ " not found")),
       this)
  | Some existing =>
      let updated := ProcessedFile_assign existing updates in
      (Returned updated,
       set_processedFiles (<[id := updated]> (processedFiles this)) this)
  end.

Definition getProcessedFile (id : Z) (this : MemStorage)
  : option ProcessedFile.t :=
  processedFiles this !! id.

Definition createAgentActivity (now : Z) (activity : InsertAgentActivity.t)
  (this : MemStorage) : AgentActivity.t * MemStorage :=
  let '(id, this) := next_id this in
  let agentActivity :=
    {| AgentActivity.fileId := InsertAgentActivity.fileId activity;
       AgentActivity.agentName := InsertAgentActivity.agentName activity;
       AgentActivity.action := InsertAgentActivity.action activity;
       AgentActivity.input := InsertAgentActivity.input activity;
       AgentActivity.output := InsertAgentActivity.output activity;
       AgentActivity.status := InsertAgentActivity.status activity;
       AgentActivity.processingTime :=
         InsertAgentActivity.processingTime activity;
       AgentActivity.errorMessage := InsertAgentActivity.errorMessage activity;
       AgentActivity.id := id;
       AgentActivity.timestamp := now |} in
  (agentActivity,
   set_agentActivities (<[id := agentActivity]> (agentActivities this)) this).

Definition createTriggeredAction (now : Z) (action : InsertTriggeredAction.t)
  (this : MemStorage) : TriggeredAction.t * MemStorage :=
  let '(id, this) := next_id this in
  let triggeredAction :=
    {| TriggeredAction.fileId := InsertTriggeredAction.fileId action;
       TriggeredAction.actionType := InsertTriggeredAction.actionType action;
       TriggeredAction.description := InsertTriggeredAction.description action;
       TriggeredAction.priority := InsertTriggeredAction.priority action;
       TriggeredAction.status := InsertTriggeredAction.status action;
       TriggeredAction.externalApiCall :=
         InsertTriggeredAction.externalApiCall action;
       TriggeredAction.metadata := InsertTriggeredAction.metadata action;
       TriggeredAction.id := id;
       TriggeredAction.timestamp := now |} in
  (triggeredAction,
   set_triggeredActions (<[id := triggeredAction]> (triggeredActions this))
                        this).

(** [{ ...existing, ...updates }] for a [TriggeredAction]. *)
Definition TriggeredAction_assign (existing : TriggeredAction.t)
  (updates : PartialTriggeredAction.t) : TriggeredAction.t :=
  {| TriggeredAction.id :=
       spread (TriggeredAction.id existing) (PartialTriggeredAction.id updates);
     TriggeredAction.fileId :=
       spread (TriggeredAction.fileId existing)
              (PartialTriggeredAction.fileId updates);
     TriggeredAction.actionType :=
       spread (TriggeredAction.actionType existing)
              (PartialTriggeredAction.actionType updates);
     TriggeredAction.description :=
       spread (TriggeredAction.description existing)
              (PartialTriggeredAction.description updates);
     TriggeredAction.priority :=
       spread (TriggeredAction.priority existing)
              (PartialTriggeredAction.priority updates);
     TriggeredAction.status :=
       spread (TriggeredAction.status existing)
              (PartialTriggeredAction.status updates);
     TriggeredAction.externalApiCall :=
       spread (TriggeredAction.externalApiCall existing)
              (PartialTriggeredAction.externalApiCall updates);
     TriggeredAction.timestamp :=
       spread (TriggeredAction.timestamp existing)
              (PartialTriggeredAction.timestamp updates);
     TriggeredAction.metadata :=
       spread (TriggeredAction.metadata existing)
              (PartialTriggeredAction.metadata updates) |}.

Definition updateTriggeredAction (id : Z) (updates : PartialTriggeredAction.t)
  (this : MemStorage) : outcome TriggeredAction.t * MemStorage :=
  match triggeredActions this !! id with
  | None =>
      (Thrown (MkError ("TriggeredAction with id " +:+ pretty id +:+ " not found")),
       this)
  | Some existing =>
      let updated := TriggeredAction_assign existing updates in
      (Returned updated,
       set_triggeredActions (<[id := updated]> (triggeredActions this)) this)
  end.

Definition createSystemMetric (now : Z) (metric : InsertSystemMetric.t)
  (this : MemStorage) : SystemMetric.t * MemStorage :=
  let '(id, this) := next_id this in
  let systemMetric :=
    {| SystemMetric.metricName := InsertSystemMetric.metricName metric;
       SystemMetric.metricValue := InsertSystemMetric.metricValue metric;
       SystemMetric.id := id;
       SystemMetric.timestamp := now |} in
  (systemMetric,
   set_systemMetrics (<[id := systemMetric]> (systemMetrics this)) this).

(** The object [getDashboardStats] resolves to. *)
Record DashboardStats : Type := {
  processedToday : nat;
  totalProcessed : nat;
  successRate : number;
  averageProcessingTime : number;
  activeAgents : nat
}.

(** [x || d] on a nullable number: [null] and [0] are falsy. *)
Definition or_else (x : option Z) (d : Z) : Z :=
  match x with
  | Some n => if n =? 0 then d else n
  | None => d
  end.

Definition Q_of_nat (n : nat) : Q := inject_Z (Z.of_nat n).

(** [activities.reduce((sum, a) => sum + (a.processingTime || 0), 0)] *)
Definition total_processing_time (activities : list AgentActivity.t)
  : number :=
  fold_left
    (fun sum a =>
       js_add sum (Num (inject_Z (or_else (AgentActivity.processingTime a) 0))))
    activities (Num 0).

(** The magnitudes of the processing times added up, as an exact integer:
    not a part of the code, the measure of the statements on overflow. *)
Definition processing_time_magnitude (activities : list AgentActivity.t)
  : Z :=
  foldr (fun a total =>
           Z.abs (or_else (AgentActivity.processingTime a) 0) + total)
        0 activities.

(** [getDashboardStats()]; [today] is the [Date] obtained from [new Date()]
    by [setHours(0, 0, 0, 0)], the last local midnight. *)
Definition getDashboardStats (today : Z) (this : MemStorage) : DashboardStats :=
  let allFiles := rows (processedFiles this) in
  let todayFiles :=
    List.filter (fun f => today <=? ProcessedFile.uploadedAt f) allFiles in
  let completedFiles :=
    List.filter (fun f => String.eqb (ProcessedFile.status f) "completed")
                allFiles in
  let activities := rows (agentActivities this) in
  let avgProcessingTime :=
    if (0 <? length activities)%nat then
      js_div (total_processing_time activities)
             (Num (Q_of_nat (length activities)))
    else Num 0 in
  let uniqueAgents :=
    size (list_to_set (AgentActivity.agentName <$> activities) : gset string) in
  {| processedToday := length todayFiles;
     totalProcessed := length allFiles;
     successRate :=
       if (0 <? length allFiles)%nat then
         js_mul (js_div (Num (Q_of_nat (length completedFiles)))
                        (Num (Q_of_nat (length allFiles)))) (Num 100)
       else Num 0;
     averageProcessingTime := avgProcessingTime;
     activeAgents := if (uniqueAgents =? 0)%nat then 4%nat else uniqueAgents |}.

(** ** The interface [IStorage] as a set of calls *)

(** One call of a method of [IStorage], with its arguments ([None] for an
    optional argument that is left out). *)
Inductive storage_call : Type :=
| call_getUser (id : Z)
| call_getUserByUsername (username : string)
| call_createUser (user : InsertUser.t)
| call_createProcessedFile (file : InsertProcessedFile.t)
| call_updateProcessedFile (id : Z) (updates : PartialProcessedFile.t)
| call_getProcessedFile (id : Z)
| call_getProcessedFiles (limit : option Z)
| call_getProcessedFilesByStatus (status : string)
| call_createAgentActivity (activity : InsertAgentActivity.t)
| call_getAgentActivities (fileId : option Z) (limit : option Z)
| call_getAgentActivitiesByAgent (agentName : string)
| call_createTriggeredAction (action : InsertTriggeredAction.t)
| call_getTriggeredActions (limit : option Z)
| call_updateTriggeredAction (id : Z) (updates : PartialTriggeredAction.t)
| call_createSystemMetric (metric : InsertSystemMetric.t)
| call_getSystemMetrics (metricName : option string) (limit : option Z)
| call_getLatestMetric (metricName : string)
| call_getDashboardStats.

(** The effect of a call made at time [now] on the store, with the id of
    the row it created when it is one of the five [create] methods.  The
    [get] methods build their answer from copies of the value arrays and
    assign to no field of [this]. *)
Definition exec (now : Z) (c : storage_call) (this : MemStorage)
  : option Z * MemStorage :=
  match c with
  | call_createUser user =>
      let '(r, this') := createUser user this in (Some (User.id r), this')
  | call_createProcessedFile file =>
      let '(r, this') := createProcessedFile now file this in
      (Some (ProcessedFile.id r), this')
  | call_updateProcessedFile id updates =>
      (None, snd (updateProcessedFile id updates this))
  | call_createAgentActivity activity =>
      let '(r, this') := createAgentActivity now activity this in
      (Some (AgentActivity.id r), this')
  | call_createTriggeredAction action =>
      let '(r, this') := createTriggeredAction now action this in
      (Some (TriggeredAction.id r), this')
  | call_updateTriggeredAction id updates =>
      (None, snd (updateTriggeredAction id updates this))
  | call_createSystemMetric metric =>
      let '(r, this') := createSystemMetric now metric this in
      (Some (SystemMetric.id r), this')
  | call_getUser _ | call_getUserByUsername _ | call_getProcessedFile _
  | call_getProcessedFiles _ | call_getProcessedFilesByStatus _
  | call_getAgentActivities _ _ | call_getAgentActivitiesByAgent _
  | call_getTriggeredActions _ | call_getSystemMetrics _ _
  | call_getLatestMetric _ | call_getDashboardStats => (None, this)
  end.

(** A sequence of calls, each with the time it is made at: the ids handed
    out, in order, and the store at the end. *)
Fixpoint run_calls (calls : list (Z * storage_call)) (this : MemStorage)
  : list Z * MemStorage :=
  match calls with
  | [] => ([], this)
  | (now, c) :: rest =>
      let '(created, this') := exec now c this in
      let '(ids, this'') := run_calls rest this' in
      (match created with Some id => id :: ids | None => ids end, this'')
  end.

(** ** The server process: what the routes can do *)

(** [req.file] as multer leaves it; [content] is what was written to
    [path] on disk (the handler never opens it). *)
Module MulterFile.
Record t : Type := mk {
  originalname : string;
  filename : string;
  path : string;
  size : Z;
  content : string
}.
End MulterFile.

(** What a macrotask does that can be seen from outside, in the order it
    happens.  The three storage events are written when the call has
    succeeded. *)
Inductive event : Type :=
| CreatedProcessedFile (r : ProcessedFile.t)
| UpdatedProcessedFile (id : Z) (updates : PartialProcessedFile.t)
| CreatedAgentActivity (r : AgentActivity.t)
| Spawned (command : string) (args : list string)
| Responded (status : Z) (body : json)
| ConsoleLog (text : string)
| ConsoleError (text : string)
| ConsoleErrorWith (text : string) (error : Error)
| UnhandledRejection (e : Error).

(** The state of the process: the exported [storage] object, the child
    processes that are running with their listeners attached (each known by
    the [fileId] its listeners close over), and the events so far. *)
Record world : Type := {
  storage : MemStorage;
  children : list Z;
  log : list event
}.

Definition emit (e : event) (w : world) : world :=
  {| storage := storage w; children := children w; log := log w ++ [e] |}.

(** What the surroundings decide during one macrotask: the reading of the
    clock ([new Date()]), and whether [spawn] throws. *)
Record env : Type := {
  now : Z;
  spawn_throws : option Error
}.

(** ** [async] functions *)

(** The body of an [async] function (or of a listener): [Perform] runs a
    synchronous effect and goes on with its result, [Await] suspends the
    function until the microtask queue reaches its continuation, [Detach]
    calls another [async] function without awaiting the promise it returns,
    [Throw] leaves the function with an error. *)
Inductive task : Type :=
| Done
| Throw (e : Error)
| Await (k : task)
| Perform {B : Type} (op : world -> B * world) (k : B -> task)
| Detach (child : task) (k : task).

(** [try { body } catch (error) { handler error }], nothing after it. *)
Fixpoint try_catch (body : task) (handler : Error -> task) : task :=
  match body with
  | Done => Done
  | Throw e => handler e
  | Await k => Await (try_catch k handler)
  | Perform op k => Perform op (fun b => try_catch (k b) handler)
  | Detach child k => Detach child (try_catch k handler)
  end.

(** [const x = f(...)] for a synchronous [f] that may throw. *)
Definition call {A : Type} (op : world -> outcome A * world) (k : A -> task)
  : task :=
  Perform op (fun r => match r with Returned a => k a | Thrown e => Throw e end).

(** [const x = await f(...)] for an [async] function [f] without an [await]
    of its own: the body of [f] runs at the call, the caller is suspended,
    and it resumes with the value or the rejection. *)
Definition await_call {A : Type} (op : world -> outcome A * world)
  (k : A -> task) : task :=
  Perform op
    (fun r => Await (match r with Returned a => k a | Thrown e => Throw e end)).

(** Runs a task up to the point where it ends or is suspended; gives the
    continuations that were suspended on the way, in the order in which
    they were queued.  An error that leaves the task rejects a promise that
    nobody awaits. *)
Fixpoint run_sync (t : task) (w : world) : list task * world :=
  match t with
  | Done => ([], w)
  | Throw e => ([], emit (UnhandledRejection e) w)
  | Await k => ([k], w)
  | Perform op k => let '(b, w') := op w in run_sync (k b) w'
  | Detach child k =>
      let '(suspended, w') := run_sync child w in
      let '(suspended', w'') := run_sync k w' in
      (suspended ++ suspended', w'')
  end.

(** The microtask queue, first in, first out. *)
Fixpoint drain (fuel : nat) (queue : list task) (w : world) : option world :=
  match queue with
  | [] => Some w
  | t :: rest =>
      match fuel with
      | O => None
      | S fuel' =>
          let '(suspended, w') := run_sync t w in
          drain fuel' (rest ++ suspended) w'
      end
  end.

(** One turn of the event loop: the listener runs, then the microtask queue
    is emptied.  [None] when [fuel] microtasks were not enough. *)
Definition run_macrotask (fuel : nat) (t : task) (w : world) : option world :=
  let '(suspended, w') := run_sync t w in drain fuel suspended w'.

(** ** The effects the routes use *)

Definition storage_createProcessedFile (e : env) (file : InsertProcessedFile.t)
  (w : world) : outcome ProcessedFile.t * world :=
  let '(r, s) := createProcessedFile (now e) file (storage w) in
  (Returned r,
   emit (CreatedProcessedFile r)
        {| storage := s; children := children w; log := log w |}).

Definition storage_updateProcessedFile (id : Z)
  (updates : PartialProcessedFile.t) (w : world)
  : outcome ProcessedFile.t * world :=
  let '(r, s) := updateProcessedFile id updates (storage w) in
  let w' := {| storage := s; children := children w; log := log w |} in
  (r, match r with
      | Returned _ => emit (UpdatedProcessedFile id updates) w'
      | Thrown _ => w'
      end).

Definition storage_createAgentActivity (e : env)
  (activity : InsertAgentActivity.t) (w : world)
  : outcome AgentActivity.t * world :=
  let '(r, s) := createAgentActivity (now e) activity (storage w) in
  (Returned r,
   emit (CreatedAgentActivity r)
        {| storage := s; children := children w; log := log w |}).

(** [spawn(command, args)] *)
Definition spawn (e : env) (command : string) (args : list string) (w : world)
  : outcome unit * world :=
  match spawn_throws e with
  | Some err => (Thrown err, w)
  | None => (Returned tt, emit (Spawned command args) w)
  end.

(** [pythonProcess.stdout.on('data', ...)], [pythonProcess.stderr.on('data',
    ...)] and [pythonProcess.on('close', ...)]: from here on the process
    started for [fileId] has its listeners. *)
Definition attach_listeners (fileId : Z) (w : world) : unit * world :=
  (tt, {| storage := storage w; children := children w ++ [fileId];
          log := log w |}).

Definition console_log (text : string) (w : world) : unit * world :=
  (tt, emit (ConsoleLog text) w).

Definition console_error (text : string) (w : world) : unit * world :=
  (tt, emit (ConsoleError text) w).

(** [console.error(text, error)] with an [Error] object as second
    argument: the event keeps the two arguments (the line printed shows the
    text, then the error with its name, its message and its stack). *)
Definition console_error_with (text : string) (error : Error) (w : world)
  : unit * world :=
  (tt, emit (ConsoleErrorWith text error) w).

(** [res.status(status).json(body)] *)
Definition respond (status : Z) (body : json) (w : world) : unit * world :=
  (tt, emit (Responded status body) w).

(** ** [processFileWithAI] and the listeners of the child process *)

(** [`${code}`] for the exit code of a process ([null] when it was killed by
    a signal). *)
Definition show_code (code : option Z) : string :=
  match code with Some c => pretty c | None => "null" end.

(** [{ status: "processing", processedAt: new Date() }] *)
Definition updates_processing (e : env) : PartialProcessedFile.t :=
  PartialProcessedFile.mk None None None None None None (Some (Some (now e)))
    (Some "processing") None None None None None.

(** [{ status: "failed" }] *)
Definition updates_failed : PartialProcessedFile.t :=
  PartialProcessedFile.mk None None None None None None None
    (Some "failed") None None None None None.

(** The argument of [createAgentActivity] in [processFileWithAI]. *)
Definition start_activity (fileId : Z) (filePath fileType : string)
  : InsertAgentActivity.t :=
  {| InsertAgentActivity.fileId := Some fileId;
     InsertAgentActivity.agentName := "Classifier Agent";
     InsertAgentActivity.action := "Start Processing";
     InsertAgentActivity.input :=
       JObj [("fileType", JStr fileType); ("filePath", JStr filePath)];
     InsertAgentActivity.output := JNull;
     InsertAgentActivity.status := "pending";
     InsertAgentActivity.processingTime := None;
     InsertAgentActivity.errorMessage := None |}.

(** [pythonProcess.on('close', async (code) => ...)] *)
Definition on_close (fileId : Z) (code : option Z) : task :=
  match code with
  | Some 0 =>
      Perform (console_log ("File " +:+ pretty fileId
                            +:+ " processed successfully"))
        (fun _ => Done)
  | _ =>
      Perform (console_error ("File " +:+ pretty fileId
                              +:+ " processing failed with code "
                              +:+ show_code code))
        (fun _ =>
           await_call (storage_updateProcessedFile fileId updates_failed)
             (fun _ => Done))
  end.

(** [pythonProcess.stdout.on('data', ...)] *)
Definition on_stdout_data (data : string) : task :=
  Perform (console_log ("AI System Output: " +:+ data)) (fun _ => Done).

(** [pythonProcess.stderr.on('data', ...)] *)
Definition on_stderr_data (data : string) : task :=
  Perform (console_error ("AI System Error: " +:+ data)) (fun _ => Done).

Definition processFileWithAI (e : env) (fileId : Z) (filePath fileType : string)
  : task :=
  try_catch
    (await_call (storage_updateProcessedFile fileId (updates_processing e))
       (fun _ =>
     await_call (storage_createAgentActivity e
                   (start_activity fileId filePath fileType))
       (fun _ =>
     call (spawn e "python3"
             ["server/ai_system.py"; pretty fileId; filePath; fileType])
       (fun pythonProcess =>
     Perform (attach_listeners fileId)
       (fun _ => Done)))))
    (fun error =>
       Perform (console_error_with "Processing error:" error)
         (fun _ =>
       await_call (storage_updateProcessedFile fileId updates_failed)
         (fun _ => Done))).

(** ** [POST /api/upload] *)

(** The [if / else if] chain on [fileExtension]: the [fileType] it assigns,
    or [None] where the handler returns the 400 response. *)
Definition fileType_of_extension (fileExtension : string) : option string :=
  if includes [".pdf"] fileExtension then Some "PDF"
  else if includes [".eml"; ".msg"] fileExtension then Some "Email"
  else if includes [".json"] fileExtension then Some "JSON"
  else None.

Definition unsupported_body : json :=
  JObj [("error",
         JStr "Unsupported file type. Please upload PDF, Email (.eml, .msg), or JSON files.")].

(** The body of the response to an accepted upload. *)
Definition accepted_body (fileId : Z) : json :=
  JObj [("success", JBool true);
        ("fileId", JNum fileId);
        ("message", JStr "File uploaded successfully and processing started")].

(** The argument of [createProcessedFile] in the handler. *)
Definition pending_file (file : MulterFile.t) (fileType : string)
  : InsertProcessedFile.t :=
  {| InsertProcessedFile.filename := MulterFile.filename file;
     InsertProcessedFile.originalName := MulterFile.originalname file;
     InsertProcessedFile.fileType := fileType;
     InsertProcessedFile.size := MulterFile.size file;
     InsertProcessedFile.status := "pending";
     InsertProcessedFile.classificationResult := JNull;
     InsertProcessedFile.extractedData := JNull;
     InsertProcessedFile.businessIntent := None;
     InsertProcessedFile.priority := Some "low";
     InsertProcessedFile.agentAssigned := None |}.

Definition upload (e : env) (req_file : option MulterFile.t) : task :=
  try_catch
    (match req_file with
     | None =>
         Perform (respond 400 (JObj [("error", JStr "No file uploaded")]))
           (fun _ => Done)
     | Some file =>
         let fileExtension := toLowerCase (extname (MulterFile.originalname file)) in
         match fileType_of_extension fileExtension with
         | None => Perform (respond 400 unsupported_body) (fun _ => Done)
         | Some fileType =>
             await_call (storage_createProcessedFile e
                           (pending_file file fileType))
               (fun processedFile =>
             Detach (processFileWithAI e (ProcessedFile.id processedFile)
                       (MulterFile.path file) fileType)
               (Perform (respond 200
                           (accepted_body (ProcessedFile.id processedFile)))
                  (fun _ => Done)))
         end
     end)
    (fun error =>
       Perform (console_error_with "Upload error:" error)
         (fun _ =>
       Perform (respond 500 (JObj [("error", JStr "Failed to upload file")]))
         (fun _ => Done))).

(** ** The event loop *)

(** What can start a macrotask that writes to the store or to a child's
    listeners.  The [GET] routes and the two [/api/external] routes only
    read the store and answer; they are left out. *)
Inductive input : Type :=
| PostUpload (req_file : option MulterFile.t)
| ChildStdout (fileId : Z) (data : string)
| ChildStderr (fileId : Z) (data : string)
| ChildClose (fileId : Z) (code : option Z).

(** The listener an input reaches. *)
Definition listener (e : env) (i : input) : task :=
  match i with
  | PostUpload req_file => upload e req_file
  | ChildStdout _ data => on_stdout_data data
  | ChildStderr _ data => on_stderr_data data
  | ChildClose fileId code => on_close fileId code
  end.

(** A child process sends events only while it runs. *)
Definition enabled (i : input) (w : world) : Prop :=
  match i with
  | PostUpload _ => True
  | ChildStdout fileId _ | ChildStderr fileId _ | ChildClose fileId _ =>
      fileId ∈ children w
  end.

(** [close] is the last event of a process. *)
Definition before (i : input) (w : world) : world :=
  match i with
  | ChildClose fileId _ =>
      {| storage := storage w;
         children := List.filter (fun c => negb (c =? fileId)) (children w);
         log := log w |}
  | _ => w
  end.

Inductive step (w : world) : world -> Prop :=
| step_input (e : env) (i : input) (fuel : nat) (w' : world) :
    enabled i w ->
    run_macrotask fuel (listener e i) (before i w) = Some w' ->
    step w w'.

(** The process at start-up: [new MemStorage()], nothing running. *)
Definition boot : world :=
  {| storage := MemStorage_new; children := []; log := [] |}.

Inductive reachable : world -> Prop :=
| reachable_boot : reachable boot
| reachable_step (w w' : world) : reachable w -> step w w' -> reachable w'.

(** ** Vocabulary of the statements *)

(** No activity is stored under an id the counter has yet to hand out. *)
Definition activities_below_counter (this : MemStorage) : Prop :=
  forall id, is_Some (agentActivities this !! id) -> id < currentId this.


(** The world an accepted upload leaves, written out: the row is created
    as [pending], [processFileWithAI] marks it [processing] before the
    handler answers, and the activity and the child process follow in the
    microtasks; when [spawn] throws, the [catch] block marks the row
    [failed]. *)
Definition after_upload (e : env) (file : MulterFile.t) (fileType : string)
  (w : world) : world :=
  let fileId := currentId (storage w) in
  let '(created, s1) :=
    createProcessedFile (now e) (pending_file file fileType) (storage w) in
  let processing := ProcessedFile_assign created (updates_processing e) in
  let s2 :=
    set_processedFiles (<[fileId := processing]> (processedFiles s1)) s1 in
  let '(activity, s3) :=
    createAgentActivity (now e)
      (start_activity fileId (MulterFile.path file) fileType) s2 in
  let started :=
    [CreatedProcessedFile created;
     UpdatedProcessedFile fileId (updates_processing e);
     Responded 200 (accepted_body fileId);
     CreatedAgentActivity activity] in
  match spawn_throws e with
  | None =>
      {| storage := s3;
         children := children w ++ [fileId];
         log := log w ++ started ++
                [Spawned "python3"
                   ["server/ai_system.py"; pretty fileId;
                    MulterFile.path file; fileType]] |}
  | Some error =>
      {| storage :=
           set_processedFiles
             (<[fileId := ProcessedFile_assign processing updates_failed]>
                (processedFiles s3)) s3;
         children := children w;
         log := log w ++ started ++
                [ConsoleErrorWith "Processing error:" error;
                 UpdatedProcessedFile fileId updates_failed] |}
  end.

(** What the log says about one file: the statuses written to its row, the
    activities recorded for it, and the start of its child process. *)
Inductive file_event : Type :=
| Wrote (status : string)
| Logged (action : string) (status : string)
| Started.

Definition about (fileId : Z) (ev : event) : list file_event :=
  match ev with
  | CreatedProcessedFile r =>
      if ProcessedFile.id r =? fileId then [Wrote (ProcessedFile.status r)]
      else []
  | UpdatedProcessedFile id updates =>
      if id =? fileId then
        match PartialProcessedFile.status updates with
        | Some s => [Wrote s]
        | None => []
        end
      else []
  | CreatedAgentActivity r =>
      if bool_decide (AgentActivity.fileId r = Some fileId)
      then [Logged (AgentActivity.action r) (AgentActivity.status r)]
      else []
  | Spawned _ args =>
      if bool_decide (args !! 1%nat = Some (pretty fileId)) then [Started]
      else []
  | _ => []
  end.

Definition file_trace (fileId : Z) (l : list event) : list file_event :=
  flat_map (about fileId) l.

(** The three courses the life of an uploaded file can take, as traces:
    the child process was started (and is running, or has exited with code
    0); it was started and exited with another code; [spawn] threw. *)
Definition trace_started : list file_event :=
  [Wrote "pending"; Wrote "processing";
   Logged "Start Processing" "pending"; Started].

Definition trace_exited_failed : list file_event :=
  trace_started ++ [Wrote "failed"].

Definition trace_spawn_failed : list file_event :=
  [Wrote "pending"; Wrote "processing";
   Logged "Start Processing" "pending"; Wrote "failed"].

(** The status the last write of a trace left. *)
Definition last_written (trace : list file_event) : option string :=
  last (omap (fun ev => match ev with Wrote s => Some s | _ => None end) trace).

(** The events of one kind in a list of events. *)
Definition is_response (ev : event) : bool :=
  match ev with Responded _ _ => true | _ => false end.

Definition is_spawn (ev : event) : bool :=
  match ev with Spawned _ _ => true | _ => false end.

Definition is_activity (ev : event) : bool :=
  match ev with CreatedAgentActivity _ => true | _ => false end.

(** The content signature the spec names for the PDF format, in the spec's
    words: the magic bytes [%PDF] at the start of the content.  The routes
    never call it. *)
Definition spec_pdf_signature (content : string) : bool :=
  String.prefix "%PDF" content.

(** What holds of the process after every turn of the event loop. *)
Record consistent (w : world) : Prop := {
  files_below_counter :
    forall id, is_Some (processedFiles (storage w) !! id) ->
               id < currentId (storage w);
  activities_below :
    forall id, is_Some (agentActivities (storage w) !! id) ->
               id < currentId (storage w);
  no_trace_ahead :
    forall id, currentId (storage w) <= id -> file_trace id (log w) = [];
  children_running :
    forall id, id ∈ children w ->
      exists f, processedFiles (storage w) !! id = Some f /\
                ProcessedFile.status f = "processing" /\
                file_trace id (log w) = trace_started;
  files_lifecycle :
    forall id f, processedFiles (storage w) !! id = Some f ->
      (file_trace id (log w) = trace_started /\
       ProcessedFile.status f = "processing") \/
      (file_trace id (log w) = trace_exited_failed /\
       ProcessedFile.status f = "failed" /\ id ∉ children w) \/
      (file_trace id (log w) = trace_spawn_failed /\
       ProcessedFile.status f = "failed" /\ id ∉ children w);
  files_logged :
    forall id f, processedFiles (storage w) !! id = Some f ->
      exists a, agentActivities (storage w) !! (id + 1) = Some a /\
                AgentActivity.fileId a = Some id;
  activities_start :
    forall id a, agentActivities (storage w) !! id = Some a ->
      AgentActivity.agentName a = "Classifier Agent" /\
      AgentActivity.action a = "Start Processing" /\
      AgentActivity.status a = "pending" /\
      AgentActivity.errorMessage a = None
}.

(** One turn of the event loop on input [i], with the four microtasks the
    longest listener needs. *)
Definition turn (e : env) (i : input) (w : world) : world :=
  match run_macrotask 4 (listener e i) (before i w) with
  | Some w' => w'
  | None => w
  end.

(** A run to try the statements on: a text file named [notes.pdf] is
    uploaded to the fresh server, and its child process exits with code 1. *)
Definition example_env : env :=
  {| now := 1700000000000; spawn_throws := None |}.

Definition example_file : MulterFile.t :=
  {| MulterFile.originalname := "notes.pdf";
     MulterFile.filename := "3f2a9c";
     MulterFile.path := "uploads/3f2a9c";
     MulterFile.size := 11;
     MulterFile.content := "hello world" |}.

Definition example_uploaded : world :=
  turn example_env (PostUpload (Some example_file)) boot.

Definition example_exited : world :=
  turn example_env (ChildClose 1 (Some 1)) example_uploaded.

(** The same upload with other bytes on disk. *)
Definition with_content (content : string) (file : MulterFile.t)
  : MulterFile.t :=
  {| MulterFile.originalname := MulterFile.originalname file;
     MulterFile.filename := MulterFile.filename file;
     MulterFile.path := MulterFile.path file;
     MulterFile.size := MulterFile.size file;
     MulterFile.content := content |}.

(** The extensions the upload handler accepts. *)
Definition accepted_extensions : list string :=
  [".pdf"; ".eml"; ".msg"; ".json"].

(** A text file with an extension the handler does not know. *)
Definition example_text_file : MulterFile.t :=
  {| MulterFile.originalname := "notes.txt";
     MulterFile.filename := "77b0d1";
     MulterFile.path := "uploads/77b0d1";
     MulterFile.size := 11;
     MulterFile.content := "hello world" |}.

(** Calls of the interface to try the statements on: an activity is
    recorded, then more rows are created and updates are tried. *)
Definition example_calls : list (Z * storage_call) :=
  [(10, call_createAgentActivity (start_activity 7 "uploads/3f2a9c" "PDF"))].

Definition example_further_calls : list (Z * storage_call) :=
  [(11, call_createProcessedFile (pending_file example_file "PDF"));
   (12, call_updateProcessedFile 1 updates_failed);
   (13, call_createAgentActivity (start_activity 2 "uploads/3f2a9c" "PDF"));
   (14, call_getDashboardStats)].

(** The fresh server with the row of [notes.pdf] created and nothing else
    done. *)
Definition example_created : world :=
  {| storage :=
       snd (createProcessedFile 1700000000000 (pending_file example_file "PDF")
                                MemStorage_new);
     children := [];
     log := [] |}.

(** A store to try the dashboard on: two files, one of them completed, and
    two activities of one agent that took 30 ms and 0 ms. *)
Definition example_store : MemStorage :=
  snd (run_calls
         [(10, call_createProcessedFile
                 (InsertProcessedFile.mk "a1" "a.json" "JSON" 2 "completed"
                    JNull JNull None (Some "low") None));
          (20, call_createProcessedFile (pending_file example_file "PDF"));
          (30, call_createAgentActivity
                 (InsertAgentActivity.mk (Some 1) "JSON Agent" "Validate"
                    JNull JNull "success" (Some 30) None));
          (40, call_createAgentActivity
                 (InsertAgentActivity.mk (Some 1) "JSON Agent" "Route"
                    JNull JNull "success" (Some 0) None))]
         MemStorage_new).

(** A store whose processing times overflow when they are added up: two
    activities of 2^1023 ms each (about 9e307). *)
Definition example_overflow_store : MemStorage :=
  snd (run_calls
         [(10, call_createAgentActivity
                 (InsertAgentActivity.mk None "PDF Agent" "Parse"
                    JNull JNull "success" (Some (2 ^ 1023)) None));
          (20, call_createAgentActivity
                 (InsertAgentActivity.mk None "PDF Agent" "Parse"
                    JNull JNull "success" (Some (2 ^ 1023)) None))]
         MemStorage_new).

(** Whether a JS number is the given rational. *)
Definition number_is (x : number) (q : Q) : bool :=
  match x with Num p => Qeq_bool p q | _ => false end.

(** * The rest of the store: the queries *)

(** The five tables of the store. *)
Inductive table : Type :=
| Users | ProcessedFiles | AgentActivities | TriggeredActions | SystemMetrics.

Definition table_eqb (t t' : table) : bool :=
  match t, t' with
  | Users, Users | ProcessedFiles, ProcessedFiles
  | AgentActivities, AgentActivities | TriggeredActions, TriggeredActions
  | SystemMetrics, SystemMetrics => true
  | _, _ => false
  end.

(** The ids under which a table holds rows. *)
Definition table_ids (t : table) (this : MemStorage) : list Z :=
  match t with
  | Users => ids (users this)
  | ProcessedFiles => ids (processedFiles this)
  | AgentActivities => ids (agentActivities this)
  | TriggeredActions => ids (triggeredActions this)
  | SystemMetrics => ids (systemMetrics this)
  end.

Definition table_has (t : table) (id : Z) (this : MemStorage) : bool :=
  match t with
  | Users => bool_decide (is_Some (users this !! id))
  | ProcessedFiles => bool_decide (is_Some (processedFiles this !! id))
  | AgentActivities => bool_decide (is_Some (agentActivities this !! id))
  | TriggeredActions => bool_decide (is_Some (triggeredActions this !! id))
  | SystemMetrics => bool_decide (is_Some (systemMetrics this !! id))
  end.

(** The one [set(key, ...)] a call performs, if it performs one: the
    [create] methods set the id taken from the counter, the [update]
    methods set the id they were given when [get] has found it. *)
Definition written (c : storage_call) (this : MemStorage)
  : option (table * Z) :=
  match c with
  | call_createUser _ => Some (Users, currentId this)
  | call_createProcessedFile _ => Some (ProcessedFiles, currentId this)
  | call_createAgentActivity _ => Some (AgentActivities, currentId this)
  | call_createTriggeredAction _ => Some (TriggeredActions, currentId this)
  | call_createSystemMetric _ => Some (SystemMetrics, currentId this)
  | call_updateProcessedFile id _ =>
      if table_has ProcessedFiles id this then Some (ProcessedFiles, id)
      else None
  | call_updateTriggeredAction id _ =>
      if table_has TriggeredActions id this then Some (TriggeredActions, id)
      else None
  | _ => None
  end.

(** The insertion order of the keys of a [Map] after [set(key, ...)]: a key
    that is present keeps its place, a new key goes to the end. *)
Definition order_after_set (key : Z) (order : list Z) : list Z :=
  if bool_decide (key ∈ order) then order else order ++ [key].

(** The insertion orders of the five tables along a sequence of calls. *)
Fixpoint insertion_orders (calls : list (Z * storage_call)) (this : MemStorage)
  (orders : table -> list Z) : table -> list Z :=
  match calls with
  | [] => orders
  | (now, c) :: rest =>
      insertion_orders rest (snd (exec now c this))
        (match written c this with
         | Some (t, key) =>
             fun t' => if table_eqb t t' then order_after_set key (orders t')
                       else orders t'
         | None => orders
         end)
  end.

(** ** [sort] and [slice] *)

(** [Array.prototype.sort(compare)]: the sort is stable, and [compare] is a
    difference of two numbers, for which every stable sort gives the list
    that insertion gives. *)
Fixpoint sort_insert {A : Type} (compare : A -> A -> Z) (x : A) (l : list A)
  : list A :=
  match l with
  | [] => [x]
  | y :: rest =>
      if compare x y <=? 0 then x :: l else y :: sort_insert compare x rest
  end.

Definition sort {A : Type} (compare : A -> A -> Z) (l : list A) : list A :=
  foldr (sort_insert compare) [] l.

(** [l.slice(0, end)]: a negative [end] counts from the end of the array. *)
Definition slice_to {A : Type} (end_index : Z) (l : list A) : list A :=
  let len := Z.of_nat (length l) in
  take (Z.to_nat (if end_index <? 0 then Z.max (len + end_index) 0
                  else Z.min end_index len)) l.

(** A parameter with the default value 50. *)
Definition limit_or_50 (limit : option Z) : Z :=
  match limit with Some n => n | None => 50 end.

(** ** The queries of [MemStorage] *)

Definition getUserByUsername (username : string) (this : MemStorage)
  : option User.t :=
  List.find (fun user => String.eqb (User.username user) username)
            (rows (users this)).

Definition getProcessedFiles (limit : option Z) (this : MemStorage)
  : list ProcessedFile.t :=
  slice_to (limit_or_50 limit)
    (sort (fun a b => ProcessedFile.uploadedAt b - ProcessedFile.uploadedAt a)
          (rows (processedFiles this))).

Definition getProcessedFilesByStatus (status : string) (this : MemStorage)
  : list ProcessedFile.t :=
  List.filter (fun f => String.eqb (ProcessedFile.status f) status)
              (rows (processedFiles this)).

(** [a.fileId === fileId] for a nullable column and a number. *)
Definition fileId_is (fileId : Z) (x : option Z) : bool :=
  match x with Some n => n =? fileId | None => false end.

(** [getAgentActivities(fileId?, limit = 50)]; [if (fileId)] holds for a
    number other than 0. *)
Definition getAgentActivities (fileId : option Z) (limit : option Z)
  (this : MemStorage) : list AgentActivity.t :=
  let activities := rows (agentActivities this) in
  let activities :=
    match fileId with
    | Some n =>
        if n =? 0 then activities
        else List.filter (fun a => fileId_is n (AgentActivity.fileId a))
                         activities
    | None => activities
    end in
  slice_to (limit_or_50 limit)
    (sort (fun a b => AgentActivity.timestamp b - AgentActivity.timestamp a)
          activities).

Definition getAgentActivitiesByAgent (agentName : string) (this : MemStorage)
  : list AgentActivity.t :=
  List.filter (fun a => String.eqb (AgentActivity.agentName a) agentName)
              (rows (agentActivities this)).

Definition getTriggeredActions (limit : option Z) (this : MemStorage)
  : list TriggeredAction.t :=
  slice_to (limit_or_50 limit)
    (sort (fun a b => TriggeredAction.timestamp b - TriggeredAction.timestamp a)
          (rows (triggeredActions this))).

(** [getSystemMetrics(metricName?, limit = 50)]; [if (metricName)] holds for
    a string other than the empty one. *)
Definition getSystemMetrics (metricName : option string) (limit : option Z)
  (this : MemStorage) : list SystemMetric.t :=
  let metrics := rows (systemMetrics this) in
  let metrics :=
    match metricName with
    | Some name =>
        if String.eqb name "" then metrics
        else List.filter
               (fun m => String.eqb (SystemMetric.metricName m) name) metrics
    | None => metrics
    end in
  slice_to (limit_or_50 limit)
    (sort (fun a b => SystemMetric.timestamp b - SystemMetric.timestamp a)
          metrics).

(** [metrics[0]] *)
Definition getLatestMetric (metricName : string) (this : MemStorage)
  : option SystemMetric.t :=
  head (getSystemMetrics (Some metricName) (Some 1) this).

(** No table holds a row under an id the counter has yet to hand out. *)
Definition keys_below_counter (this : MemStorage) : Prop :=
  forall t id, table_has t id this = true -> id < currentId this.

(** In how many tables an id is a key. *)
Definition owners (id : Z) (this : MemStorage) : nat :=
  length (List.filter (fun t => table_has t id this)
            [Users; ProcessedFiles; AgentActivities; TriggeredActions;
             SystemMetrics]).

(** [result] is what a query that sorts [all] by the time [t], newest
    first, and keeps [limit] of them returns: [result] followed by the
    rows it leaves out is an arrangement of [all] in which no row is newer
    than one before it and rows of the same time keep the order they have
    in [all]; [result] has [limit] rows, or all of them when there are
    fewer; a negative [limit] leaves out that many rows at the end. *)
Definition newest_first {A : Type} (t : A -> Z) (limit : Z)
  (all result : list A) : Prop :=
  exists rest,
    result ++ rest ≡ₚ all /\
    StronglySorted (fun a b => t b <= t a) (result ++ rest) /\
    (forall time,
       List.filter (fun x => t x =? time) (result ++ rest) =
       List.filter (fun x => t x =? time) all) /\
    (0 <= limit ->
     length result = Nat.min (Z.to_nat limit) (length all)) /\
    (limit < 0 ->
     length result = (length all - Z.to_nat (- limit))%nat).

(** The [updates] of a call do not name the property [id]. *)
Definition keeps_id (c : storage_call) : bool :=
  match c with
  | call_updateProcessedFile _ updates =>
      match PartialProcessedFile.id updates with None => true | _ => false end
  | call_updateTriggeredAction _ updates =>
      match PartialTriggeredAction.id updates with None => true | _ => false end
  | _ => true
  end.

(** Every row carries, in its [id] column, the key it is stored under. *)
Definition ids_are_keys (this : MemStorage) : Prop :=
  (forall key r, users this !! key = Some r -> User.id r = key) /\
  (forall key r, processedFiles this !! key = Some r ->
                 ProcessedFile.id r = key) /\
  (forall key r, agentActivities this !! key = Some r ->
                 AgentActivity.id r = key) /\
  (forall key r, triggeredActions this !! key = Some r ->
                 TriggeredAction.id r = key) /\
  (forall key r, systemMetrics this !! key = Some r -> SystemMetric.id r = key).

(** [{ id: 7 }] *)
Definition updates_id_7 : PartialProcessedFile.t :=
  PartialProcessedFile.mk (Some 7) None None None None None None None None
    None None None None.

(** The response 200 of an accepted upload. *)
Definition is_accepted (ev : event) : bool :=
  match ev with Responded status _ => status =? 200 | _ => false end.

(** An event that shows an error left unhandled: a rejected promise that
    nobody awaits, or the response 500 of a [catch] block. *)
Definition is_failure (ev : event) : bool :=
  match ev with
  | UnhandledRejection _ => true
  | Responded status _ => negb ((status =? 200) || (status =? 400))
  | _ => false
  end.

(** What the routes have written, and what they have not. *)
Record plain (w : world) : Prop := {
  plain_users : users (storage w) = ∅;
  plain_actions : triggeredActions (storage w) = ∅;
  plain_metrics : systemMetrics (storage w) = ∅;
  plain_files :
    forall id f, processedFiles (storage w) !! id = Some f ->
      ProcessedFile.id f = id /\
      In (ProcessedFile.fileType f) ["PDF"; "Email"; "JSON"] /\
      is_Some (ProcessedFile.processedAt f) /\
      ProcessedFile.classificationResult f = JNull /\
      ProcessedFile.extractedData f = JNull /\
      ProcessedFile.businessIntent f = None /\
      ProcessedFile.priority f = Some "low" /\
      ProcessedFile.agentAssigned f = None;
  plain_activities :
    forall id a, agentActivities (storage w) !! id = Some a ->
      AgentActivity.id a = id /\
      AgentActivity.fileId a = Some (id - 1) /\
      is_Some (processedFiles (storage w) !! (id - 1)) /\
      AgentActivity.output a = JNull /\
      AgentActivity.processingTime a = None;
  plain_log : List.filter is_failure (log w) = [];
  plain_accepted :
    length (List.filter is_accepted (log w)) = size (processedFiles (storage w));
  plain_sizes :
    size (agentActivities (storage w)) = size (processedFiles (storage w))
}.

(** * [GET /api/agents/status] *)

(** [String.prototype.includes]: [needle] occurs somewhere in [hay]. *)
Fixpoint String_includes (needle hay : string) : bool :=
  if String.prefix needle hay then true
  else match hay with
       | EmptyString => false
       | String _ rest => String_includes needle rest
       end.

(** A value of a property of the objects the route answers with. *)
Inductive stat : Type :=
| Text (s : string)
| Count (n : nat)
| Ratio (q : Q).

Section AgentsStatus.

(** [new Date(t).toDateString()], which depends on the time zone of the
    server. *)
Variable toDateString : Z -> string.

(** [await storage.getAgentActivitiesByAgent(name).then(a => a.length)] *)
Definition processedCount (agentName : string) (this : MemStorage) : nat :=
  length (getAgentActivitiesByAgent agentName this).

Definition queueSize (this : MemStorage) : nat :=
  length (List.filter
            (fun file => String.eqb (ProcessedFile.fileType file) "Email")
            (getProcessedFilesByStatus "processing" this)).

Definition escalatedToday (now : Z) (this : MemStorage) : nat :=
  length (List.filter
            (fun action =>
               String.eqb (TriggeredAction.actionType action) "escalate"
               && String.eqb (toDateString (TriggeredAction.timestamp action))
                             (toDateString now))
            (getTriggeredActions None this)).

Definition validatedCount (this : MemStorage) : nat :=
  length (List.filter
            (fun file =>
               String.eqb (ProcessedFile.fileType file) "JSON"
               && String.eqb (ProcessedFile.status file) "completed")
            (getProcessedFiles None this)).

Definition anomaliesCount (this : MemStorage) : nat :=
  length (List.filter
            (fun action =>
               String.eqb (TriggeredAction.actionType action) "flag"
               && String_includes "anomaly" (TriggeredAction.description action))
            (getTriggeredActions None this)).

Definition parsedCount (this : MemStorage) : nat :=
  length (List.filter
            (fun file =>
               String.eqb (ProcessedFile.fileType file) "PDF"
               && String.eqb (ProcessedFile.status file) "completed")
            (getProcessedFiles None this)).

Definition flaggedCount (this : MemStorage) : nat :=
  length (List.filter
            (fun action =>
               String.eqb (TriggeredAction.actionType action) "flag"
               && String_includes "high" (TriggeredAction.description action))
            (getTriggeredActions None this)).

(** The array [agents] the handler answers with (status 200); [now] is the
    reading of the clock. *)
Definition agents_status (now : Z) (this : MemStorage)
  : list (list (string * stat)) :=
  [ [("name", Text "Classifier Agent");
     ("type", Text "classifier");
     ("status", Text "active");
     ("processedCount", Count (processedCount "Classifier Agent" this));
     ("accuracy", Ratio (489 # 5))];
    [("name", Text "Email Agent");
     ("type", Text "email");
     ("status", Text "active");
     ("processedCount", Count (processedCount "Email Agent" this));
     ("queueSize", Count (queueSize this));
     ("escalatedToday", Count (escalatedToday now this))];
    [("name", Text "JSON Agent");
     ("type", Text "json");
     ("status", Text "active");
     ("processedCount", Count (processedCount "JSON Agent" this));
     ("validatedCount", Count (validatedCount this));
     ("anomaliesCount", Count (anomaliesCount this))];
    [("name", Text "PDF Agent");
     ("type", Text "pdf");
     ("status", Text "active");
     ("processedCount", Count (processedCount "PDF Agent" this));
     ("parsedCount", Count (parsedCount this));
     ("flaggedCount", Count (flaggedCount this))] ].

End AgentsStatus.

(** * The upload form of the client ([FileUpload]) *)

(** [s.split('.')]: the pieces of [s] between its dots, at least one. *)
Fixpoint split_dot (s : string) : list string :=
  match s with
  | EmptyString => [EmptyString]
  | String c rest =>
      if Ascii.eqb c CHAR_DOT then EmptyString :: split_dot rest
      else match split_dot rest with
           | first :: others => String c first :: others
           | [] => [String c EmptyString]
           end
  end.

(** ['.' + file.name.split('.').pop()?.toLowerCase()]; [pop] gives the
    last piece, and ['.' + undefined] would be [".undefined"]. *)
Definition client_extension (name : string) : string :=
  "." +:+ match last (split_dot name) with
          | Some piece => toLowerCase piece
          | None => "undefined"
          end.

(** [allowedTypes.includes(extension)] in [handleFileSelect]: the file is
    queued for upload, otherwise a toast is shown and it is dropped. *)
Definition client_accepts (name : string) : bool :=
  includes [".pdf"; ".eml"; ".msg"; ".json"] (client_extension name).

(** [getFileTypeIcon(filename)] *)
Definition getFileTypeIcon (filename : string) : string :=
  match toLowerCase <$> last (split_dot filename) with
  | Some extension =>
      if String.eqb extension "pdf" then "pdf"
      else if String.eqb extension "eml" then "email"
      else if String.eqb extension "msg" then "email"
      else if String.eqb extension "json" then "json"
      else "file"
  | None => "file"
  end.

(** The names the form lets through although the server turns them away. *)
Definition bare_extensions : list string :=
  ["pdf"; "eml"; "msg"; "json"; ".pdf"; ".eml"; ".msg"; ".json"].

(** Two users registered under one name, and three readings of two
    metrics, to try the queries on. *)
Definition example_users : MemStorage :=
  snd (run_calls
         [(10, call_createUser (InsertUser.mk "ann" "first"));
          (20, call_createUser (InsertUser.mk "ann" "second"))]
         MemStorage_new).

Definition example_metrics : MemStorage :=
  snd (run_calls
         [(10, call_createSystemMetric (InsertSystemMetric.mk "cpu" "12"));
          (30, call_createSystemMetric (InsertSystemMetric.mk "cpu" "47"));
          (20, call_createSystemMetric (InsertSystemMetric.mk "queue" "3"))]
         MemStorage_new).

(** * The tables of the dashboard ([ProcessingResults], [AuditTrail]) *)

(** A [<Badge>] element: its [variant] and [className] props and its
    text. *)
Module Badge.
Record t : Type := mk {
  variant : option string;
  className : option string;
  children : string
}.
End Badge.

(** [x === s] for a property that the JSON of a row may carry as [null]. *)
Definition strictly_is (x : option string) (s : string) : bool :=
  match x with Some v => String.eqb v s | None => false end.

Module ProcessingResults.

(** [getActionBadge(priority, status)] *)
Definition getActionBadge (priority : option string) (status : string)
  : Badge.t :=
  if String.eqb status "failed" then
    Badge.mk (Some "destructive") None "Failed"
  else if strictly_is priority "high" then
    Badge.mk None (Some "bg-carbon-red text-white") "Escalated"
  else if strictly_is priority "medium" then
    Badge.mk None (Some "bg-carbon-yellow text-white") "Flagged"
  else if strictly_is priority "low" then
    Badge.mk None (Some "bg-carbon-green text-white") "Processed"
  else Badge.mk (Some "secondary") None "Pending".

(** The rows of the table: [files?.slice(0, 10)] of the answer of
    [GET /api/files], which is [storage.getProcessedFiles(50)]. *)
Definition shown (this : MemStorage) : list ProcessedFile.t :=
  slice_to 10 (getProcessedFiles (Some 50) this).

End ProcessingResults.

Module AuditTrail.

(** [getStatusBadge(status)] *)
Definition getStatusBadge (status : string) : Badge.t :=
  if String.eqb status "success" then
    Badge.mk None (Some "bg-carbon-green text-white") "Success"
  else if String.eqb status "failed" then
    Badge.mk (Some "destructive") None "Failed"
  else if String.eqb status "pending" then
    Badge.mk None (Some "bg-carbon-yellow text-white") "Pending"
  else Badge.mk (Some "secondary") None status.

(** The rows of the table: the answer of [GET /api/activities] without a
    [fileId], which is [storage.getAgentActivities(undefined, 100)]. *)
Definition shown (this : MemStorage) : list AgentActivity.t :=
  getAgentActivities None (Some 100) this.

End AuditTrail.

(** * Properties *)

(** ** [path.extname] on the shapes of name the Node documentation lists *)

Example extname_samples :
  extname "index.html" = ".html" /\ extname "index.coffee.md" = ".md" /\
  extname "index." = "." /\ extname "index" = "" /\
  extname ".index" = "" /\ extname ".index.md" = ".md" /\
  extname ".." = "" /\ extname "dir.d/report.PDF" = ".PDF" /\
  extname "a.pdf/" = ".pdf" /\
  toLowerCase (extname "Invoice.Final.PDF") = ".pdf".
Proof. vm_compute. repeat split. Qed.

(** ** The store: counter and ids *)

Section Counter.

Implicit Types (this : MemStorage) (c : storage_call).

Lemma exec_created now c this id :
  fst (exec now c this) = Some id ->
  id = currentId this /\ currentId (snd (exec now c this)) = currentId this + 1.
Proof.
  destruct c; simpl; try discriminate; intros [= <-]; split; reflexivity.
Qed.

Lemma updateProcessedFile_currentId id updates this :
  currentId (snd (updateProcessedFile id updates this)) = currentId this.
Proof.
  unfold updateProcessedFile. destruct (processedFiles this !! id); reflexivity.
Qed.

Lemma updateTriggeredAction_currentId id updates this :
  currentId (snd (updateTriggeredAction id updates this)) = currentId this.
Proof.
  unfold updateTriggeredAction.
  destruct (triggeredActions this !! id); reflexivity.
Qed.

Lemma exec_counter now c this :
  currentId this <= currentId (snd (exec now c this)).
Proof.
  destruct c; simpl;
    rewrite ?updateProcessedFile_currentId, ?updateTriggeredAction_currentId;
    lia.
Qed.

Lemma run_calls_cons now c rest this :
  run_calls ((now, c) :: rest) this =
  (match fst (exec now c this) with
   | Some id => id :: fst (run_calls rest (snd (exec now c this)))
   | None => fst (run_calls rest (snd (exec now c this)))
   end,
   snd (run_calls rest (snd (exec now c this)))).
Proof.
  simpl. destruct (exec now c this) as [created this']. simpl.
  destruct (run_calls rest this') as [ids this'']. reflexivity.
Qed.

Lemma run_calls_app calls1 calls2 this :
  snd (run_calls (calls1 ++ calls2) this) =
  snd (run_calls calls2 (snd (run_calls calls1 this))).
Proof.
  revert this. induction calls1 as [|[now c] rest IH]; intros this.
  - reflexivity.
  - rewrite <- app_comm_cons, !run_calls_cons. simpl. apply IH.
Qed.

(** Every id a sequence of calls hands out is at least the counter it
    started from, and the ids come out in strictly increasing order. *)
Lemma run_calls_ids calls this :
  Forall (fun id => currentId this <= id) (fst (run_calls calls this)) /\
  StronglySorted Z.lt (fst (run_calls calls this)).
Proof.
  revert this. induction calls as [|[now c] rest IH]; intros this.
  - split; constructor.
  - rewrite run_calls_cons. simpl.
    destruct (IH (snd (exec now c this))) as [Hge Hsorted].
    destruct (fst (exec now c this)) as [id|] eqn:Hc.
    + apply exec_created in Hc as [-> Hnext]. rewrite Hnext in Hge.
      split.
      * constructor; [lia|]. eapply Forall_impl; [eassumption|].
        simpl. intros; lia.
      * constructor; [assumption|]. eapply Forall_impl; [eassumption|].
        simpl. intros; lia.
    + split; [|assumption]. eapply Forall_impl; [eassumption|].
      simpl. intros a Ha. pose proof (exec_counter now c this). lia.
Qed.

End Counter.

Lemma StronglySorted_lt_NoDup (l : list Z) : StronglySorted Z.lt l -> NoDup l.
Proof.
  induction 1 as [|a l Hs IH Hall]; constructor; [|assumption].
  intros Hin. rewrite Forall_forall in Hall.
  specialize (Hall a Hin). lia.
Qed.

(** C8. Create/get round trip of the store: for every insert record [file]
    and every store, [createProcessedFile] returns a row whose ten
    supplied columns are those of [file]; [getProcessedFile] at the id of
    that row then returns exactly that row; and the ids handed out by any
    sequence of calls of the interface, whichever tables they create rows
    in, are strictly increasing and hence pairwise distinct. *)
Theorem create_get_round_trip :
  (forall now file this,
     let r := fst (createProcessedFile now file this) in
     let this' := snd (createProcessedFile now file this) in
     ProcessedFile.filename r = InsertProcessedFile.filename file /\
     ProcessedFile.originalName r = InsertProcessedFile.originalName file /\
     ProcessedFile.fileType r = InsertProcessedFile.fileType file /\
     ProcessedFile.size r = InsertProcessedFile.size file /\
     ProcessedFile.status r = InsertProcessedFile.status file /\
     ProcessedFile.classificationResult r =
       InsertProcessedFile.classificationResult file /\
     ProcessedFile.extractedData r = InsertProcessedFile.extractedData file /\
     ProcessedFile.businessIntent r = InsertProcessedFile.businessIntent file /\
     ProcessedFile.priority r = InsertProcessedFile.priority file /\
     ProcessedFile.agentAssigned r = InsertProcessedFile.agentAssigned file /\
     getProcessedFile (ProcessedFile.id r) this' = Some r) /\
  (forall calls this,
     let ids := fst (run_calls calls this) in
     StronglySorted Z.lt ids /\ NoDup ids).
Proof.
  split.
  - intros now file this. simpl. repeat split.
    unfold getProcessedFile. simpl. apply lookup_insert_eq.
  - intros calls this. simpl.
    pose proof (run_calls_ids calls this) as [_ Hs].
    split; [assumption | apply StronglySorted_lt_NoDup; assumption].
Qed.

(** ** The store: updates *)

Lemma spread_nullable {A : Type} (f : A -> cell) (x : option A)
  (u : option (option A)) :
  nullable f (spread x u) = spread (nullable f x) (nullable f <$> u).
Proof. destruct u; reflexivity. Qed.

Lemma spread_fmap {A : Type} (f : A -> cell) (x : A) (u : option A) :
  f (spread x u) = spread (f x) (f <$> u).
Proof. destruct u; reflexivity. Qed.

Lemma ProcessedFile_assign_get c existing updates :
  ProcessedFile.get c (ProcessedFile_assign existing updates) =
  spread (ProcessedFile.get c existing) (PartialProcessedFile.get c updates).
Proof.
  destruct c; simpl; first [apply spread_nullable | apply spread_fmap].
Qed.

Lemma TriggeredAction_assign_get c existing updates :
  TriggeredAction.get c (TriggeredAction_assign existing updates) =
  spread (TriggeredAction.get c existing) (PartialTriggeredAction.get c updates).
Proof.
  destruct c; simpl; first [apply spread_nullable | apply spread_fmap].
Qed.

(** C9. [updateProcessedFile] and [updateTriggeredAction] throw exactly
    when the table has no row under the given id; when they throw, the
    store is the one they were called on; when they return, the row they
    return is the stored row with each column taken from [updates] where
    [updates] names it and from the existing row otherwise, it is what the
    table now holds under the id, every other id of the table maps to what
    it did, and the other tables and the counter are as they were. *)
Theorem update_throws_iff_missing :
  (forall id updates this,
     let result := updateProcessedFile id updates this in
     ((exists e, fst result = Thrown e) <-> processedFiles this !! id = None) /\
     ((exists e, fst result = Thrown e) -> snd result = this) /\
     (forall updated, fst result = Returned updated ->
        exists existing,
          processedFiles this !! id = Some existing /\
          (forall c, ProcessedFile.get c updated =
                     spread (ProcessedFile.get c existing)
                            (PartialProcessedFile.get c updates)) /\
          processedFiles (snd result) !! id = Some updated /\
          (forall j, j <> id ->
             processedFiles (snd result) !! j = processedFiles this !! j) /\
          users (snd result) = users this /\
          agentActivities (snd result) = agentActivities this /\
          triggeredActions (snd result) = triggeredActions this /\
          systemMetrics (snd result) = systemMetrics this /\
          currentId (snd result) = currentId this)) /\
  (forall id updates this,
     let result := updateTriggeredAction id updates this in
     ((exists e, fst result = Thrown e) <-> triggeredActions this !! id = None) /\
     ((exists e, fst result = Thrown e) -> snd result = this) /\
     (forall updated, fst result = Returned updated ->
        exists existing,
          triggeredActions this !! id = Some existing /\
          (forall c, TriggeredAction.get c updated =
                     spread (TriggeredAction.get c existing)
                            (PartialTriggeredAction.get c updates)) /\
          triggeredActions (snd result) !! id = Some updated /\
          (forall j, j <> id ->
             triggeredActions (snd result) !! j = triggeredActions this !! j) /\
          users (snd result) = users this /\
          processedFiles (snd result) = processedFiles this /\
          agentActivities (snd result) = agentActivities this /\
          systemMetrics (snd result) = systemMetrics this /\
          currentId (snd result) = currentId this)).
Proof.
  split; intros id updates this; simpl.
  - unfold updateProcessedFile.
    destruct (processedFiles this !! id) as [existing|] eqn:Hget; simpl.
    + split; [split; [intros [e He]; discriminate | discriminate]|].
      split; [intros [e He]; discriminate|].
      intros updated [= <-]. exists existing. split; [reflexivity|].
      split; [intros c; apply ProcessedFile_assign_get|].
      split; [apply lookup_insert_eq|].
      split; [intros j Hj; apply lookup_insert_ne; congruence|].
      repeat split.
    + split; [split; [reflexivity | intros _; eexists; reflexivity]|].
      split; [reflexivity | discriminate].
  - unfold updateTriggeredAction.
    destruct (triggeredActions this !! id) as [existing|] eqn:Hget; simpl.
    + split; [split; [intros [e He]; discriminate | discriminate]|].
      split; [intros [e He]; discriminate|].
      intros updated [= <-]. exists existing. split; [reflexivity|].
      split; [intros c; apply TriggeredAction_assign_get|].
      split; [apply lookup_insert_eq|].
      split; [intros j Hj; apply lookup_insert_ne; congruence|].
      repeat split.
    + split; [split; [reflexivity | intros _; eexists; reflexivity]|].
      split; [reflexivity | discriminate].
Qed.

(** ** Ids and rows of a table *)

Section Tables.

Context {A : Type}.
Implicit Types (m : gmap Z A) (l : list Z).

Lemma ids_Permutation m : ids m ≡ₚ (map_to_list m).*1.
Proof. apply merge_sort_Permutation. Qed.

Lemma elem_of_ids m id : id ∈ ids m <-> is_Some (m !! id).
Proof.
  rewrite ids_Permutation, list_elem_of_fmap. split.
  - intros [[k x] [-> Hin]]. apply elem_of_map_to_list in Hin. simpl. eauto.
  - intros [x Hx]. exists (id, x). split; [reflexivity|].
    apply elem_of_map_to_list, Hx.
Qed.

Lemma ids_sorted m : StronglySorted Z.le (ids m).
Proof. apply (StronglySorted_merge_sort Z.le). Qed.

Lemma ids_NoDup m : NoDup (ids m).
Proof. rewrite ids_Permutation. apply NoDup_fst_map_to_list. Qed.

(** A sorted list with the keys of the table is the list of its ids. *)
Lemma ids_unique m l :
  StronglySorted Z.le l -> l ≡ₚ (map_to_list m).*1 -> l = ids m.
Proof.
  intros Hsorted Hperm.
  apply (StronglySorted_unique Z.le); [assumption | apply ids_sorted|].
  rewrite Hperm, ids_Permutation. reflexivity.
Qed.

Lemma ids_insert_fresh m id (x : A) :
  (forall k, is_Some (m !! k) -> k < id) ->
  ids (<[id := x]> m) = ids m ++ [id].
Proof.
  intros Hbelow. symmetry. apply ids_unique.
  - apply StronglySorted_app_2; [|apply ids_sorted | repeat constructor].
    intros k1 k2 Hk1 Hk2. apply list_elem_of_singleton in Hk2. subst k2.
    apply elem_of_ids in Hk1. apply Hbelow in Hk1. lia.
  - assert (Hfresh : m !! id = None).
    { destruct (m !! id) eqn:E; [|reflexivity].
      pose proof (Hbelow id (ex_intro _ _ E)). lia. }
    rewrite (map_to_list_insert m id x Hfresh). simpl.
    rewrite ids_Permutation. symmetry. apply Permutation_cons_append.
Qed.

Lemma ids_insert_present m id (x : A) :
  is_Some (m !! id) -> ids (<[id := x]> m) = ids m.
Proof.
  intros [y Hy]. symmetry. apply ids_unique; [apply ids_sorted|].
  rewrite ids_Permutation.
  rewrite <- (insert_delete_eq m id x).
  rewrite <- (insert_id m id y Hy) at 1.
  rewrite <- (insert_delete_eq m id y).
  rewrite !map_to_list_insert by apply lookup_delete_eq. reflexivity.
Qed.

Lemma ids_empty : ids (∅ : gmap Z A) = [].
Proof. unfold ids. rewrite map_to_list_empty. reflexivity. Qed.

Lemma omap_lookup_entries m (entries : list (Z * A)) :
  (forall k x, (k, x) ∈ entries -> m !! k = Some x) ->
  omap (fun id => m !! id) entries.*1 = entries.*2.
Proof.
  induction entries as [|[k x] entries IH]; intros Hall; [reflexivity|].
  simpl. rewrite (Hall k x) by left. f_equal.
  apply IH. intros k' x' Hin. apply Hall. by right.
Qed.

Lemma rows_Permutation m : rows m ≡ₚ (map_to_list m).*2.
Proof.
  unfold rows. rewrite ids_Permutation.
  rewrite omap_lookup_entries; [reflexivity|].
  intros k x Hin. apply elem_of_map_to_list, Hin.
Qed.

Lemma elem_of_rows m (x : A) : x ∈ rows m <-> exists id, m !! id = Some x.
Proof.
  rewrite rows_Permutation, list_elem_of_fmap. split.
  - intros [[k y] [-> Hin]]. apply elem_of_map_to_list in Hin. eauto.
  - intros [id Hid]. exists (id, x). split; [reflexivity|].
    apply elem_of_map_to_list, Hid.
Qed.

Lemma length_rows m : length (rows m) = size m.
Proof.
  rewrite rows_Permutation, length_fmap. apply length_map_to_list.
Qed.

End Tables.

Lemma rows_empty {A : Type} : rows (∅ : gmap Z A) = [].
Proof. unfold rows. rewrite ids_empty. reflexivity. Qed.

Lemma length_filter_le {A : Type} (P : A -> bool) (l : list A) :
  (length (List.filter P l) <= length l)%nat.
Proof.
  induction l as [|x l IH]; simpl; [lia|]. destruct (P x); simpl; lia.
Qed.

(** ** The store: dashboard figures *)

Lemma Q_of_nat_nonzero (n : nat) :
  (0 <? n)%nat = true -> Qeq_bool (Q_of_nat n) 0 = false.
Proof.
  intros Hn. apply Nat.ltb_lt in Hn.
  destruct (Qeq_bool (Q_of_nat n) 0) eqn:E; [|reflexivity].
  apply Qeq_bool_iff in E. unfold Q_of_nat, Qeq in E. simpl in E. lia.
Qed.

Lemma Q_of_nat_positive (n : nat) :
  (0 <? n)%nat = true -> (1 <= Q_of_nat n)%Q.
Proof.
  intros Hn. apply Nat.ltb_lt in Hn. unfold Q_of_nat.
  change 1%Q with (inject_Z 1). rewrite <- Zle_Qle. lia.
Qed.

Lemma Q_of_nat_le (m n : nat) :
  (m <= n)%nat -> (0 <= Q_of_nat m <= Q_of_nat n)%Q.
Proof.
  intros Hmn. unfold Q_of_nat. change 0%Q with (inject_Z 0).
  rewrite <- !Zle_Qle. lia.
Qed.

Lemma overflow_threshold_large : (100 < overflow_threshold)%Q.
Proof. vm_compute. reflexivity. Qed.

Lemma safe_integer_below_threshold (z : Z) :
  Z.abs z <= 2 ^ 53 -> below_threshold (Num (inject_Z z)).
Proof.
  intros Hz.
  assert (Hsafe : (inject_Z (2 ^ 53) < overflow_threshold)%Q)
    by (vm_compute; reflexivity).
  assert (Hhi : (inject_Z z <= inject_Z (2 ^ 53))%Q)
    by (rewrite <- Zle_Qle; lia).
  assert (Hlo : (inject_Z (- 2 ^ 53) <= inject_Z z)%Q)
    by (rewrite <- Zle_Qle; lia).
  rewrite inject_Z_opp in Hlo. simpl. lra.
Qed.

(** Below the threshold an exact result is the number itself, and a finite
    number that an operation gives is below the threshold. *)
Lemma js_number_finite q :
  below_threshold (Num q) -> js_number q = Num q.
Proof.
  intros [Hlo Hhi]. unfold js_number.
  destruct (Qle_bool overflow_threshold q) eqn:E1.
  { apply Qle_bool_iff in E1. destruct (Qlt_not_le _ _ Hhi E1). }
  destruct (Qle_bool q (- overflow_threshold)) eqn:E2.
  { apply Qle_bool_iff in E2. destruct (Qlt_not_le _ _ Hlo E2). }
  reflexivity.
Qed.

Lemma js_number_below q : below_threshold (js_number q).
Proof.
  unfold js_number.
  destruct (Qle_bool overflow_threshold q) eqn:E1; [exact I|].
  destruct (Qle_bool q (- overflow_threshold)) eqn:E2; [exact I|].
  split; apply Qnot_le_lt; intros H; apply Qle_bool_iff in H; congruence.
Qed.

Lemma js_add_below x y : below_threshold (js_add x y).
Proof. destruct x, y; simpl; try exact I. apply js_number_below. Qed.

Lemma total_processing_time_below activities :
  below_threshold (total_processing_time activities).
Proof.
  unfold total_processing_time.
  assert (Hzero : below_threshold (Num 0))
    by (split; vm_compute; reflexivity).
  revert Hzero. generalize (Num 0).
  induction activities as [|a activities IH]; intros sum Hsum; [exact Hsum|].
  simpl. apply IH, js_add_below.
Qed.

(** The division by the length of a non-empty array keeps a finite number
    finite. *)
Lemma js_div_by_length q (n : nat) :
  (0 <? n)%nat = true -> below_threshold (Num q) ->
  js_div (Num q) (Num (Q_of_nat n)) = Num (q / Q_of_nat n).
Proof.
  intros Hn [Hlo Hhi]. unfold js_div. rewrite Q_of_nat_nonzero by exact Hn.
  apply js_number_finite.
  pose proof (Q_of_nat_positive n Hn) as Hone.
  pose proof overflow_threshold_large as Hlarge.
  assert (Hpos : (0 < Q_of_nat n)%Q) by lra.
  split.
  - apply Qlt_shift_div_l; [exact Hpos|]. nra.
  - apply Qlt_shift_div_r; [exact Hpos|]. nra.
Qed.

(** A share of a non-empty array as a percentage is a finite number. *)
Lemma percentage_finite (m n : nat) :
  (0 <? n)%nat = true -> (m <= n)%nat ->
  js_mul (js_div (Num (Q_of_nat m)) (Num (Q_of_nat n))) (Num 100)
  = Num (Q_of_nat m / Q_of_nat n * 100).
Proof.
  intros Hn Hmn.
  pose proof (Q_of_nat_positive n Hn) as Hone.
  pose proof (Q_of_nat_le m n Hmn) as [H0 Hle].
  pose proof overflow_threshold_large as Hlarge.
  assert (Hpos : (0 < Q_of_nat n)%Q) by lra.
  assert (Hshare : (0 <= Q_of_nat m / Q_of_nat n <= 1)%Q).
  { split.
    - apply Qle_shift_div_l; [exact Hpos|]. lra.
    - apply Qle_shift_div_r; [exact Hpos|]. lra. }
  unfold js_div. rewrite Q_of_nat_nonzero by exact Hn.
  rewrite js_number_finite by (simpl; lra).
  unfold js_mul. apply js_number_finite. simpl. lra.
Qed.

Lemma processing_time_magnitude_nonneg activities :
  0 <= processing_time_magnitude activities.
Proof. induction activities as [|a l IH]; simpl; lia. Qed.

(** Processing times whose magnitudes add up to at most 2^53 are added
    without overflow (and without round-off: every partial sum is an
    integer a double holds exactly). *)
Lemma total_processing_time_safe activities :
  processing_time_magnitude activities <= 2 ^ 53 ->
  is_finite (total_processing_time activities).
Proof.
  unfold total_processing_time.
  assert (Hgen : forall l q z,
            (q == inject_Z z)%Q ->
            Z.abs z + processing_time_magnitude l <= 2 ^ 53 ->
            is_finite
              (fold_left
                 (fun sum a =>
                    js_add sum
                      (Num (inject_Z
                              (or_else (AgentActivity.processingTime a) 0))))
                 l (Num q))).
  { induction l as [|a l IH]; intros q z Hq Hsafe; [exact I|].
    simpl in Hsafe |- *.
    set (x := or_else (AgentActivity.processingTime a) 0) in *.
    assert (Hsum : (q + inject_Z x == inject_Z (z + x))%Q)
      by (rewrite inject_Z_plus, Hq; reflexivity).
    rewrite js_number_finite.
    - apply (IH _ (z + x) Hsum). lia.
    - pose proof (safe_integer_below_threshold (z + x)) as Hbelow.
      pose proof (processing_time_magnitude_nonneg l) as Hrest.
      simpl in Hbelow |- *. rewrite Hsum. apply Hbelow. lia. }
  intros Hsafe. apply (Hgen activities 0%Q 0); [reflexivity|].
  simpl. exact Hsafe.
Qed.

(** C10. [getDashboardStats] guards its two divisions and its count of
    agents: with no files [successRate] is 0, with no activities
    [averageProcessingTime] is 0, and when the set of agent names of the
    activities is empty [activeAgents] is 4 (in no case 0).  Otherwise the
    divisor is the length of a non-empty array: [successRate] is a finite
    number on every store, and [averageProcessingTime] is finite whenever
    the sum of the processing times is, which it is when their magnitudes
    add up to at most 2^53 (the sum itself can overflow to an infinity,
    as in [getDashboardStats_overflow]). *)
Theorem getDashboardStats_total :
  forall today this,
    let stats := getDashboardStats today this in
    let activities := rows (agentActivities this) in
    (processedFiles this = ∅ -> successRate stats = Num 0) /\
    (agentActivities this = ∅ -> averageProcessingTime stats = Num 0) /\
    ((list_to_set (AgentActivity.agentName <$> activities) : gset string) = ∅ ->
     activeAgents stats = 4%nat) /\
    (1 <= activeAgents stats)%nat /\
    is_finite (successRate stats) /\
    (is_finite (total_processing_time activities) ->
     is_finite (averageProcessingTime stats)) /\
    (processing_time_magnitude activities <= 2 ^ 53 ->
     is_finite (averageProcessingTime stats)).
Proof.
  intros today this stats activities.
  assert (Haverage : is_finite (total_processing_time activities) ->
                     is_finite (averageProcessingTime stats)).
  { intros Hsum. subst stats. unfold getDashboardStats.
    cbn [successRate averageProcessingTime activeAgents totalProcessed
           processedToday].
    fold activities.
    destruct (0 <? length activities)%nat eqn:E; [|exact I].
    pose proof (total_processing_time_below activities) as Hbelow.
    destruct (total_processing_time activities) as [q| | |];
      try destruct Hsum.
    rewrite js_div_by_length by assumption. exact I. }
  subst stats activities. unfold getDashboardStats.
  cbn [successRate averageProcessingTime activeAgents totalProcessed
         processedToday].
  split; [intros ->; rewrite rows_empty; reflexivity|].
  split; [intros ->; rewrite rows_empty; reflexivity|].
  split; [intros ->; reflexivity|].
  split.
  { destruct (size _ =? 0)%nat eqn:E; [lia|]. apply Nat.eqb_neq in E. lia. }
  split.
  { destruct (0 <? length (rows (processedFiles this)))%nat eqn:E; [|exact I].
    rewrite percentage_finite; [exact I|exact E|apply length_filter_le]. }
  split; [exact Haverage|].
  intros Hsafe. apply Haverage, total_processing_time_safe, Hsafe.
Qed.

Example getDashboardStats_sample :
  let stats := getDashboardStats 15 example_store in
  processedToday stats = 1%nat /\ totalProcessed stats = 2%nat /\
  number_is (successRate stats) 50 = true /\
  number_is (averageProcessingTime stats) 15 = true /\
  activeAgents stats = 1%nat.
Proof. vm_compute. repeat split. Qed.

(** The sum of the processing times can overflow: with two activities that
    took 2^1023 ms each, [averageProcessingTime] is [Infinity]. *)
Example getDashboardStats_overflow :
  averageProcessingTime (getDashboardStats 0 example_overflow_store)
  = Infinity.
Proof. vm_compute. reflexivity. Qed.

(** ** The store: the activity table only grows *)

Lemma updateProcessedFile_agentActivities id updates this :
  agentActivities (snd (updateProcessedFile id updates this)) =
  agentActivities this.
Proof.
  unfold updateProcessedFile. destruct (processedFiles this !! id); reflexivity.
Qed.

Lemma updateTriggeredAction_agentActivities id updates this :
  agentActivities (snd (updateTriggeredAction id updates this)) =
  agentActivities this.
Proof.
  unfold updateTriggeredAction.
  destruct (triggeredActions this !! id); reflexivity.
Qed.

Lemma exec_keeps_activity now c this id a :
  activities_below_counter this ->
  agentActivities this !! id = Some a ->
  agentActivities (snd (exec now c this)) !! id = Some a.
Proof.
  intros Hbelow Hget.
  destruct c; simpl;
    rewrite ?updateProcessedFile_agentActivities,
            ?updateTriggeredAction_agentActivities; try assumption.
  rewrite lookup_insert_ne; [assumption|].
  specialize (Hbelow id (ex_intro _ a Hget)). lia.
Qed.

Lemma exec_activities_below_counter now c this :
  activities_below_counter this ->
  activities_below_counter (snd (exec now c this)).
Proof.
  intros Hbelow id.
  pose proof (exec_counter now c this) as Hle.
  destruct c; simpl in *;
    rewrite ?updateProcessedFile_agentActivities,
            ?updateTriggeredAction_agentActivities,
            ?updateProcessedFile_currentId,
            ?updateTriggeredAction_currentId;
    try (intros H; specialize (Hbelow id H); lia).
  rewrite lookup_insert. case_decide as Hid.
  - intros _. lia.
  - intros H. specialize (Hbelow id H). lia.
Qed.

Lemma run_calls_activities_below_counter calls this :
  activities_below_counter this ->
  activities_below_counter (snd (run_calls calls this)).
Proof.
  revert this. induction calls as [|[now c] rest IH]; intros this Hbelow.
  - assumption.
  - rewrite run_calls_cons. simpl.
    apply IH, exec_activities_below_counter, Hbelow.
Qed.

Lemma run_calls_keeps_activity calls this id a :
  activities_below_counter this ->
  agentActivities this !! id = Some a ->
  agentActivities (snd (run_calls calls this)) !! id = Some a.
Proof.
  revert this. induction calls as [|[now c] rest IH]; intros this Hbelow Hget.
  - assumption.
  - rewrite run_calls_cons. simpl. apply IH.
    + apply exec_activities_below_counter, Hbelow.
    + apply exec_keeps_activity; assumption.
Qed.

Lemma MemStorage_new_activities_below_counter :
  activities_below_counter MemStorage_new.
Proof. intros id [a Ha]. simpl in Ha. rewrite lookup_empty in Ha. discriminate. Qed.

(** C4. Agent activities are append-only: in a store built from
    [new MemStorage()] by any sequence of calls of the interface, an
    activity that is held under an id is still held there, unchanged, after
    any further sequence of calls. *)
Theorem agent_activities_append_only :
  forall calls further id a,
    let this := snd (run_calls calls MemStorage_new) in
    agentActivities this !! id = Some a ->
    agentActivities (snd (run_calls further this)) !! id = Some a.
Proof.
  intros calls further id a this Hget.
  apply run_calls_keeps_activity; [|exact Hget].
  apply run_calls_activities_below_counter,
        MemStorage_new_activities_below_counter.
Qed.

(** ** The event loop: running the listeners *)

Lemma drain_nil fuel w : drain fuel [] w = Some w.
Proof. destruct fuel; reflexivity. Qed.

Lemma drain_more fuel extra queue w w' :
  drain fuel queue w = Some w' -> drain (extra + fuel) queue w = Some w'.
Proof.
  revert queue w. induction fuel as [|fuel IH]; intros queue w.
  - destruct queue; [|discriminate]. intros [= <-]. apply drain_nil.
  - destruct queue as [|t rest].
    + intros [= <-]. apply drain_nil.
    + replace (extra + S fuel)%nat with (S (extra + fuel)) by lia. simpl.
      destruct (run_sync t w) as [suspended w1]. apply IH.
Qed.

Lemma run_macrotask_more fuel extra t w w' :
  run_macrotask fuel t w = Some w' ->
  run_macrotask (extra + fuel) t w = Some w'.
Proof.
  unfold run_macrotask. destruct (run_sync t w) as [suspended w1].
  apply drain_more.
Qed.

(** Two runs of a listener that both finish end in the same world. *)
Lemma run_macrotask_agree fuel fuel' t w w1 w2 :
  run_macrotask fuel t w = Some w1 ->
  run_macrotask fuel' t w = Some w2 -> w1 = w2.
Proof.
  intros H1 H2.
  apply (run_macrotask_more _ fuel') in H1.
  apply (run_macrotask_more _ fuel) in H2.
  rewrite Nat.add_comm in H2. congruence.
Qed.

(** The world a finished run [Hrun] has left is the one [closed] gives. *)
Tactic Notation "finished_as" hyp(Hrun) uconstr(closed) :=
  rewrite (run_macrotask_agree _ _ _ _ _ _ Hrun closed).

Lemma upload_no_file_run e fuel w :
  run_macrotask fuel (upload e None) w =
  Some (emit (Responded 400 (JObj [("error", JStr "No file uploaded")])) w).
Proof. unfold run_macrotask. simpl. apply drain_nil. Qed.

Lemma upload_unsupported_run e file fuel w :
  fileType_of_extension
    (toLowerCase (extname (MulterFile.originalname file))) = None ->
  run_macrotask fuel (upload e (Some file)) w =
  Some (emit (Responded 400 unsupported_body) w).
Proof.
  intros Hty. unfold run_macrotask, upload. rewrite Hty. simpl.
  apply drain_nil.
Qed.

Lemma upload_accepted_run e file fileType fuel w :
  fileType_of_extension
    (toLowerCase (extname (MulterFile.originalname file))) = Some fileType ->
  run_macrotask (4 + fuel) (upload e (Some file)) w =
  Some (after_upload e file fileType w).
Proof.
  intros Hty. unfold run_macrotask, upload, after_upload. rewrite Hty. simpl.
  unfold storage_updateProcessedFile, updateProcessedFile. simpl.
  rewrite lookup_insert_eq. simpl.
  unfold spawn. destruct (spawn_throws e) as [error|]; simpl.
  - unfold storage_updateProcessedFile, updateProcessedFile. simpl.
    rewrite lookup_insert_eq. simpl.
    unfold emit. simpl. rewrite <- !app_assoc. simpl. apply drain_nil.
  - unfold emit. simpl. rewrite <- !app_assoc. simpl. reflexivity.
Qed.

(** The world the [close] listener leaves. *)
Lemma on_close_run fileId code fuel w :
  run_macrotask (1 + fuel) (on_close fileId code) w =
  Some
    (match code with
     | Some 0 =>
         emit (ConsoleLog ("File " +:+ pretty fileId
                           +:+ " processed successfully")) w
     | _ =>
         let w1 :=
           emit (ConsoleError ("File " +:+ pretty fileId
                               +:+ " processing failed with code "
                               +:+ show_code code)) w in
         match processedFiles (storage w) !! fileId with
         | Some existing =>
             {| storage :=
                  set_processedFiles
                    (<[fileId := ProcessedFile_assign existing updates_failed]>
                       (processedFiles (storage w))) (storage w);
                children := children w;
                log := log w1 ++ [UpdatedProcessedFile fileId updates_failed] |}
         | None =>
             emit (UnhandledRejection
                     (MkError ("ProcessedFile with id " +:+ pretty fileId
                               +:+ " not found"))) w1
         end
     end).
Proof.
  unfold run_macrotask, on_close.
  destruct code as [[| |]|]; simpl; try reflexivity;
    unfold storage_updateProcessedFile, updateProcessedFile; simpl;
    destruct (processedFiles (storage w) !! fileId); simpl;
    first [reflexivity | apply drain_nil].
Qed.

(** ** What holds after every turn of the event loop *)

Lemma file_trace_app id l1 l2 :
  file_trace id (l1 ++ l2) = file_trace id l1 ++ file_trace id l2.
Proof. apply flat_map_app. Qed.

Lemma consistent_boot : consistent boot.
Proof.
  split; simpl; intros id; try (intros [x Hx]; rewrite lookup_empty in Hx; discriminate).
  - reflexivity.
  - intros H. inversion H.
  - intros f Hf. rewrite lookup_empty in Hf. discriminate.
  - intros f Hf. rewrite lookup_empty in Hf. discriminate.
  - intros f Hf. rewrite lookup_empty in Hf. discriminate.
Qed.

Lemma pretty_Z_ne (a b : Z) : a <> b -> Some (pretty a) <> Some (pretty b).
Proof. intros Hne [= H]. apply Hne. exact (pretty_Z_inj _ _ H). Qed.

(** What an accepted upload adds to the log. *)
Lemma after_upload_log e file fileType w :
  exists new,
    log (after_upload e file fileType w) = log w ++ new /\
    (forall id, id <> currentId (storage w) -> file_trace id new = []) /\
    file_trace (currentId (storage w)) new =
      match spawn_throws e with
      | None => trace_started
      | Some _ => trace_spawn_failed
      end.
Proof.
  unfold after_upload. simpl.
  destruct (spawn_throws e) as [error|]; simpl; eexists;
    (split; [reflexivity|]); split.
  - intros id Hne. unfold file_trace. simpl.
    rewrite (proj2 (Z.eqb_neq _ id)) by congruence.
    rewrite bool_decide_eq_false_2 by congruence. reflexivity.
  - unfold file_trace. simpl. rewrite Z.eqb_refl.
    rewrite bool_decide_eq_true_2 by reflexivity. reflexivity.
  - intros id Hne. unfold file_trace. simpl.
    rewrite (proj2 (Z.eqb_neq _ id)) by congruence.
    rewrite bool_decide_eq_false_2 by congruence.
    rewrite bool_decide_eq_false_2 by (apply pretty_Z_ne; congruence).
    reflexivity.
  - unfold file_trace. simpl. rewrite Z.eqb_refl.
    rewrite !bool_decide_eq_true_2 by reflexivity. reflexivity.
Qed.

(** What an accepted upload does to the store and to the children. *)
Lemma after_upload_storage e file fileType w :
  let fileId := currentId (storage w) in
  let w' := after_upload e file fileType w in
  currentId (storage w') = fileId + 2 /\
  (exists row,
     processedFiles (storage w') = <[fileId := row]> (processedFiles (storage w)) /\
     ProcessedFile.id row = fileId /\
     ProcessedFile.fileType row = fileType /\
     ProcessedFile.originalName row = MulterFile.originalname file /\
     ProcessedFile.status row =
       match spawn_throws e with None => "processing" | Some _ => "failed" end) /\
  (exists a,
     agentActivities (storage w') =
       <[fileId + 1 := a]> (agentActivities (storage w)) /\
     AgentActivity.fileId a = Some fileId /\
     AgentActivity.agentName a = "Classifier Agent" /\
     AgentActivity.action a = "Start Processing" /\
     AgentActivity.status a = "pending" /\
     AgentActivity.errorMessage a = None) /\
  children w' =
    match spawn_throws e with
    | None => children w ++ [fileId]
    | Some _ => children w
    end /\
  users (storage w') = users (storage w) /\
  triggeredActions (storage w') = triggeredActions (storage w) /\
  systemMetrics (storage w') = systemMetrics (storage w).
Proof.
  unfold after_upload. simpl.
  destruct (spawn_throws e) as [error|]; simpl.
  - split; [lia|]. split.
    + eexists. rewrite !insert_insert_eq. repeat split.
    + split; [eexists; repeat split|]. repeat split.
  - split; [lia|]. split.
    + eexists. rewrite !insert_insert_eq. repeat split.
    + split; [eexists; repeat split|]. repeat split.
Qed.

Lemma consistent_after_upload e file fileType w :
  consistent w -> consistent (after_upload e file fileType w).
Proof.
  intros Hc.
  pose proof (after_upload_storage e file fileType w) as Hs. simpl in Hs.
  destruct Hs as (Hid & (row & Hfiles & Hrow_id & _ & _ & Hrow_status)
                  & (a & Hacts & Ha_file & Ha_name & Ha_action & Ha_status
                     & Ha_error) & Hchildren & _).
  destruct (after_upload_log e file fileType w) as (new & Hlog & Hother & Hown).
  set (fileId := currentId (storage w)) in *.
  assert (Hfresh : processedFiles (storage w) !! fileId = None).
  { destruct (processedFiles (storage w) !! fileId) eqn:E; [|reflexivity].
    pose proof (files_below_counter w Hc fileId (ex_intro _ _ E)). lia. }
  assert (Hnot_child : fileId ∉ children w).
  { intros Hin. destruct (children_running w Hc fileId Hin) as (f & Hf & _).
    congruence. }
  assert (Hchild_sub : forall id, id ∈ children (after_upload e file fileType w) ->
                                  id ∈ children w \/
                                  (id = fileId /\ spawn_throws e = None)).
  { intros id. rewrite Hchildren. destruct (spawn_throws e); [auto|].
    rewrite elem_of_app, list_elem_of_singleton. intros [?|?]; auto. }
  split.
  - intros id. rewrite Hfiles, Hid, lookup_insert. case_decide; [lia|].
    intros H'. pose proof (files_below_counter w Hc id H'). lia.
  - intros id. rewrite Hacts, Hid, lookup_insert. case_decide; [lia|].
    intros H'. pose proof (activities_below w Hc id H'). lia.
  - intros id. rewrite Hid, Hlog, file_trace_app. intros Hge.
    rewrite (no_trace_ahead w Hc id), Hother by lia. reflexivity.
  - intros id Hin. rewrite Hfiles, Hlog, file_trace_app.
    destruct (Hchild_sub id Hin) as [Hold | [-> Hspawn]].
    + destruct (children_running w Hc id Hold) as (f & Hf & Hst & Htr).
      assert (id <> fileId) by congruence.
      exists f. rewrite lookup_insert_ne, Hother, app_nil_r by congruence. auto.
    + exists row. rewrite lookup_insert_eq, Hown, Hspawn in *.
      rewrite (no_trace_ahead w Hc fileId) by lia. auto.
  - intros id f. rewrite Hfiles, Hlog, file_trace_app, lookup_insert.
    case_decide as Hcase.
    + subst id. intros [= <-].
      rewrite (no_trace_ahead w Hc fileId), Hown by lia. simpl.
      rewrite Hrow_status.
      destruct (spawn_throws e) eqn:Hspawn; [|auto].
      right; right. repeat split. rewrite Hchildren. exact Hnot_child.
    + intros Hf. rewrite Hother, app_nil_r by congruence.
      destruct (files_lifecycle w Hc id f Hf) as [?|[(?&?&Hout)|(?&?&Hout)]];
        [auto| |].
      * right; left. repeat split; try assumption.
        intros Hin. destruct (Hchild_sub id Hin) as [?|[? _]]; congruence.
      * right; right. repeat split; try assumption.
        intros Hin. destruct (Hchild_sub id Hin) as [?|[? _]]; congruence.
  - intros id f. rewrite Hfiles, Hacts, lookup_insert. case_decide as Hcase.
    + subst id. intros _. exists a. rewrite lookup_insert_eq. auto.
    + intros Hf. destruct (files_logged w Hc id f Hf) as (a' & Ha' & Hfid).
      exists a'. rewrite lookup_insert_ne by lia. auto.
  - intros id a'. rewrite Hacts, lookup_insert. case_decide.
    + intros [= <-]. auto.
    + apply (activities_start w Hc).
Qed.

(** An event that is about no file, or fewer children, leave the process
    consistent. *)
Lemma consistent_emit ev w :
  (forall id, about id ev = []) -> consistent w -> consistent (emit ev w).
Proof.
  intros Hquiet Hc.
  assert (Htrace : forall id, file_trace id (log (emit ev w)) = file_trace id (log w)).
  { intros id. unfold emit. simpl. rewrite file_trace_app. unfold file_trace at 2.
    simpl. rewrite Hquiet. rewrite !app_nil_r. reflexivity. }
  destruct Hc as [H1 H2 H3 H4 H5 H6 H7].
  split; intros id.
  - exact (H1 id).
  - exact (H2 id).
  - rewrite Htrace. exact (H3 id).
  - rewrite Htrace. exact (H4 id).
  - intros f. rewrite Htrace. exact (H5 id f).
  - exact (H6 id).
  - exact (H7 id).
Qed.

Lemma consistent_before i w : consistent w -> consistent (before i w).
Proof.
  intros Hc. destruct i; try assumption.
  assert (Hsub : forall id, id ∈ children (before (ChildClose fileId code) w) ->
                            id ∈ children w).
  { intros id. simpl. rewrite !list_elem_of_In, filter_In. tauto. }
  destruct Hc as [H1 H2 H3 H4 H5 H6 H7].
  split; try assumption.
  - intros id Hin. apply H4, Hsub, Hin.
  - intros id f Hf.
    destruct (H5 id f Hf) as [?|[(?&?&Hout)|(?&?&Hout)]]; [auto| |].
    + right; left. repeat split; try assumption. intros Hin. apply Hout, Hsub, Hin.
    + right; right. repeat split; try assumption. intros Hin. apply Hout, Hsub, Hin.
Qed.

Lemma on_stdout_data_run data fuel w :
  run_macrotask fuel (on_stdout_data data) w =
  Some (emit (ConsoleLog ("AI System Output: " +:+ data)) w).
Proof. unfold run_macrotask. simpl. apply drain_nil. Qed.

Lemma on_stderr_data_run data fuel w :
  run_macrotask fuel (on_stderr_data data) w =
  Some (emit (ConsoleError ("AI System Error: " +:+ data)) w).
Proof. unfold run_macrotask. simpl. apply drain_nil. Qed.

(** Marking [failed] the row of a process that was started and has gone. *)
Lemma consistent_mark_failed w fileId existing text :
  consistent w ->
  fileId ∉ children w ->
  processedFiles (storage w) !! fileId = Some existing ->
  file_trace fileId (log w) = trace_started ->
  consistent
    {| storage :=
         set_processedFiles
           (<[fileId := ProcessedFile_assign existing updates_failed]>
              (processedFiles (storage w))) (storage w);
       children := children w;
       log := (log w ++ [ConsoleError text])
              ++ [UpdatedProcessedFile fileId updates_failed] |}.
Proof.
  intros [H1 H2 H3 H4 H5 H6 H7] Hout Hget Htrace.
  assert (Hlog : forall id,
            file_trace id ((log w ++ [ConsoleError text])
                           ++ [UpdatedProcessedFile fileId updates_failed]) =
            file_trace id (log w) ++
            (if decide (fileId = id) then [Wrote "failed"] else [])).
  { intros id. rewrite !file_trace_app. unfold file_trace at 2 3. simpl.
    rewrite app_nil_r. f_equal.
    case_decide as Hid.
    - subst id. rewrite Z.eqb_refl. reflexivity.
    - rewrite (proj2 (Z.eqb_neq _ _) Hid). reflexivity. }
  split; simpl; intros id; rewrite ?Hlog.
  - rewrite lookup_insert. case_decide as Hid; [|apply H1].
    subst id. intros _. apply H1. eauto.
  - apply H2.
  - intros Hge. case_decide as Hid.
    + subst id. pose proof (H1 fileId (ex_intro _ _ Hget)). lia.
    + rewrite app_nil_r. apply H3, Hge.
  - intros Hin. assert (fileId <> id) by congruence.
    rewrite lookup_insert_ne by assumption.
    rewrite decide_False, app_nil_r by assumption. apply H4, Hin.
  - intros f. rewrite lookup_insert. case_decide as Hid.
    + subst id. intros [= <-]. right; left. rewrite Htrace. auto.
    + rewrite app_nil_r. apply H5.
  - intros f. rewrite lookup_insert. case_decide as Hid.
    + subst id. intros _. apply (H6 fileId existing Hget).
    + apply H6.
  - apply H7.
Qed.

Lemma consistent_step w w' : consistent w -> step w w' -> consistent w'.
Proof.
  intros Hc [e i fuel w'' Hen Hrun].
  destruct i as [[file|]|fileId data|fileId data|fileId code].
  - destruct (fileType_of_extension
                (toLowerCase (extname (MulterFile.originalname file))))
      as [fileType|] eqn:Hty.
    + finished_as Hrun (upload_accepted_run e file fileType 0 _ Hty).
      apply consistent_after_upload, Hc.
    + finished_as Hrun (upload_unsupported_run e file 0 _ Hty).
      apply consistent_emit; [reflexivity | exact Hc].
  - finished_as Hrun (upload_no_file_run e 0 _).
    apply consistent_emit; [reflexivity | exact Hc].
  - finished_as Hrun (on_stdout_data_run data 0 _).
    apply consistent_emit; [reflexivity | exact Hc].
  - finished_as Hrun (on_stderr_data_run data 0 _).
    apply consistent_emit; [reflexivity | exact Hc].
  - simpl in Hen.
    destruct (children_running w Hc fileId Hen) as (f & Hf & Hst & Htr).
    pose proof (consistent_before (ChildClose fileId code) w Hc) as Hc0.
    assert (Hout : fileId ∉ children (before (ChildClose fileId code) w)).
    { simpl. rewrite list_elem_of_In, filter_In. intros [_ Hneq].
      rewrite Z.eqb_refl in Hneq. discriminate. }
    finished_as Hrun (on_close_run fileId code 0 _).
    assert (Hfail : forall text,
              consistent
                (let w1 := emit (ConsoleError text)
                                (before (ChildClose fileId code) w) in
                 match processedFiles
                         (storage (before (ChildClose fileId code) w)) !! fileId
                 with
                 | Some existing =>
                     {| storage :=
                          set_processedFiles
                            (<[fileId := ProcessedFile_assign existing
                                                              updates_failed]>
                               (processedFiles
                                  (storage (before (ChildClose fileId code) w))))
                            (storage (before (ChildClose fileId code) w));
                        children := children (before (ChildClose fileId code) w);
                        log := log w1
                               ++ [UpdatedProcessedFile fileId updates_failed] |}
                 | None =>
                     emit (UnhandledRejection
                             (MkError ("ProcessedFile with id "
                                       +:+ pretty fileId +:+ " not found"))) w1
                 end)).
    { intros text. simpl. rewrite Hf.
      apply (consistent_mark_failed _ fileId f text Hc0 Hout Hf Htr). }
    destruct code as [[| |]|]; try apply Hfail.
    apply consistent_emit; [reflexivity | exact Hc0].
Qed.

Lemma reachable_consistent w : reachable w -> consistent w.
Proof.
  induction 1 as [|w w' _ IH Hstep].
  - apply consistent_boot.
  - eapply consistent_step; eassumption.
Qed.

(** ** Every listener finishes *)

Lemma listener_finishes e i w :
  exists w', run_macrotask 4 (listener e i) w = Some w'.
Proof.
  destruct i as [[file|]|fileId data|fileId data|fileId code]; simpl.
  - destruct (fileType_of_extension
                (toLowerCase (extname (MulterFile.originalname file))))
      as [fileType|] eqn:Hty.
    + eexists. apply (upload_accepted_run e file fileType 0 w Hty).
    + eexists. apply (upload_unsupported_run e file 4 w Hty).
  - eexists. apply upload_no_file_run.
  - eexists. apply on_stdout_data_run.
  - eexists. apply on_stderr_data_run.
  - eexists. apply (on_close_run fileId code 3 w).
Qed.

Lemma turn_run e i w :
  run_macrotask 4 (listener e i) (before i w) = Some (turn e i w).
Proof.
  unfold turn. destruct (listener_finishes e i (before i w)) as [w' ->].
  reflexivity.
Qed.

Lemma turn_step e i w : enabled i w -> step w (turn e i w).
Proof. intros Hen. exact (step_input w e i 4 _ Hen (turn_run e i w)). Qed.

Lemma example_uploaded_reachable : reachable example_uploaded.
Proof.
  apply (reachable_step boot); [apply reachable_boot|].
  apply turn_step. exact I.
Qed.

Lemma example_exited_reachable : reachable example_exited.
Proof.
  apply (reachable_step example_uploaded); [apply example_uploaded_reachable|].
  apply turn_step. vm_compute. left.
Qed.

(** ** [path.extname] on a name without a slash *)

Lemma has_char_get c s i x :
  has_char c s = false -> String.get i s = Some x -> x <> c.
Proof.
  revert i. induction s as [|y rest IH]; intros i Hno Hget.
  - destruct i; discriminate.
  - simpl in Hno. apply orb_false_iff in Hno as [Hy Hrest].
    destruct i as [|i]; simpl in Hget.
    + injection Hget as <-. now apply Ascii.eqb_neq.
    + eauto.
Qed.

Lemma get_is_Some s i : (i < String.length s)%nat -> exists x, String.get i s = Some x.
Proof.
  revert i. induction s as [|y rest IH]; intros i Hi; simpl in Hi; [lia|].
  destruct i as [|i]; simpl; [eauto|]. apply IH. lia.
Qed.

Lemma extname_step_init i x :
  x <> CHAR_DOT -> x <> CHAR_FORWARD_SLASH ->
  extname_step i x extname_init
  = inr {| startDot := -1; startPart := 0; end_ := i + 1;
           matchedSlash := false; preDotState := 0 |}.
Proof.
  intros Hd Hs. unfold extname_step.
  apply Ascii.eqb_neq in Hd, Hs. rewrite Hd, Hs. reflexivity.
Qed.

Lemma extname_step_seen i x e :
  x <> CHAR_DOT -> x <> CHAR_FORWARD_SLASH -> e <> -1 ->
  extname_step i x {| startDot := -1; startPart := 0; end_ := e;
                      matchedSlash := false; preDotState := 0 |}
  = inr {| startDot := -1; startPart := 0; end_ := e;
           matchedSlash := false; preDotState := 0 |}.
Proof.
  intros Hd Hs He. unfold extname_step.
  apply Ascii.eqb_neq in Hd, Hs. rewrite Hd, Hs.
  cbn [end_ startDot startPart matchedSlash preDotState negb].
  apply Z.eqb_neq in He. rewrite He. reflexivity.
Qed.

Lemma extname_step_dot_init i :
  extname_step i CHAR_DOT extname_init
  = inr {| startDot := i; startPart := 0; end_ := i + 1;
           matchedSlash := false; preDotState := 0 |}.
Proof. reflexivity. Qed.

Lemma extname_step_dot_seen i e :
  e <> -1 ->
  extname_step i CHAR_DOT {| startDot := -1; startPart := 0; end_ := e;
                             matchedSlash := false; preDotState := 0 |}
  = inr {| startDot := i; startPart := 0; end_ := e;
           matchedSlash := false; preDotState := 0 |}.
Proof.
  intros He. unfold extname_step.
  change (Ascii.eqb CHAR_DOT CHAR_FORWARD_SLASH) with false.
  change (Ascii.eqb CHAR_DOT CHAR_DOT) with true.
  cbn [end_ startDot startPart matchedSlash preDotState negb].
  apply Z.eqb_neq in He. rewrite He. reflexivity.
Qed.

Lemma extname_step_dotted i x d e p :
  x <> CHAR_FORWARD_SLASH -> d <> -1 -> e <> -1 ->
  extname_step i x {| startDot := d; startPart := 0; end_ := e;
                      matchedSlash := false; preDotState := p |}
  = inr {| startDot := d; startPart := 0; end_ := e;
           matchedSlash := false;
           preDotState := if Ascii.eqb x CHAR_DOT then 1 else -1 |}.
Proof.
  intros Hs Hd He. unfold extname_step.
  apply Ascii.eqb_neq in Hs. rewrite Hs.
  cbn [end_ startDot startPart matchedSlash preDotState negb].
  apply Z.eqb_neq in He, Hd. rewrite He.
  cbn [end_ startDot startPart matchedSlash preDotState negb].
  rewrite Hd. cbn [negb].
  destruct (Ascii.eqb x CHAR_DOT); [|reflexivity].
  destruct (p =? 1) eqn:Hp; cbn [negb]; [|reflexivity].
  apply Z.eqb_eq in Hp. now subst p.
Qed.

(** The indices from [lo] up to [n - 1] hold neither a dot nor a slash:
    the loop walks down to [lo] and has only set [end]. *)
Lemma extname_loop_plain s lo n e :
  (lo <= n <= String.length s)%nat ->
  (forall i x, (lo <= i < n)%nat -> String.get i s = Some x ->
               x <> CHAR_DOT /\ x <> CHAR_FORWARD_SLASH) ->
  e <> -1 ->
  extname_loop s n {| startDot := -1; startPart := 0; end_ := e;
                      matchedSlash := false; preDotState := 0 |}
  = extname_loop s lo {| startDot := -1; startPart := 0; end_ := e;
                         matchedSlash := false; preDotState := 0 |}.
Proof.
  intros Hn Hplain He. induction n as [|n IH].
  - now replace lo with 0%nat by lia.
  - destruct (decide (lo = S n)) as [->|Hlo]; [reflexivity|].
    simpl. destruct (get_is_Some s n) as [x Hx]; [lia|]. rewrite Hx.
    destruct (Hplain n x) as [Hd Hs]; [lia|exact Hx|].
    rewrite extname_step_seen by assumption.
    apply IH; [lia|]. intros i y Hi. apply Hplain. lia.
Qed.

Lemma extname_loop_plain_init s lo :
  (lo <= String.length s)%nat ->
  (forall i x, (lo <= i < String.length s)%nat -> String.get i s = Some x ->
               x <> CHAR_DOT /\ x <> CHAR_FORWARD_SLASH) ->
  extname_loop s (String.length s) extname_init
  = extname_loop s lo
      (if decide (lo = String.length s) then extname_init
       else {| startDot := -1; startPart := 0;
               end_ := Z.of_nat (String.length s);
               matchedSlash := false; preDotState := 0 |}).
Proof.
  intros Hlo Hplain. destruct (decide (lo = String.length s)) as [->|Hne].
  - reflexivity.
  - destruct (String.length s) as [|n] eqn:Hlen; [lia|].
    simpl. destruct (get_is_Some s n) as [x Hx]; [lia|]. rewrite Hx.
    destruct (Hplain n x) as [Hd Hs]; [lia|exact Hx|].
    rewrite extname_step_init by assumption.
    replace (Z.of_nat n + 1) with (Z.of_nat (S n)) by lia.
    rewrite <- Hlen in *.
    apply extname_loop_plain; [lia| |lia].
    intros i y Hi. apply Hplain. lia.
Qed.

(** Below a dot already met, without a slash: only [preDotState] moves,
    and it ends as the first character of the name decides. *)
Lemma extname_loop_dotted s n d e p :
  (n <= String.length s)%nat ->
  (forall i x, (i < n)%nat -> String.get i s = Some x ->
               x <> CHAR_FORWARD_SLASH) ->
  d <> -1 -> e <> -1 ->
  extname_loop s n {| startDot := d; startPart := 0; end_ := e;
                      matchedSlash := false; preDotState := p |}
  = {| startDot := d; startPart := 0; end_ := e; matchedSlash := false;
       preDotState :=
         match n with
         | O => p
         | S _ => match String.get 0 s with
                  | Some x => if Ascii.eqb x CHAR_DOT then 1 else -1
                  | None => p
                  end
         end |}.
Proof.
  intros Hn Hplain Hd He. revert p. induction n as [|n IH]; intros p.
  - reflexivity.
  - simpl. destruct (get_is_Some s n) as [x Hx]; [lia|]. rewrite Hx.
    rewrite extname_step_dotted; [|eapply Hplain; [|exact Hx]; lia|assumption..].
    rewrite IH; [|lia|intros i y Hi; apply Hplain; lia].
    destruct n as [|n]; [now rewrite Hx|].
    destruct (get_is_Some s 0) as [y Hy]; [lia|]. now rewrite Hy.
Qed.

Lemma substring_append pre rest :
  substring (String.length pre) (String.length rest) (pre +:+ rest) = rest.
Proof.
  induction pre as [|x pre IH]; simpl; [|exact IH].
  induction rest as [|y rest IH]; simpl; [reflexivity|].
  f_equal. exact IH.
Qed.

Lemma length_append pre rest :
  String.length (pre +:+ rest) = (String.length pre + String.length rest)%nat.
Proof. induction pre as [|x pre IH]; simpl; [reflexivity|now rewrite IH]. Qed.

Lemma has_char_append c pre rest :
  has_char c (pre +:+ rest) = has_char c pre || has_char c rest.
Proof.
  induction pre as [|x pre IH]; simpl; [reflexivity|].
  rewrite IH. apply orb_assoc.
Qed.

(** No dot and no slash: no extension. *)
Lemma extname_without_dot s :
  has_char CHAR_DOT s = false -> has_char CHAR_FORWARD_SLASH s = false ->
  extname s = "".
Proof.
  intros Hdot Hslash. unfold extname.
  rewrite (extname_loop_plain_init s 0); [|lia|].
  - simpl. now destruct (decide (0%nat = String.length s)).
  - intros i x _ Hx. split; eapply has_char_get; eauto.
Qed.

(** The name ends with a dot and a piece without dots: the extension is
    that dot and piece, except when the dot opens the name and for [".."]. *)
Lemma extname_last_dot pre piece :
  has_char CHAR_FORWARD_SLASH (pre +:+ String CHAR_DOT piece) = false ->
  has_char CHAR_DOT piece = false ->
  extname (pre +:+ String CHAR_DOT piece)
  = if String.eqb pre "" || (String.eqb pre "." && String.eqb piece "")
    then "" else String CHAR_DOT piece.
Proof.
  intros Hslash Hdot.
  set (s := pre +:+ String CHAR_DOT piece) in *.
  set (d := String.length pre).
  assert (Hlen : String.length s = S (d + String.length piece)).
  { unfold s. rewrite length_append. simpl. unfold d. lia. }
  assert (Hd : String.get d s = Some CHAR_DOT).
  { exact (eq_sym (append_correct2 pre (String CHAR_DOT piece) 0)). }
  assert (Hafter : forall i x, (S d <= i < String.length s)%nat ->
            String.get i s = Some x -> x <> CHAR_DOT /\ x <> CHAR_FORWARD_SLASH).
  { intros i x Hi Hx. split; [|eapply has_char_get; eauto].
    apply (has_char_get _ piece (i - S d)); [exact Hdot|].
    rewrite <- Hx. replace i with (S (i - S d) + d)%nat at 2 by lia.
    exact (append_correct2 pre (String CHAR_DOT piece) (S (i - S d))). }
  assert (Hloop : extname_loop s (String.length s) extname_init
    = {| startDot := Z.of_nat d; startPart := 0;
         end_ := Z.of_nat (String.length s); matchedSlash := false;
         preDotState :=
           match d with
           | O => 0
           | S _ => match String.get 0 s with
                    | Some x => if Ascii.eqb x CHAR_DOT then 1 else -1
                    | None => 0
                    end
           end |}).
  { rewrite (extname_loop_plain_init s (S d)) by (assumption || lia).
    cbn [extname_loop]. rewrite Hd.
    destruct (decide (S d = String.length s)) as [Hend|Hend].
    - rewrite extname_step_dot_init.
      replace (Z.of_nat d + 1) with (Z.of_nat (String.length s)) by lia.
      apply extname_loop_dotted; [lia| |lia..].
      intros i x _ Hx. eapply has_char_get; eauto.
    - rewrite extname_step_dot_seen by lia.
      apply extname_loop_dotted; [lia| |lia..].
      intros i x _ Hx. eapply has_char_get; eauto. }
  unfold extname. rewrite Hloop.
  cbn [end_ startDot startPart matchedSlash preDotState].
  replace (Z.of_nat d =? -1) with false by (symmetry; apply Z.eqb_neq; lia).
  replace (Z.of_nat (String.length s) =? -1) with false
    by (symmetry; apply Z.eqb_neq; lia).
  cbn [orb].
  replace (Z.to_nat (Z.of_nat d)) with d by lia.
  replace (Z.to_nat (Z.of_nat (String.length s) - Z.of_nat d))
    with (String.length (String CHAR_DOT piece)) by (rewrite Hlen; simpl; lia).
  replace (substring d (String.length (String CHAR_DOT piece)) s)
    with (String CHAR_DOT piece) by (symmetry; apply substring_append).
  destruct pre as [|x pre].
  - reflexivity.
  - cbn [String.eqb orb]. simpl in d. subst d.
    assert (H0 : String.get 0 s = Some x) by reflexivity. rewrite H0.
    destruct (Ascii.eqb x CHAR_DOT) eqn:Hx.
    + apply Ascii.eqb_eq in Hx. subst x.
      change (1 =? 0) with false. change (1 =? 1) with true. cbn [orb andb].
      destruct pre as [|y pre], piece as [|z piece].
      * reflexivity.
      * replace (_ =? _ - 1) with false; [reflexivity|].
        symmetry. apply Z.eqb_neq. fold s. rewrite Hlen. simpl. lia.
      * replace (_ =? 0 + 1) with false;
          [now rewrite andb_false_r|].
        symmetry. apply Z.eqb_neq. simpl. lia.
      * replace (_ =? 0 + 1) with false;
          [now rewrite andb_false_r|].
        symmetry. apply Z.eqb_neq. simpl. lia.
    + change (-1 =? 0) with false. change (-1 =? 1) with false.
      cbn [orb andb].
      change CHAR_DOT with "."%char in Hx. now rewrite Hx.
Qed.

(** A name with a dot ends with a dot and a piece without dots. *)
Lemma last_dot s :
  has_char CHAR_DOT s = true ->
  exists pre piece,
    s = pre +:+ String CHAR_DOT piece /\ has_char CHAR_DOT piece = false.
Proof.
  induction s as [|x rest IH]; cbn [has_char]; [discriminate|]. intros Hdot.
  destruct (has_char CHAR_DOT rest) eqn:Hrest.
  - destruct (IH eq_refl) as (pre & piece & -> & Hno).
    now exists (String x pre), piece.
  - rewrite orb_false_r in Hdot. apply Ascii.eqb_eq in Hdot. subst x.
    now exists "", rest.
Qed.

(** ** The upload handler: which files it accepts *)

Lemma fileType_of_extension_cases ext :
  (ext = ".pdf" /\ fileType_of_extension ext = Some "PDF") \/
  ((ext = ".eml" \/ ext = ".msg") /\ fileType_of_extension ext = Some "Email") \/
  (ext = ".json" /\ fileType_of_extension ext = Some "JSON") \/
  (~ In ext accepted_extensions /\ fileType_of_extension ext = None).
Proof.
  unfold fileType_of_extension, includes, accepted_extensions. simpl.
  destruct (String.eqb_spec ext ".pdf") as [->|H1]; [left; auto|].
  destruct (String.eqb_spec ext ".eml") as [->|H2]; [right; left; auto|].
  destruct (String.eqb_spec ext ".msg") as [->|H3]; [right; left; auto|].
  destruct (String.eqb_spec ext ".json") as [->|H4]; [right; right; left; auto|].
  right; right; right. split; [|reflexivity].
  intros [?|[?|[?|[?|[]]]]]; congruence.
Qed.

Lemma fileType_of_extension_accepted ext :
  In ext accepted_extensions <-> is_Some (fileType_of_extension ext).
Proof.
  destruct (fileType_of_extension_cases ext)
    as [[E1 E2]|[[E1 E2]|[[E1 E2]|[E1 E2]]]];
    rewrite E2; unfold accepted_extensions in *; simpl in *;
    (split; [intros H | intros [x Hx]]); eauto; try tauto; try discriminate.
  destruct E1 as [E1|E1]; rewrite E1; tauto.
Qed.

(** The answer of the handler in terms of the extension it computes. *)
Lemma upload_by_handler_extension :
  forall e file w,
    let fileExtension := toLowerCase (extname (MulterFile.originalname file)) in
    exists w' new,
      run_macrotask 4 (upload e (Some file)) w = Some w' /\
      log w' = log w ++ new /\
      (In (Responded 400 unsupported_body) new <->
       ~ In fileExtension accepted_extensions) /\
      (~ In fileExtension accepted_extensions -> storage w' = storage w) /\
      (In fileExtension accepted_extensions ->
       In (Responded 200 (accepted_body (currentId (storage w)))) new /\
       exists r,
         processedFiles (storage w') !! currentId (storage w) = Some r /\
         ProcessedFile.originalName r = MulterFile.originalname file /\
         (fileExtension = ".pdf" -> ProcessedFile.fileType r = "PDF") /\
         (fileExtension = ".eml" \/ fileExtension = ".msg" ->
          ProcessedFile.fileType r = "Email") /\
         (fileExtension = ".json" -> ProcessedFile.fileType r = "JSON")).
Proof.
  intros e file w fileExtension.
  destruct (fileType_of_extension fileExtension) as [fileType|] eqn:Hty.
  - assert (Hin : In fileExtension accepted_extensions).
    { apply fileType_of_extension_accepted. rewrite Hty. eauto. }
    pose proof (after_upload_storage e file fileType w) as Hs. simpl in Hs.
    destruct Hs as (_ & (row & Hfiles & _ & Hrow_type & Hrow_name & _) & _).
    exists (after_upload e file fileType w).
    assert (Hlog : exists new,
               log (after_upload e file fileType w) = log w ++ new /\
               In (Responded 200 (accepted_body (currentId (storage w)))) new /\
               ~ In (Responded 400 unsupported_body) new).
    { unfold after_upload. simpl.
      destruct (spawn_throws e); simpl; eexists;
        (split; [reflexivity|]); (split; [simpl; auto 6|]);
        simpl; intros H; repeat destruct H as [H|H]; try discriminate H;
        exact H. }
    destruct Hlog as (new & Hlog & Hok & Hno).
    exists new. split; [apply (upload_accepted_run e file fileType 0 w Hty)|].
    split; [exact Hlog|].
    split; [split; [intros H; destruct (Hno H) | intros H; destruct (H Hin)]|].
    split; [intros H; destruct (H Hin)|].
    intros _. split; [exact Hok|].
    exists row. rewrite Hfiles, lookup_insert_eq. split; [reflexivity|].
    split; [exact Hrow_name|]. rewrite Hrow_type.
    destruct (fileType_of_extension_cases fileExtension)
      as [[E1 E2]|[[E1 E2]|[[E1 E2]|[_ E2]]]];
      rewrite Hty in E2; injection E2 as <- || discriminate E2;
      repeat split; intros; try reflexivity;
      repeat match goal with H : _ \/ _ |- _ => destruct H end;
      congruence.
  - assert (Hout : ~ In fileExtension accepted_extensions).
    { rewrite fileType_of_extension_accepted, Hty. intros [x Hx]. discriminate. }
    exists (emit (Responded 400 unsupported_body) w), [Responded 400 unsupported_body].
    split; [apply (upload_unsupported_run e file 4 w Hty)|].
    split; [reflexivity|].
    split; [split; [intros _; exact Hout | intros _; left; reflexivity]|].
    split; [reflexivity | intros H; destruct (Hout H)].
Qed.

(** ** The extension read off the name *)

Lemma cut_at_last_dot_without_dot s :
  has_char CHAR_DOT s = false -> cut_at_last_dot s = None.
Proof.
  induction s as [|x rest IH]; cbn [has_char cut_at_last_dot]; [reflexivity|].
  intros Hno. apply orb_false_iff in Hno as [Hx Hrest].
  now rewrite (IH Hrest), Hx.
Qed.

Lemma cut_at_last_dot_last_dot pre piece :
  has_char CHAR_DOT piece = false ->
  cut_at_last_dot (pre +:+ String CHAR_DOT piece) = Some (pre, piece).
Proof.
  intros Hno. induction pre as [|x pre IH].
  - change ("" +:+ String CHAR_DOT piece) with (String CHAR_DOT piece).
    cbn [cut_at_last_dot]. rewrite (cut_at_last_dot_without_dot piece Hno).
    reflexivity.
  - change (String x pre +:+ String CHAR_DOT piece)
      with (String x (pre +:+ String CHAR_DOT piece)).
    cbn [cut_at_last_dot]. now rewrite IH.
Qed.

Example extension_of_name_samples :
  extension_of_name "notes.pdf" = ".pdf" /\
  extension_of_name "Report.Final.JSON" = ".JSON" /\
  extension_of_name "notes" = "" /\
  extension_of_name ".pdf" = "" /\
  extension_of_name "notes." = ".".
Proof. repeat split. Qed.

(** On a name without a slash [path.extname] gives the extension read off
    the name, except on [".."], where it gives none. *)
Lemma extname_by_name name :
  has_char CHAR_FORWARD_SLASH name = false ->
  extname name = extension_of_name name \/
  (extname name = "" /\ extension_of_name name = ".").
Proof.
  intros Hslash. unfold extension_of_name.
  destruct (has_char CHAR_DOT name) eqn:Hdot.
  - destruct (last_dot name Hdot) as (pre & piece & -> & Hno).
    rewrite (extname_last_dot pre piece Hslash Hno).
    rewrite (cut_at_last_dot_last_dot pre piece Hno).
    destruct pre as [|x pre]; [left; reflexivity|].
    change (String.eqb (String x pre) "") with false. cbn [orb].
    destruct (String.eqb (String x pre) "." && String.eqb piece "") eqn:Hdots;
      [|left; reflexivity].
    apply andb_true_iff in Hdots as [_ Hpiece].
    apply String.eqb_eq in Hpiece. subst piece. right. split; reflexivity.
  - rewrite (extname_without_dot name Hdot Hslash).
    rewrite (cut_at_last_dot_without_dot name Hdot). left. reflexivity.
Qed.

(** C6. For an upload that carries a file whose name holds no slash (the
    name multer hands over is a base name), with the extension read off
    the name (from its last dot on, unless that dot opens the name) and
    lower-cased: the handler answers with the "Unsupported file type"
    error exactly when the extension is none of [.pdf], [.eml], [.msg],
    [.json], and then the store is left as it was; for each of the four
    extensions it answers 200 and the table holds, under the id taken from
    the counter, a row with the name of the file and the format of the
    extension: PDF for [.pdf], Email for [.eml] and [.msg], JSON for
    [.json]. *)
Theorem upload_unsupported_iff_extension :
  forall e file w,
    has_char CHAR_FORWARD_SLASH (MulterFile.originalname file) = false ->
    let extension :=
      toLowerCase (extension_of_name (MulterFile.originalname file)) in
    exists w' new,
      run_macrotask 4 (upload e (Some file)) w = Some w' /\
      log w' = log w ++ new /\
      (In (Responded 400 unsupported_body) new <->
       ~ In extension accepted_extensions) /\
      (~ In extension accepted_extensions -> storage w' = storage w) /\
      (In extension accepted_extensions ->
       In (Responded 200 (accepted_body (currentId (storage w)))) new /\
       exists r,
         processedFiles (storage w') !! currentId (storage w) = Some r /\
         ProcessedFile.originalName r = MulterFile.originalname file /\
         (extension = ".pdf" -> ProcessedFile.fileType r = "PDF") /\
         (extension = ".eml" \/ extension = ".msg" ->
          ProcessedFile.fileType r = "Email") /\
         (extension = ".json" -> ProcessedFile.fileType r = "JSON")).
Proof.
  intros e file w Hslash extension. subst extension.
  pose proof (upload_by_handler_extension e file w) as Hupload.
  cbv zeta in Hupload.
  destruct (extname_by_name _ Hslash) as [Hsame|[Hnone Hdot]].
  - rewrite Hsame in Hupload. exact Hupload.
  - rewrite Hnone in Hupload. rewrite Hdot.
    destruct Hupload as (w' & new & Hrun & Hlog & Hiff & Hkeep & _).
    assert (Hout : ~ In (toLowerCase "") accepted_extensions).
    { simpl. intros [H|[H|[H|[H|[]]]]]; discriminate H. }
    assert (Hout' : ~ In (toLowerCase ".") accepted_extensions).
    { simpl. intros [H|[H|[H|[H|[]]]]]; discriminate H. }
    exists w', new. split; [exact Hrun|]. split; [exact Hlog|].
    split; [split; [intros _; exact Hout'|intros _; apply Hiff, Hout]|].
    split; [intros _; apply Hkeep, Hout|].
    intros Hin. destruct (Hout' Hin).
Qed.

(** C2, as the spec words it, fails: [notes.pdf] holds the bytes
    [hello world], which do not start with the PDF signature, and the
    handler stores it with the format PDF. *)
Lemma pdf_format_without_signature :
  spec_pdf_signature (MulterFile.content example_file) = false /\
  exists r,
    processedFiles (storage example_uploaded) !! 1 = Some r /\
    ProcessedFile.originalName r = "notes.pdf" /\
    ProcessedFile.fileType r = "PDF".
Proof.
  split; [reflexivity|]. eexists. split; [vm_compute; reflexivity|].
  split; reflexivity.
Qed.

Lemma upload_ignores_content e file content fuel w :
  run_macrotask fuel (upload e (Some (with_content content file))) w =
  run_macrotask fuel (upload e (Some file)) w.
Proof. reflexivity. Qed.

Lemma fileType_of_extension_formats ext :
  (fileType_of_extension ext = Some "PDF" <-> ext = ".pdf") /\
  (fileType_of_extension ext = Some "Email" <->
   ext = ".eml" \/ ext = ".msg") /\
  (fileType_of_extension ext = Some "JSON" <-> ext = ".json").
Proof.
  destruct (fileType_of_extension_cases ext)
    as [[E1 E2]|[[E1 E2]|[[E1 E2]|[E1 E2]]]]; rewrite E2.
  - subst ext. repeat split; try discriminate; try reflexivity.
    intros [?|?]; discriminate.
  - repeat split; try discriminate; try assumption;
      intros H; try reflexivity; try exact E1;
      destruct E1 as [E1|E1]; rewrite E1 in H; discriminate.
  - subst ext. repeat split; try discriminate; try reflexivity.
    intros [?|?]; discriminate.
  - unfold accepted_extensions in E1. simpl in E1.
    repeat split; try discriminate; intros H; exfalso; apply E1;
      repeat match goal with H : _ \/ _ |- _ => destruct H end;
      subst ext; auto 6.
Qed.

Lemma upload_stores_format e file w fileType :
  fileType_of_extension
    (toLowerCase (extname (MulterFile.originalname file))) = Some fileType ->
  exists w' r,
    run_macrotask 4 (upload e (Some file)) w = Some w' /\
    processedFiles (storage w') !! currentId (storage w) = Some r /\
    ProcessedFile.fileType r = fileType.
Proof.
  intros Hty.
  pose proof (after_upload_storage e file fileType w) as Hs. simpl in Hs.
  destruct Hs as (_ & (row & Hfiles & _ & Hrow_type & _) & _).
  exists (after_upload e file fileType w), row.
  split; [apply (upload_accepted_run e file fileType 0 w Hty)|].
  rewrite Hfiles, lookup_insert_eq. auto.
Qed.

(** C2, amended. The format of an upload is decided by the lower-cased
    extension of its original name and by nothing else: the handler does
    the same whatever the content of the file is; the format is PDF exactly
    for [.pdf], Email exactly for [.eml] and [.msg], JSON exactly for
    [.json]; and a file whose extension has a format is stored with it. *)
Theorem format_decided_by_extension :
  forall e file w,
    let fileExtension := toLowerCase (extname (MulterFile.originalname file)) in
    (forall content fuel,
       run_macrotask fuel (upload e (Some (with_content content file))) w =
       run_macrotask fuel (upload e (Some file)) w) /\
    (fileType_of_extension fileExtension = Some "PDF" <->
     fileExtension = ".pdf") /\
    (fileType_of_extension fileExtension = Some "Email" <->
     fileExtension = ".eml" \/ fileExtension = ".msg") /\
    (fileType_of_extension fileExtension = Some "JSON" <->
     fileExtension = ".json") /\
    (forall fileType,
       fileType_of_extension fileExtension = Some fileType ->
       exists w' r,
         run_macrotask 4 (upload e (Some file)) w = Some w' /\
         processedFiles (storage w') !! currentId (storage w) = Some r /\
         ProcessedFile.fileType r = fileType).
Proof.
  intros e file w fileExtension.
  split; [intros; apply upload_ignores_content|].
  destruct (fileType_of_extension_formats fileExtension) as (H1 & H2 & H3).
  repeat split; try apply H1; try apply H2; try apply H3.
  apply upload_stores_format.
Qed.

(** ** The order of the effects *)

(** The child listeners and the processing driver never answer a request. *)
Lemma on_close_no_response fileId code fuel w w' :
  run_macrotask fuel (on_close fileId code) w = Some w' ->
  List.filter is_response (log w') = List.filter is_response (log w).
Proof.
  intros Hrun.
  finished_as Hrun (on_close_run fileId code 0 w).
  destruct code as [[| |]|]; simpl;
    try destruct (processedFiles (storage w) !! fileId); simpl;
    rewrite ?List.filter_app; simpl; rewrite ?app_nil_r; reflexivity.
Qed.

(** C7. The answer to an accepted upload is given before the processing
    runs and says nothing about its result: in the turn of the event loop
    that handles the upload, the response 200 with the body
    [{success, fileId, message}] comes before the activity is recorded and
    before the child process is spawned, whatever happens to [spawn]; it is
    the only response of the turn; and the [close] listener, which learns
    the outcome of the processing, sends no response at all. *)
Theorem upload_answers_before_processing :
  (forall e file fileType w,
     fileType_of_extension
       (toLowerCase (extname (MulterFile.originalname file))) = Some fileType ->
     exists w' earlier later,
       run_macrotask 4 (upload e (Some file)) w = Some w' /\
       log w' =
         log w ++ earlier ++
         Responded 200
           (JObj [("success", JBool true);
                  ("fileId", JNum (currentId (storage w)));
                  ("message",
                   JStr "File uploaded successfully and processing started")])
         :: later /\
       List.filter is_activity earlier = [] /\
       List.filter is_spawn earlier = [] /\
       List.filter is_response (earlier ++ later) = [] /\
       List.filter is_activity later <> [] /\
       (spawn_throws e = None -> List.filter is_spawn later <> [])) /\
  (forall fileId code fuel w w',
     run_macrotask fuel (on_close fileId code) w = Some w' ->
     List.filter is_response (log w') = List.filter is_response (log w)).
Proof.
  split; [|apply on_close_no_response].
  intros e file fileType w Hty.
  exists (after_upload e file fileType w).
  pose proof (upload_accepted_run e file fileType 0 w Hty) as Hrun.
  unfold after_upload in *. simpl in *.
  destruct (spawn_throws e) as [error|]; simpl in *;
    (eexists [_; _]; eexists; split; [exact Hrun|]);
    (split; [reflexivity|]); simpl; repeat split; discriminate.
Qed.

(** The worlds [processFileWithAI] can leave. *)
Lemma processFileWithAI_run e fileId filePath fileType w :
  exists w',
    run_macrotask 3 (processFileWithAI e fileId filePath fileType) w = Some w' /\
    match processedFiles (storage w) !! fileId with
    | None =>
        exists caught error,
          log w' = log w ++ [ConsoleErrorWith "Processing error:" caught;
                             UnhandledRejection error]
    | Some existing =>
        exists a,
          agentActivities (storage w') !! AgentActivity.id a = Some a /\
          AgentActivity.fileId a = Some fileId /\
          AgentActivity.agentName a = "Classifier Agent" /\
          AgentActivity.action a = "Start Processing" /\
          log w' =
            log w ++
            [UpdatedProcessedFile fileId (updates_processing e);
             CreatedAgentActivity a] ++
            match spawn_throws e with
            | None =>
                [Spawned "python3"
                   ["server/ai_system.py"; pretty fileId; filePath; fileType]]
            | Some error =>
                [ConsoleErrorWith "Processing error:" error;
                 UpdatedProcessedFile fileId updates_failed]
            end
    end.
Proof.
  unfold run_macrotask, processFileWithAI. simpl.
  unfold storage_updateProcessedFile, updateProcessedFile. simpl.
  destruct (processedFiles (storage w) !! fileId) as [existing|] eqn:Hget; simpl.
  - unfold spawn. destruct (spawn_throws e) as [error|]; simpl.
    + unfold storage_updateProcessedFile, updateProcessedFile. simpl.
      rewrite lookup_insert_eq. simpl. eexists. split; [reflexivity|].
      eexists. simpl. split; [apply lookup_insert_eq|].
      repeat split; rewrite <- ?app_assoc; reflexivity.
    + eexists. split; [reflexivity|].
      eexists. simpl. split; [apply lookup_insert_eq|].
      repeat split; rewrite <- ?app_assoc; reflexivity.
  - unfold storage_updateProcessedFile, updateProcessedFile. simpl.
    rewrite Hget. simpl. eexists. split; [reflexivity|].
    do 2 eexists. unfold emit. simpl. rewrite <- ?app_assoc. reflexivity.
Qed.

(** C5. The start of the pipeline waits for the activity of the stage
    before it: in every run of [processFileWithAI], on every store, a
    [spawn] comes directly after [createAgentActivity] has returned the
    "Start Processing" activity of the [Classifier Agent] for this file, and
    that activity is in the store. *)
Theorem activity_written_before_spawn :
  forall e fileId filePath fileType w,
    exists w' new,
      run_macrotask 3 (processFileWithAI e fileId filePath fileType) w
        = Some w' /\
      log w' = log w ++ new /\
      forall earlier command args later,
        new = earlier ++ Spawned command args :: later ->
        exists front a,
          earlier = front ++ [CreatedAgentActivity a] /\
          AgentActivity.fileId a = Some fileId /\
          AgentActivity.agentName a = "Classifier Agent" /\
          AgentActivity.action a = "Start Processing" /\
          agentActivities (storage w') !! AgentActivity.id a = Some a.
Proof.
  intros e fileId filePath fileType w.
  destruct (processFileWithAI_run e fileId filePath fileType w)
    as (w' & Hrun & Hcases).
  exists w'.
  destruct (processedFiles (storage w) !! fileId) as [existing|].
  - destruct Hcases as (a & Hstored & Hfile & Hname & Haction & Hlog).
    eexists. split; [exact Hrun|]. split; [exact Hlog|].
    intros earlier command args later Hsplit.
    destruct (spawn_throws e) as [error|]; simpl in Hsplit.
    + destruct earlier as [|x1 [|x2 [|x3 [|x4 [|x5 earlier]]]]];
        simpl in Hsplit; discriminate Hsplit.
    + destruct earlier as [|x1 [|x2 [|x3 [|x4 earlier]]]];
        simpl in Hsplit; try discriminate Hsplit.
      injection Hsplit as <- <- _ _.
      exists [UpdatedProcessedFile fileId (updates_processing e)], a. auto.
  - destruct Hcases as (text & error & Hlog).
    eexists. split; [exact Hrun|]. split; [exact Hlog|].
    intros earlier command args later Hsplit.
    destruct earlier as [|x1 [|x2 [|x3 earlier]]];
      simpl in Hsplit; discriminate Hsplit.
Qed.

(** ** The life of an uploaded file *)

(** C3. The status of a document goes one way: in every state the server
    can reach, the writes to the status of a stored file are ["pending"]
    at its creation, then ["processing"] once, before the activity is
    recorded and before the child process is started, then at most one
    ["failed"], after which nothing is written; the status the row holds
    is the one written last, and it is one of the four of the schema. *)
Theorem status_lifecycle :
  forall w, reachable w ->
  forall id f, processedFiles (storage w) !! id = Some f ->
    (file_trace id (log w) =
       [Wrote "pending"; Wrote "processing";
        Logged "Start Processing" "pending"; Started] \/
     file_trace id (log w) =
       [Wrote "pending"; Wrote "processing";
        Logged "Start Processing" "pending"; Started; Wrote "failed"] \/
     file_trace id (log w) =
       [Wrote "pending"; Wrote "processing";
        Logged "Start Processing" "pending"; Wrote "failed"]) /\
    last_written (file_trace id (log w)) = Some (ProcessedFile.status f) /\
    In (ProcessedFile.status f) ["pending"; "processing"; "completed"; "failed"].
Proof.
  intros w Hreach id f Hf.
  destruct (files_lifecycle w (reachable_consistent w Hreach) id f Hf)
    as [[-> ->]|[(-> & -> & _)|(-> & -> & _)]].
  - split; [left; reflexivity|]. split; [reflexivity | simpl; auto].
  - split; [right; left; reflexivity|]. split; [reflexivity | simpl; auto].
  - split; [right; right; reflexivity|]. split; [reflexivity | simpl; auto].
Qed.

(** C1, as the spec words it, fails: after the upload of [notes.pdf] and
    the exit of its child process with code 1 the file is [failed], the
    failure has added nothing to the activity table, and the one activity
    there is the pending "Start Processing" one, without an error
    message. *)
Lemma failed_file_without_failure_record :
  reachable example_exited /\
  ProcessedFile.status <$> processedFiles (storage example_exited) !! 1
    = Some "failed" /\
  agentActivities (storage example_exited)
    = agentActivities (storage example_uploaded) /\
  (fun a => (AgentActivity.fileId a, AgentActivity.action a,
             AgentActivity.status a, AgentActivity.errorMessage a))
    <$> values (agentActivities (storage example_exited))
    = [(Some 1, "Start Processing", "pending", None)].
Proof.
  split; [apply example_exited_reachable|].
  split; [vm_compute; reflexivity|].
  split; vm_compute; reflexivity.
Qed.

Lemma on_close_marks_failed w fileId code :
  consistent w -> fileId ∈ children w -> code <> Some 0 ->
  exists w' f,
    run_macrotask 4 (on_close fileId code) (before (ChildClose fileId code) w)
      = Some w' /\
    processedFiles (storage w') !! fileId = Some f /\
    ProcessedFile.status f = "failed" /\
    agentActivities (storage w') = agentActivities (storage w).
Proof.
  intros Hc Hin Hcode.
  destruct (children_running w Hc fileId Hin) as (f & Hf & _).
  pose proof (on_close_run fileId code 3 (before (ChildClose fileId code) w))
    as Hrun.
  simpl in Hrun. rewrite Hf in Hrun.
  eexists. exists (ProcessedFile_assign f updates_failed).
  destruct code as [[| |]|]; try congruence;
    (split; [exact Hrun|]); simpl; rewrite lookup_insert_eq; auto.
Qed.

(** C1, amended. Every file that has reached [completed] or [failed] has
    an activity: the "Start Processing" one that [processFileWithAI] records
    before it starts the pipeline.  A failure sets the status to [failed]
    and records nothing: every activity of the store is a pending "Start
    Processing" without an error message; when the child process of a file
    exits with a code other than 0 the file becomes [failed] and the
    activity table stays as it is; and when [spawn] throws the file is
    [failed] at the end of the turn and the table has gained the one
    "Start Processing" activity. *)
Theorem terminal_file_has_start_activity :
  forall w, reachable w ->
    (forall id f,
       processedFiles (storage w) !! id = Some f ->
       ProcessedFile.status f = "completed" \/
       ProcessedFile.status f = "failed" ->
       exists aid a,
         agentActivities (storage w) !! aid = Some a /\
         AgentActivity.fileId a = Some id) /\
    (forall aid a,
       agentActivities (storage w) !! aid = Some a ->
       AgentActivity.action a = "Start Processing" /\
       AgentActivity.status a = "pending" /\
       AgentActivity.errorMessage a = None) /\
    (forall fileId code,
       fileId ∈ children w -> code <> Some 0 ->
       exists w' f,
         run_macrotask 4 (on_close fileId code)
                       (before (ChildClose fileId code) w) = Some w' /\
         processedFiles (storage w') !! fileId = Some f /\
         ProcessedFile.status f = "failed" /\
         agentActivities (storage w') = agentActivities (storage w)) /\
    (forall e file fileType error,
       spawn_throws e = Some error ->
       fileType_of_extension
         (toLowerCase (extname (MulterFile.originalname file)))
         = Some fileType ->
       exists w' f a,
         run_macrotask 4 (upload e (Some file)) w = Some w' /\
         processedFiles (storage w') !! currentId (storage w) = Some f /\
         ProcessedFile.status f = "failed" /\
         agentActivities (storage w') =
           <[currentId (storage w) + 1 := a]> (agentActivities (storage w)) /\
         AgentActivity.action a = "Start Processing" /\
         AgentActivity.status a = "pending" /\
         AgentActivity.errorMessage a = None).
Proof.
  intros w Hreach. pose proof (reachable_consistent w Hreach) as Hc.
  split; [|split; [|split]].
  - intros id f Hf _.
    destruct (files_logged w Hc id f Hf) as (a & Ha & Hfile). eauto.
  - intros aid a Ha.
    destruct (activities_start w Hc aid a Ha) as (_ & ? & ? & ?). auto.
  - intros fileId code. apply on_close_marks_failed, Hc.
  - intros e file fileType error Hspawn Hty.
    pose proof (after_upload_storage e file fileType w) as Hs. simpl in Hs.
    destruct Hs as (_ & (row & Hfiles & _ & _ & _ & Hrow_status)
                    & (a & Hacts & _ & _ & Haction & Hstatus & Herror) & _).
    rewrite Hspawn in Hrow_status.
    exists (after_upload e file fileType w), row, a.
    split; [apply (upload_accepted_run e file fileType 0 w Hty)|].
    rewrite Hfiles, lookup_insert_eq. auto 8.
Qed.

(** ** The statements on the example run *)

Lemma terminal_file_has_start_activity_witness :
  reachable example_exited /\
  exists aid a,
    agentActivities (storage example_exited) !! aid = Some a /\
    AgentActivity.fileId a = Some 1.
Proof.
  assert (Hreach : reachable example_exited).
  { apply (reachable_step example_uploaded).
    - apply (reachable_step boot); [apply reachable_boot|].
      apply (step_input boot example_env (PostUpload (Some example_file)) 4
                        example_uploaded); [exact I | vm_compute; reflexivity].
    - apply (step_input example_uploaded example_env (ChildClose 1 (Some 1)) 4
                        example_exited);
        [vm_compute; left | vm_compute; reflexivity]. }
  split; [exact Hreach|].
  destruct (terminal_file_has_start_activity example_exited Hreach)
    as (Hterminal & _).
  destruct (processedFiles (storage example_exited) !! 1) as [f|] eqn:Hf;
    [|vm_compute in Hf; discriminate Hf].
  apply (Hterminal 1 f Hf).
  right. vm_compute in Hf. injection Hf as <-. reflexivity.
Defined.

Lemma status_lifecycle_witness :
  reachable example_exited /\
  file_trace 1 (log example_exited) =
    [Wrote "pending"; Wrote "processing";
     Logged "Start Processing" "pending"; Started; Wrote "failed"] /\
  exists f,
    processedFiles (storage example_exited) !! 1 = Some f /\
    last_written (file_trace 1 (log example_exited))
      = Some (ProcessedFile.status f).
Proof.
  assert (Hreach : reachable example_exited).
  { apply (reachable_step example_uploaded).
    - apply (reachable_step boot); [apply reachable_boot|].
      apply (step_input boot example_env (PostUpload (Some example_file)) 4
                        example_uploaded); [exact I | vm_compute; reflexivity].
    - apply (step_input example_uploaded example_env (ChildClose 1 (Some 1)) 4
                        example_exited);
        [vm_compute; left | vm_compute; reflexivity]. }
  split; [exact Hreach|]. split; [vm_compute; reflexivity|].
  destruct (processedFiles (storage example_exited) !! 1) as [f|] eqn:Hf;
    [|vm_compute in Hf; discriminate Hf].
  exists f. split; [reflexivity|].
  apply (status_lifecycle example_exited Hreach 1 f Hf).
Defined.

Lemma agent_activities_append_only_witness :
  let a := fst (createAgentActivity 10 (start_activity 7 "uploads/3f2a9c" "PDF")
                                    MemStorage_new) in
  agentActivities (snd (run_calls example_calls MemStorage_new)) !! 1 = Some a /\
  agentActivities
    (snd (run_calls example_further_calls
                    (snd (run_calls example_calls MemStorage_new)))) !! 1
    = Some a.
Proof.
  intros a.
  assert (H : agentActivities (snd (run_calls example_calls MemStorage_new)) !! 1
              = Some a) by (vm_compute; reflexivity).
  split; [exact H|].
  apply (agent_activities_append_only example_calls example_further_calls 1 a H).
Defined.

Lemma format_decided_by_extension_witness :
  fileType_of_extension
    (toLowerCase (extname (MulterFile.originalname example_file))) = Some "PDF" /\
  exists w' r,
    run_macrotask 4 (upload example_env (Some example_file)) boot = Some w' /\
    processedFiles (storage w') !! 1 = Some r /\
    ProcessedFile.fileType r = "PDF".
Proof.
  assert (H : fileType_of_extension
                (toLowerCase (extname (MulterFile.originalname example_file)))
              = Some "PDF") by (vm_compute; reflexivity).
  split; [exact H|].
  destruct (format_decided_by_extension example_env example_file boot)
    as (_ & _ & _ & _ & Hstored).
  apply (Hstored "PDF" H).
Defined.

Lemma upload_unsupported_iff_extension_witness :
  (has_char CHAR_FORWARD_SLASH (MulterFile.originalname example_file) = false /\
   toLowerCase (extension_of_name (MulterFile.originalname example_file))
     = ".pdf" /\
   exists w' new r,
     run_macrotask 4 (upload example_env (Some example_file)) boot = Some w' /\
     log w' = log boot ++ new /\
     In (Responded 200 (accepted_body 1)) new /\
     processedFiles (storage w') !! 1 = Some r /\
     ProcessedFile.originalName r = "notes.pdf" /\
     ProcessedFile.fileType r = "PDF") /\
  (has_char CHAR_FORWARD_SLASH (MulterFile.originalname example_text_file)
     = false /\
   ~ In (toLowerCase
           (extension_of_name (MulterFile.originalname example_text_file)))
        accepted_extensions /\
   exists w' new,
     run_macrotask 4 (upload example_env (Some example_text_file)) boot
       = Some w' /\
     log w' = log boot ++ new /\
     In (Responded 400 unsupported_body) new /\
     storage w' = storage boot).
Proof.
  split.
  - assert (Hslash : has_char CHAR_FORWARD_SLASH
                       (MulterFile.originalname example_file) = false)
      by reflexivity.
    assert (Hpdf : toLowerCase
                     (extension_of_name (MulterFile.originalname example_file))
                   = ".pdf") by reflexivity.
    split; [exact Hslash|]. split; [exact Hpdf|].
    destruct (upload_unsupported_iff_extension example_env example_file boot
                Hslash)
      as (w' & new & Hrun & Hlog & _ & _ & Haccepted).
    destruct Haccepted as (Hok & r & Hrow & Hname & Htype & _).
    { rewrite Hpdf. left. reflexivity. }
    exists w', new, r. split; [exact Hrun|]. split; [exact Hlog|].
    split; [exact Hok|]. split; [exact Hrow|]. split; [exact Hname|].
    apply Htype, Hpdf.
  - assert (Hslash : has_char CHAR_FORWARD_SLASH
                       (MulterFile.originalname example_text_file) = false)
      by reflexivity.
    assert (Hout : ~ In (toLowerCase
                           (extension_of_name
                              (MulterFile.originalname example_text_file)))
                        accepted_extensions).
    { vm_compute. intros [H|[H|[H|[H|[]]]]]; discriminate H. }
    split; [exact Hslash|]. split; [exact Hout|].
    destruct (upload_unsupported_iff_extension example_env example_text_file
                boot Hslash)
      as (w' & new & Hrun & Hlog & Hiff & Hsame & _).
    exists w', new. split; [exact Hrun|]. split; [exact Hlog|].
    split; [apply Hiff, Hout | apply Hsame, Hout].
Defined.

Lemma upload_answers_before_processing_witness :
  fileType_of_extension
    (toLowerCase (extname (MulterFile.originalname example_file))) = Some "PDF" /\
  exists w' earlier later,
    run_macrotask 4 (upload example_env (Some example_file)) boot = Some w' /\
    log w' =
      log boot ++ earlier ++
      Responded 200
        (JObj [("success", JBool true); ("fileId", JNum 1);
               ("message",
                JStr "File uploaded successfully and processing started")])
      :: later /\
    List.filter is_spawn earlier = [] /\
    List.filter is_spawn later <> [].
Proof.
  assert (H : fileType_of_extension
                (toLowerCase (extname (MulterFile.originalname example_file)))
              = Some "PDF") by (vm_compute; reflexivity).
  split; [exact H|].
  destruct upload_answers_before_processing as [Hupload _].
  destruct (Hupload example_env example_file "PDF" boot H)
    as (w' & earlier & later & Hrun & Hlog & _ & Hno & _ & _ & Hspawn).
  exists w', earlier, later. repeat split; try assumption.
  apply Hspawn. reflexivity.
Defined.

Lemma activity_written_before_spawn_witness :
  exists w' front a,
    run_macrotask 3 (processFileWithAI example_env 1 "uploads/3f2a9c" "PDF")
                  example_created = Some w' /\
    log w' =
      front ++ [CreatedAgentActivity a;
                Spawned "python3"
                  ["server/ai_system.py"; "1"; "uploads/3f2a9c"; "PDF"]] /\
    AgentActivity.fileId a = Some 1 /\
    agentActivities (storage w') !! AgentActivity.id a = Some a.
Proof.
  destruct (activity_written_before_spawn
              example_env 1 "uploads/3f2a9c" "PDF" example_created)
    as (w' & new & Hrun & Hlog & Hordered).
  assert (Hnew : exists earlier,
             new = earlier ++
                   [Spawned "python3"
                      ["server/ai_system.py"; "1"; "uploads/3f2a9c"; "PDF"]]).
  { vm_compute in Hrun. injection Hrun as <-. simpl in Hlog. subst new.
    eexists [_; _]. reflexivity. }
  destruct Hnew as (earlier & ->).
  destruct (Hordered earlier _ _ [] eq_refl)
    as (front & a & -> & Hfile & _ & _ & Hstored).
  exists w', front, a. split; [exact Hrun|].
  split; [|split; assumption].
  rewrite Hlog. simpl. rewrite <- app_assoc. reflexivity.
Defined.

Lemma update_throws_iff_missing_witness :
  let this := storage example_created in
  processedFiles this !! 5 = None /\
  (exists e, fst (updateProcessedFile 5 updates_failed this) = Thrown e) /\
  snd (updateProcessedFile 5 updates_failed this) = this /\
  exists updated,
    fst (updateProcessedFile 1 updates_failed this) = Returned updated /\
    ProcessedFile.get ProcessedFile.Status updated = CText "failed" /\
    ProcessedFile.get ProcessedFile.FileType updated = CText "PDF".
Proof.
  intros this.
  assert (Hmissing : processedFiles this !! 5 = None)
    by (vm_compute; reflexivity).
  destruct update_throws_iff_missing as [Hfile _].
  destruct (Hfile 5 updates_failed this) as (Hiff & Hsame & _).
  split; [exact Hmissing|].
  split; [apply Hiff, Hmissing|].
  split; [apply Hsame, Hiff, Hmissing|].
  destruct (Hfile 1 updates_failed this) as (_ & _ & Hreturned).
  destruct (fst (updateProcessedFile 1 updates_failed this))
    as [updated|e] eqn:Hresult; [|vm_compute in Hresult; discriminate Hresult].
  destruct (Hreturned updated eq_refl) as (existing & Hexisting & Hcolumns & _).
  exists updated. split; [reflexivity|].
  rewrite !Hcolumns.
  vm_compute in Hexisting. injection Hexisting as <-.
  split; reflexivity.
Defined.

Lemma getDashboardStats_total_witness :
  (processedFiles MemStorage_new = ∅ /\
   agentActivities MemStorage_new = ∅ /\
   successRate (getDashboardStats 0 MemStorage_new) = Num 0 /\
   averageProcessingTime (getDashboardStats 0 MemStorage_new) = Num 0 /\
   activeAgents (getDashboardStats 0 MemStorage_new) = 4%nat) /\
  (processing_time_magnitude (rows (agentActivities example_store)) <= 2 ^ 53 /\
   is_finite (averageProcessingTime (getDashboardStats 15 example_store))).
Proof.
  split.
  - destruct (getDashboardStats_total 0 MemStorage_new)
      as (Hrate & Haverage & Hagents & _).
    split; [reflexivity|]. split; [reflexivity|].
    split; [apply Hrate; reflexivity|].
    split; [apply Haverage; reflexivity|].
    apply Hagents. reflexivity.
  - assert (Hsafe : processing_time_magnitude
                      (rows (agentActivities example_store)) <= 2 ^ 53)
      by (vm_compute; discriminate).
    split; [exact Hsafe|].
    destruct (getDashboardStats_total 15 example_store)
      as (_ & _ & _ & _ & _ & _ & Hfinite).
    apply (Hfinite Hsafe).
Defined.

(** * The queries of the store *)

(** ** What a call does to the keys of the tables *)

Lemma has_insert {A : Type} (m : gmap Z A) (key id : Z) (x : A) :
  bool_decide (is_Some (<[key := x]> m !! id)) =
  bool_decide (is_Some (m !! id)) || (key =? id).
Proof.
  rewrite lookup_insert. case_decide as Hid.
  - subst. rewrite Z.eqb_refl, orb_true_r. apply bool_decide_eq_true_2. eauto.
  - rewrite (proj2 (Z.eqb_neq _ _) Hid), orb_false_r. reflexivity.
Qed.

Lemma table_eqb_eq t t' : table_eqb t t' = true <-> t = t'.
Proof. destruct t, t'; simpl; split; congruence. Qed.

Lemma exec_table_has now c this t id :
  table_has t id (snd (exec now c this)) =
  table_has t id this ||
  match written c this with
  | Some (t', key) => table_eqb t' t && (key =? id)
  | None => false
  end.
Proof.
  destruct c; simpl; rewrite ?orb_false_r; try reflexivity;
    try (destruct t; simpl; rewrite ?orb_false_r, ?has_insert; reflexivity).
  - unfold updateProcessedFile.
    destruct (processedFiles this !! id0) as [existing|] eqn:Hget; simpl.
    + try rewrite bool_decide_eq_true_2 by eauto.
      destruct t; simpl; rewrite ?orb_false_r, ?has_insert; reflexivity.
    + try rewrite bool_decide_eq_false_2 by (intros [x Hx]; congruence).
      rewrite ?orb_false_r. reflexivity.
  - unfold updateTriggeredAction.
    destruct (triggeredActions this !! id0) as [existing|] eqn:Hget; simpl.
    + try rewrite bool_decide_eq_true_2 by eauto.
      destruct t; simpl; rewrite ?orb_false_r, ?has_insert; reflexivity.
    + try rewrite bool_decide_eq_false_2 by (intros [x Hx]; congruence).
      rewrite ?orb_false_r. reflexivity.
Qed.

(** A call sets a key that is present, or the id the counter hands out. *)
Lemma written_key c this t key :
  written c this = Some (t, key) ->
  table_has t key this = true \/ key = currentId this.
Proof.
  destruct c; simpl; try discriminate; try (intros [= <- <-]; auto).
  - destruct (bool_decide _) eqn:E; [|discriminate]. intros [= <- <-]. auto.
  - destruct (bool_decide _) eqn:E; [|discriminate]. intros [= <- <-]. auto.
Qed.

Lemma exec_keys_below_counter now c this :
  keys_below_counter this -> keys_below_counter (snd (exec now c this)).
Proof.
  intros Hbelow t id. rewrite exec_table_has.
  pose proof (exec_counter now c this) as Hle.
  intros [Hold | Hnew]%orb_true_iff.
  - specialize (Hbelow t id Hold). lia.
  - destruct (written c this) as [[t' key]|] eqn:Hw; [|discriminate].
    apply andb_true_iff in Hnew as [Ht Hkey].
    apply table_eqb_eq in Ht. apply Z.eqb_eq in Hkey. subst t' key.
    destruct (written_key c this t id Hw) as [Hold | ->].
    + specialize (Hbelow t id Hold). lia.
    + destruct c; simpl in *; try discriminate; try lia;
        destruct (bool_decide _) eqn:E; try discriminate;
        injection Hw as <- <-;
        first [apply (Hbelow ProcessedFiles) in E
              | apply (Hbelow TriggeredActions) in E]; lia.
Qed.

Lemma run_calls_keys_below_counter calls this :
  keys_below_counter this -> keys_below_counter (snd (run_calls calls this)).
Proof.
  revert this. induction calls as [|[now c] rest IH]; intros this Hbelow.
  - assumption.
  - rewrite run_calls_cons. simpl. apply IH, exec_keys_below_counter, Hbelow.
Qed.

Lemma MemStorage_new_keys_below_counter : keys_below_counter MemStorage_new.
Proof.
  intros t id. destruct t; simpl; rewrite lookup_empty;
    rewrite bool_decide_eq_false_2 by (intros [x Hx]; discriminate);
    discriminate.
Qed.

Lemma ids_insert_order {A : Type} (m : gmap Z A) (key : Z) (x : A) :
  is_Some (m !! key) \/ (forall id, is_Some (m !! id) -> id < key) ->
  ids (<[key := x]> m) = order_after_set key (ids m).
Proof.
  unfold order_after_set. intros [Hpresent | Hfresh].
  - rewrite bool_decide_eq_true_2 by (apply elem_of_ids, Hpresent).
    apply ids_insert_present, Hpresent.
  - rewrite bool_decide_eq_false_2.
    + apply ids_insert_fresh, Hfresh.
    + intros Hin. apply elem_of_ids, Hfresh in Hin. lia.
Qed.

Lemma exec_table_ids now c this t :
  keys_below_counter this ->
  table_ids t (snd (exec now c this)) =
  match written c this with
  | Some (t', key) =>
      if table_eqb t' t then order_after_set key (table_ids t this)
      else table_ids t this
  | None => table_ids t this
  end.
Proof.
  intros Hbelow.
  assert (Hfresh : forall t' id,
            table_has t' id this = true -> id < currentId this) by exact Hbelow.
  destruct c; simpl; try reflexivity;
    try (destruct t; simpl; try reflexivity; apply ids_insert_order; right;
         intros id Hid;
         (apply (Hfresh Users) + apply (Hfresh ProcessedFiles)
          + apply (Hfresh AgentActivities) + apply (Hfresh TriggeredActions)
          + apply (Hfresh SystemMetrics));
         simpl; apply bool_decide_eq_true_2, Hid).
  - unfold updateProcessedFile.
    destruct (processedFiles this !! id) as [existing|] eqn:Hget; simpl;
      [|destruct t; reflexivity].
    destruct t; simpl; try reflexivity.
    apply ids_insert_order. left. eauto.
  - unfold updateTriggeredAction.
    destruct (triggeredActions this !! id) as [existing|] eqn:Hget; simpl;
      [|destruct t; reflexivity].
    destruct t; simpl; try reflexivity.
    apply ids_insert_order. left. eauto.
Qed.

Lemma insertion_orders_table_ids calls this orders :
  keys_below_counter this ->
  (forall t, orders t = table_ids t this) ->
  forall t, insertion_orders calls this orders t =
            table_ids t (snd (run_calls calls this)).
Proof.
  revert this orders.
  induction calls as [|[now c] rest IH]; intros this orders Hbelow Horders t.
  - apply Horders.
  - rewrite run_calls_cons. simpl.
    apply IH; [apply exec_keys_below_counter, Hbelow|].
    intros t'. rewrite (exec_table_ids now c this t' Hbelow).
    destruct (written c this) as [[t'' key]|]; [|apply Horders].
    rewrite (Horders t'). reflexivity.
Qed.

(** X1. A [Map] of the store iterates in the order of its ids: along every
    sequence of calls of the interface on a new store, the insertion order
    of the keys of each table ([set] appends a new key and leaves a key
    that is present in its place) is the ascending list of the ids the
    table holds. *)
Theorem insertion_order_is_id_order :
  forall calls t,
    insertion_orders calls MemStorage_new (fun _ => []) t =
    table_ids t (snd (run_calls calls MemStorage_new)).
Proof.
  intros calls t. apply insertion_orders_table_ids.
  - apply MemStorage_new_keys_below_counter.
  - intros t'. destruct t'; symmetry; exact ids_empty.
Qed.

Lemma owners_sum id this :
  owners id this =
  (Nat.b2n (table_has Users id this) + Nat.b2n (table_has ProcessedFiles id this)
   + Nat.b2n (table_has AgentActivities id this)
   + Nat.b2n (table_has TriggeredActions id this)
   + Nat.b2n (table_has SystemMetrics id this))%nat.
Proof.
  unfold owners. cbn [List.filter].
  destruct (table_has Users id this), (table_has ProcessedFiles id this),
    (table_has AgentActivities id this), (table_has TriggeredActions id this),
    (table_has SystemMetrics id this); reflexivity.
Qed.

Lemma exec_owners now c this id :
  keys_below_counter this ->
  1 <= currentId this ->
  owners id this = (if bool_decide (1 <= id < currentId this) then 1%nat else 0%nat) ->
  owners id (snd (exec now c this)) =
  (if bool_decide (1 <= id < currentId (snd (exec now c this))) then 1%nat else 0%nat).
Proof.
  intros Hbelow Hpos Hown.
  assert (Hnone : forall t, table_has t (currentId this) this = false).
  { intros t. destruct (table_has t (currentId this) this) eqn:E; [|reflexivity].
    apply Hbelow in E. lia. }
  assert (Hkeep : forall t key,
            written c this = Some (t, key) -> table_has t key this = true ->
            owners id (snd (exec now c this)) = owners id this /\
            currentId (snd (exec now c this)) = currentId this).
  { intros t key Hw Hhas. split.
    - rewrite !owners_sum, !exec_table_has, Hw.
      destruct (Z.eqb_spec key id) as [->|Hne];
        destruct t; simpl in Hhas |- *;
        rewrite ?Hhas, ?orb_false_r, ?andb_false_r; reflexivity.
    - destruct c; simpl in *; try discriminate;
        rewrite ?updateProcessedFile_currentId,
                ?updateTriggeredAction_currentId;
        try reflexivity;
        injection Hw as <- <-; rewrite Hnone in Hhas; discriminate. }
  destruct (written c this) as [[t key]|] eqn:Hw.
  - destruct (written_key c this t key Hw) as [Hhas | ->].
    + destruct (Hkeep t key eq_refl Hhas) as [-> ->]. exact Hown.
    + assert (Hnext : currentId (snd (exec now c this)) = currentId this + 1).
      { pose proof (Hnone ProcessedFiles) as Hfiles.
        pose proof (Hnone TriggeredActions) as Hactions.
        destruct c; simpl in Hw, Hfiles, Hactions |- *;
          try discriminate Hw; try reflexivity.
        - destruct (bool_decide (is_Some (processedFiles this !! id0))) eqn:E;
            [|discriminate Hw].
          injection Hw as _ Hkey. subst id0. congruence.
        - destruct (bool_decide (is_Some (triggeredActions this !! id0))) eqn:E;
            [|discriminate Hw].
          injection Hw as _ Hkey. subst id0. congruence. }
      rewrite Hnext. rewrite owners_sum, !exec_table_has, Hw.
      rewrite owners_sum in Hown.
      destruct (Z.eqb_spec (currentId this) id) as [<-|Hne].
      * rewrite !Hnone. rewrite bool_decide_eq_true_2 by lia.
        destruct t; reflexivity.
      * rewrite !andb_false_r, !orb_false_r, Hown.
        rewrite (bool_decide_ext (1 <= id < currentId this)
                                 (1 <= id < currentId this + 1)) by lia.
        reflexivity.
  - assert (Hsame : snd (exec now c this) = this \/
                    (owners id (snd (exec now c this)) = owners id this /\
                     currentId (snd (exec now c this)) = currentId this)).
    { destruct c; simpl in *; try discriminate; auto.
      - unfold updateProcessedFile.
        destruct (processedFiles this !! id0) eqn:E; simpl in *; auto.
        discriminate.
      - unfold updateTriggeredAction.
        destruct (triggeredActions this !! id0) eqn:E; simpl in *; auto.
        discriminate. }
    destruct Hsame as [-> | [-> ->]]; exact Hown.
Qed.

(** X2. Every id the counter has handed out names one row: along every
    sequence of calls on a new store, an id is a key of exactly one of the
    five tables when it lies between 1 and the counter, and of none
    otherwise. *)
Theorem each_id_has_one_owner :
  forall calls id,
    let this := snd (run_calls calls MemStorage_new) in
    owners id this =
    (if bool_decide (1 <= id < currentId this) then 1%nat else 0%nat).
Proof.
  intros calls id. simpl.
  assert (Hgen : forall this,
            keys_below_counter this -> 1 <= currentId this ->
            owners id this =
              (if bool_decide (1 <= id < currentId this) then 1%nat else 0%nat) ->
            owners id (snd (run_calls calls this)) =
              (if bool_decide (1 <= id < currentId (snd (run_calls calls this))) then 1%nat else 0%nat)).
  { induction calls as [|[now c] rest IH]; intros this Hbelow Hpos Hown.
    - exact Hown.
    - rewrite run_calls_cons. simpl. apply IH.
      + apply exec_keys_below_counter, Hbelow.
      + pose proof (exec_counter now c this). lia.
      + apply exec_owners; assumption. }
  apply Hgen.
  - apply MemStorage_new_keys_below_counter.
  - simpl. lia.
  - rewrite owners_sum. simpl. rewrite !lookup_empty.
    rewrite (bool_decide_eq_false_2 (1 <= id < 1)) by lia.
    rewrite !bool_decide_eq_false_2 by (intros [x Hx]; discriminate).
    reflexivity.
Qed.

(** ** [sort] and [slice] *)

Section NewestFirst.

Context {A : Type} (t : A -> Z).

Let compare : A -> A -> Z := fun a b => t b - t a.

Lemma sort_insert_Permutation x (l : list A) :
  sort_insert compare x l ≡ₚ x :: l.
Proof.
  induction l as [|y l IH]; simpl; [reflexivity|].
  destruct (compare x y <=? 0); [reflexivity|].
  rewrite IH. apply perm_swap.
Qed.

Lemma sort_Permutation (l : list A) : sort compare l ≡ₚ l.
Proof.
  induction l as [|x l IH]; simpl; [reflexivity|].
  rewrite sort_insert_Permutation, IH. reflexivity.
Qed.

Lemma sort_insert_sorted x (l : list A) :
  StronglySorted (fun a b => t b <= t a) l ->
  StronglySorted (fun a b => t b <= t a) (sort_insert compare x l).
Proof.
  induction 1 as [|y l Hsorted IH Hall]; simpl; [repeat constructor|].
  unfold compare at 1. destruct (Z.leb_spec (t y - t x) 0) as [Hle|Hgt].
  - constructor; [constructor; assumption|].
    constructor; [lia|]. eapply Forall_impl; [exact Hall|].
    simpl. intros; lia.
  - constructor; [exact IH|].
    rewrite sort_insert_Permutation. constructor; [lia | exact Hall].
Qed.

Lemma sort_sorted (l : list A) :
  StronglySorted (fun a b => t b <= t a) (sort compare l).
Proof.
  induction l as [|x l IH]; simpl; [constructor|].
  apply sort_insert_sorted, IH.
Qed.

(** The sort is stable: rows of one time stay in the order they had. *)
Lemma sort_insert_stable time x (l : list A) :
  List.filter (fun y => t y =? time) (sort_insert compare x l) =
  List.filter (fun y => t y =? time) (x :: l).
Proof.
  induction l as [|y l IH]; [reflexivity|].
  simpl. unfold compare at 1.
  destruct (Z.leb_spec (t y - t x) 0) as [Hle|Hgt]; [reflexivity|].
  simpl. rewrite IH. simpl.
  destruct (Z.eqb_spec (t x) time) as [Hx|Hx];
    destruct (Z.eqb_spec (t y) time) as [Hy|Hy]; try reflexivity.
  lia.
Qed.

Lemma sort_stable time (l : list A) :
  List.filter (fun y => t y =? time) (sort compare l) =
  List.filter (fun y => t y =? time) l.
Proof.
  induction l as [|x l IH]; [reflexivity|].
  simpl sort. rewrite sort_insert_stable. simpl. rewrite IH. reflexivity.
Qed.

Lemma slice_to_take (end_index : Z) (l : list A) :
  exists n, slice_to end_index l = take n l /\
    (0 <= end_index -> n = Nat.min (Z.to_nat end_index) (length l)) /\
    (end_index < 0 -> n = (length l - Z.to_nat (- end_index))%nat).
Proof.
  unfold slice_to. eexists. split; [reflexivity|].
  destruct (Z.ltb_spec end_index 0); split; intros; lia.
Qed.

Lemma sort_slice_newest_first (limit : Z) (l : list A) :
  newest_first t limit l (slice_to limit (sort compare l)).
Proof.
  destruct (slice_to_take limit (sort compare l)) as (n & -> & Hpos & Hneg).
  assert (Hlen : length (sort compare l) = length l)
    by (apply Permutation_length, sort_Permutation).
  exists (drop n (sort compare l)). rewrite take_drop.
  split; [apply sort_Permutation|]. split; [apply sort_sorted|].
  split; [intros; apply sort_stable|].
  rewrite length_take, Hlen in *. split; intros H.
  - rewrite (Hpos H). lia.
  - rewrite (Hneg H). lia.
Qed.

(** The first row of a sorted list is the newest. *)
Lemma head_sort_newest (l : list A) :
  match head (sort compare l) with
  | None => l = []
  | Some x => x ∈ l /\ forall y, y ∈ l -> t y <= t x
  end.
Proof.
  pose proof (sort_Permutation l) as Hperm.
  pose proof (sort_sorted l) as Hsorted.
  destruct (sort compare l) as [|x rest]; simpl.
  - apply Permutation_nil in Hperm. exact Hperm.
  - split; [rewrite <- Hperm; left|].
    intros y Hy. rewrite <- Hperm in Hy.
    apply StronglySorted_cons in Hsorted as [Hall _].
    rewrite Forall_forall in Hall.
    apply elem_of_cons in Hy as [-> | Hy]; [lia | apply Hall, Hy].
Qed.

Lemma head_slice_to_1 (l : list A) : head (slice_to 1 l) = head l.
Proof.
  unfold slice_to. destruct l as [|a l]; [reflexivity|].
  change (1 <? 0) with false. cbv iota.
  assert (Z.to_nat (Z.min 1 (Z.of_nat (length (a :: l)))) = 1%nat) as ->
    by (simpl length; lia).
  reflexivity.
Qed.

End NewestFirst.

(** ** The queries *)

(** X3. [getProcessedFiles] and [getTriggeredActions] return the most
    recent rows, newest first: the rows of the table sorted by upload time
    (by timestamp), latest first and rows of the same time in the order of
    their ids, cut to [limit] rows (50 when no limit is given, and a
    negative limit cuts that many rows off the end instead); every row
    returned is a row of the table, and with a limit that is not negative
    the number of rows is the smaller of the limit and the size of the
    table. *)
Theorem recent_rows_newest_first :
  forall limit this,
    newest_first ProcessedFile.uploadedAt (limit_or_50 limit)
      (rows (processedFiles this)) (getProcessedFiles limit this) /\
    newest_first TriggeredAction.timestamp (limit_or_50 limit)
      (rows (triggeredActions this)) (getTriggeredActions limit this) /\
    (forall f, f ∈ getProcessedFiles limit this ->
               exists id, processedFiles this !! id = Some f) /\
    (forall a, a ∈ getTriggeredActions limit this ->
               exists id, triggeredActions this !! id = Some a) /\
    (0 <= limit_or_50 limit ->
     length (getProcessedFiles limit this) =
       Nat.min (Z.to_nat (limit_or_50 limit)) (size (processedFiles this)) /\
     length (getTriggeredActions limit this) =
       Nat.min (Z.to_nat (limit_or_50 limit)) (size (triggeredActions this))).
Proof.
  intros limit this.
  pose proof (sort_slice_newest_first ProcessedFile.uploadedAt
                (limit_or_50 limit) (rows (processedFiles this))) as Hfiles.
  pose proof (sort_slice_newest_first TriggeredAction.timestamp
                (limit_or_50 limit) (rows (triggeredActions this))) as Hactions.
  split; [exact Hfiles|]. split; [exact Hactions|].
  destruct Hfiles as (rest1 & Hperm1 & _ & _ & Hlen1 & _).
  destruct Hactions as (rest2 & Hperm2 & _ & _ & Hlen2 & _).
  split; [|split].
  - intros f Hf. apply elem_of_rows. rewrite <- Hperm1.
    apply elem_of_app. left. exact Hf.
  - intros a Ha. apply elem_of_rows. rewrite <- Hperm2.
    apply elem_of_app. left. exact Ha.
  - intros Hpos. rewrite <- !length_rows. split; [apply Hlen1 | apply Hlen2];
      exact Hpos.
Qed.

(** X4. [getAgentActivities] and [getSystemMetrics] filter before they
    sort and cut, and treat a falsy filter as no filter: a [fileId]
    other than 0 keeps the activities of that file, [fileId] 0 gives what
    no [fileId] gives, the activities of all files; a [metricName] other
    than the empty string keeps the metrics of that name, the empty string
    gives the metrics of all names.  What is kept is returned newest
    first, cut to [limit] (default 50). *)
Theorem filtered_rows_newest_first :
  forall limit this,
    (forall fileId, fileId <> 0 ->
       newest_first AgentActivity.timestamp (limit_or_50 limit)
         (List.filter (fun a => fileId_is fileId (AgentActivity.fileId a))
                      (rows (agentActivities this)))
         (getAgentActivities (Some fileId) limit this) /\
       forall a, a ∈ getAgentActivities (Some fileId) limit this ->
                 AgentActivity.fileId a = Some fileId) /\
    getAgentActivities (Some 0) limit this = getAgentActivities None limit this /\
    newest_first AgentActivity.timestamp (limit_or_50 limit)
      (rows (agentActivities this)) (getAgentActivities None limit this) /\
    (forall name, name <> "" ->
       newest_first SystemMetric.timestamp (limit_or_50 limit)
         (List.filter (fun m => String.eqb (SystemMetric.metricName m) name)
                      (rows (systemMetrics this)))
         (getSystemMetrics (Some name) limit this) /\
       forall m, m ∈ getSystemMetrics (Some name) limit this ->
                 SystemMetric.metricName m = name) /\
    getSystemMetrics (Some "") limit this = getSystemMetrics None limit this /\
    newest_first SystemMetric.timestamp (limit_or_50 limit)
      (rows (systemMetrics this)) (getSystemMetrics None limit this).
Proof.
  intros limit this.
  split; [|split; [reflexivity|split; [apply sort_slice_newest_first|]]].
  - intros fileId Hne. unfold getAgentActivities.
    rewrite (proj2 (Z.eqb_neq _ _) Hne).
    pose proof (sort_slice_newest_first AgentActivity.timestamp
                  (limit_or_50 limit)
                  (List.filter
                     (fun a => fileId_is fileId (AgentActivity.fileId a))
                     (rows (agentActivities this)))) as Hnewest.
    split; [exact Hnewest|].
    destruct Hnewest as (rest & Hperm & _).
    intros a Ha.
    assert (Hin : a ∈ List.filter
                        (fun a => fileId_is fileId (AgentActivity.fileId a))
                        (rows (agentActivities this))).
    { rewrite <- Hperm. apply elem_of_app. left. exact Ha. }
    apply list_elem_of_In, filter_In in Hin as [_ Hfile].
    destruct (AgentActivity.fileId a) as [n|]; [|discriminate].
    simpl in Hfile. apply Z.eqb_eq in Hfile. congruence.
  - split; [|split; [reflexivity | apply sort_slice_newest_first]].
    intros name Hne. unfold getSystemMetrics.
    rewrite (proj2 (String.eqb_neq _ _) Hne).
    pose proof (sort_slice_newest_first SystemMetric.timestamp
                  (limit_or_50 limit)
                  (List.filter
                     (fun m => String.eqb (SystemMetric.metricName m) name)
                     (rows (systemMetrics this)))) as Hnewest.
    split; [exact Hnewest|].
    destruct Hnewest as (rest & Hperm & _).
    intros m Hm.
    assert (Hin : m ∈ List.filter
                        (fun m => String.eqb (SystemMetric.metricName m) name)
                        (rows (systemMetrics this))).
    { rewrite <- Hperm. apply elem_of_app. left. exact Hm. }
    apply list_elem_of_In, filter_In in Hin as [_ Hname].
    apply String.eqb_eq, Hname.
Qed.

(** X5. [getProcessedFilesByStatus] and [getAgentActivitiesByAgent] return
    exactly the rows that match: a file is in the answer if and only if
    the table holds it under some id and its status is the one asked for,
    and likewise an activity and its agent name; nothing is cut off. *)
Theorem rows_by_status_and_agent :
  forall this,
    (forall status f,
       f ∈ getProcessedFilesByStatus status this <->
       (exists id, processedFiles this !! id = Some f) /\
       ProcessedFile.status f = status) /\
    (forall agentName a,
       a ∈ getAgentActivitiesByAgent agentName this <->
       (exists id, agentActivities this !! id = Some a) /\
       AgentActivity.agentName a = agentName).
Proof.
  intros this. split.
  - intros status f. unfold getProcessedFilesByStatus.
    rewrite list_elem_of_In, filter_In, <- list_elem_of_In, elem_of_rows.
    rewrite String.eqb_eq. reflexivity.
  - intros agentName a. unfold getAgentActivitiesByAgent.
    rewrite list_elem_of_In, filter_In, <- list_elem_of_In, elem_of_rows.
    rewrite String.eqb_eq. reflexivity.
Qed.

(** X6. [getLatestMetric] returns the newest metric of the name: for a
    name other than the empty string the answer is [undefined] exactly when
    the table holds no metric of that name, and otherwise it is a stored
    metric of that name whose timestamp no stored metric of that name
    exceeds.  For the empty string it is the newest metric of any name. *)
Theorem latest_metric_is_newest :
  forall this,
    (forall name, name <> "" ->
       match getLatestMetric name this with
       | None =>
           forall id m, systemMetrics this !! id = Some m ->
                        SystemMetric.metricName m <> name
       | Some latest =>
           (exists id, systemMetrics this !! id = Some latest) /\
           SystemMetric.metricName latest = name /\
           forall id m, systemMetrics this !! id = Some m ->
                        SystemMetric.metricName m = name ->
                        SystemMetric.timestamp m <= SystemMetric.timestamp latest
       end) /\
    match getLatestMetric "" this with
    | None => systemMetrics this = ∅
    | Some latest =>
        (exists id, systemMetrics this !! id = Some latest) /\
        forall id m, systemMetrics this !! id = Some m ->
                     SystemMetric.timestamp m <= SystemMetric.timestamp latest
    end.
Proof.
  intros this. split.
  - intros name Hne. unfold getLatestMetric, getSystemMetrics.
    rewrite (proj2 (String.eqb_neq _ _) Hne). simpl limit_or_50.
    rewrite head_slice_to_1.
    pose proof (head_sort_newest SystemMetric.timestamp
                  (List.filter
                     (fun m => String.eqb (SystemMetric.metricName m) name)
                     (rows (systemMetrics this)))) as Hhead.
    destruct (head _) as [latest|].
    + destruct Hhead as [Hin Hmax].
      apply list_elem_of_In, filter_In in Hin as [Hin Hname].
      apply list_elem_of_In, elem_of_rows in Hin. apply String.eqb_eq in Hname.
      split; [exact Hin|]. split; [exact Hname|].
      intros id m Hm Hmname. apply Hmax.
      apply list_elem_of_In, filter_In. split.
      * apply list_elem_of_In, elem_of_rows. eauto.
      * apply String.eqb_eq, Hmname.
    + intros id m Hm Hmname.
      assert (Hin : In m (List.filter
                            (fun m => String.eqb (SystemMetric.metricName m) name)
                            (rows (systemMetrics this)))).
      { apply filter_In. split.
        - apply list_elem_of_In, elem_of_rows. eauto.
        - apply String.eqb_eq, Hmname. }
      rewrite Hhead in Hin. destruct Hin.
  - unfold getLatestMetric, getSystemMetrics. simpl.
    rewrite head_slice_to_1.
    pose proof (head_sort_newest SystemMetric.timestamp
                  (rows (systemMetrics this))) as Hhead.
    destruct (head _) as [latest|].
    + destruct Hhead as [Hin Hmax]. apply elem_of_rows in Hin.
      split; [exact Hin|]. intros id m Hm. apply Hmax, elem_of_rows. eauto.
    + apply map_size_empty_inv. rewrite <- length_rows, Hhead. reflexivity.
Qed.

Lemma omap_lookup_insert_ne {A : Type} (m : gmap Z A) (key : Z) (x : A)
  (l : list Z) :
  key ∉ l ->
  omap (fun id => <[key := x]> m !! id) l = omap (fun id => m !! id) l.
Proof.
  intros Hout. apply list_omap_ext, Forall_Forall2_diag, Forall_forall.
  intros k Hk. apply lookup_insert_ne. intros ->. exact (Hout Hk).
Qed.

(** A row created under a fresh id comes last. *)
Lemma rows_insert_fresh {A : Type} (m : gmap Z A) (id : Z) (x : A) :
  (forall k, is_Some (m !! k) -> k < id) ->
  rows (<[id := x]> m) = rows m ++ [x].
Proof.
  intros Hbelow. unfold rows. rewrite (ids_insert_fresh m id x Hbelow).
  rewrite omap_app. simpl. rewrite lookup_insert_eq. f_equal.
  apply omap_lookup_insert_ne. intros Hin.
  apply elem_of_ids, Hbelow in Hin. lia.
Qed.

Lemma find_append {A : Type} (P : A -> bool) (l1 l2 : list A) :
  List.find P (l1 ++ l2) =
  match List.find P l1 with Some x => Some x | None => List.find P l2 end.
Proof.
  induction l1 as [|x l1 IH]; simpl; [reflexivity|].
  destruct (P x); [reflexivity | exact IH].
Qed.

(** The first match in a table is the one with the least id. *)
Lemma find_rows_least {A : Type} (P : A -> bool) (m : gmap Z A) (x : A) :
  List.find P (rows m) = Some x ->
  exists id, m !! id = Some x /\ P x = true /\
             forall id' x', m !! id' = Some x' -> P x' = true -> id <= id'.
Proof.
  unfold rows.
  assert (Hgen : forall l,
            StronglySorted Z.le l ->
            List.find P (omap (fun id => m !! id) l) = Some x ->
            exists id, id ∈ l /\ m !! id = Some x /\ P x = true /\
              forall id' x', id' ∈ l -> m !! id' = Some x' -> P x' = true ->
                             id <= id').
  { induction 1 as [|k l Hsorted IH Hall]; simpl; [discriminate|].
    rewrite Forall_forall in Hall.
    destruct (m !! k) as [y|] eqn:Hk; simpl.
    - destruct (P y) eqn:HP.
      + intros [= <-]. exists k. split; [left|]. split; [exact Hk|].
        split; [exact HP|]. intros id' x' Hin _ _.
        apply elem_of_cons in Hin as [-> | Hin]; [lia | apply Hall, Hin].
      + intros Hfind. destruct (IH Hfind) as (id & Hin & Hid & HPx & Hleast).
        exists id. split; [by right|]. split; [exact Hid|]. split; [exact HPx|].
        intros id' x' Hin' Hid' HP'.
        apply elem_of_cons in Hin' as [-> | Hin']; [congruence|].
        eapply Hleast; eassumption.
    - intros Hfind. destruct (IH Hfind) as (id & Hin & Hid & HPx & Hleast).
      exists id. split; [by right|]. split; [exact Hid|]. split; [exact HPx|].
      intros id' x' Hin' Hid' HP'.
      apply elem_of_cons in Hin' as [-> | Hin']; [congruence|].
      eapply Hleast; eassumption. }
  intros Hfind.
  destruct (Hgen (ids m) (ids_sorted m) Hfind) as (id & _ & Hid & HP & Hleast).
  exists id. split; [exact Hid|]. split; [exact HP|].
  intros id' x' Hid' HP'. eapply Hleast; [|eassumption..].
  apply elem_of_ids. eauto.
Qed.

(** X7. [getUserByUsername] finds the first user registered under a name,
    and [createUser] does not check the name: the answer is [undefined]
    exactly when no stored user has the name; otherwise it is the stored
    user of that name with the least id; and after [createUser] with a
    name that is taken the query still answers with the earlier user,
    while with a free name it answers with the new one. *)
Theorem first_user_of_a_name :
  forall username this,
    (getUserByUsername username this = None <->
     forall id user, users this !! id = Some user ->
                     User.username user <> username) /\
    (forall user,
       getUserByUsername username this = Some user ->
       exists id,
         users this !! id = Some user /\ User.username user = username /\
         forall id' user', users this !! id' = Some user' ->
                           User.username user' = username -> id <= id') /\
    (forall password,
       (forall id, is_Some (users this !! id) -> id < currentId this) ->
       let created :=
         createUser (InsertUser.mk username password) this in
       getUserByUsername username (snd created) =
       match getUserByUsername username this with
       | Some earlier => Some earlier
       | None => Some (fst created)
       end).
Proof.
  intros username this. unfold getUserByUsername. split; [|split].
  - split.
    + intros Hnone id user Hid Hname.
      assert (Hin : In user (rows (users this)))
        by (apply list_elem_of_In, elem_of_rows; eauto).
      pose proof (find_none _ _ Hnone user Hin) as Hno. simpl in Hno.
      apply String.eqb_neq in Hno. contradiction.
    + intros Hfree.
      destruct (List.find _ _) as [user|] eqn:Hfind; [|reflexivity].
      apply find_some in Hfind as [Hin Hname].
      apply list_elem_of_In, elem_of_rows in Hin as [id Hid].
      apply String.eqb_eq in Hname. destruct (Hfree id user Hid Hname).
  - intros user Hfind.
    destruct (find_rows_least _ _ _ Hfind) as (id & Hid & Hname & Hleast).
    exists id. split; [exact Hid|]. split; [apply String.eqb_eq, Hname|].
    intros id' user' Hid' Hname'. apply (Hleast id' user' Hid').
    apply String.eqb_eq, Hname'.
  - intros password Hbelow. simpl.
    rewrite (rows_insert_fresh (users this) (currentId this) _ Hbelow).
    rewrite find_append. destruct (List.find _ (rows (users this))); [reflexivity|].
    simpl. rewrite String.eqb_refl. reflexivity.
Qed.

(** ** Updates, once more *)

Lemma spread_spread {A : Type} (x : A) (u : option A) :
  spread (spread x u) u = spread x u.
Proof. destruct u; reflexivity. Qed.

Lemma ProcessedFile_assign_twice existing updates :
  ProcessedFile_assign (ProcessedFile_assign existing updates) updates =
  ProcessedFile_assign existing updates.
Proof. unfold ProcessedFile_assign. simpl. rewrite !spread_spread. reflexivity. Qed.

Lemma TriggeredAction_assign_twice existing updates :
  TriggeredAction_assign (TriggeredAction_assign existing updates) updates =
  TriggeredAction_assign existing updates.
Proof.
  unfold TriggeredAction_assign. simpl. rewrite !spread_spread. reflexivity.
Qed.

Lemma MemStorage_eq (this this' : MemStorage) :
  users this = users this' -> processedFiles this = processedFiles this' ->
  agentActivities this = agentActivities this' ->
  triggeredActions this = triggeredActions this' ->
  systemMetrics this = systemMetrics this' ->
  currentId this = currentId this' -> this = this'.
Proof. destruct this, this'. simpl. intros; subst; reflexivity. Qed.

(** X8. An update done twice is the update done once, and an update that
    names no property changes nothing: for [updateProcessedFile] and
    [updateTriggeredAction], repeating a call with the same id and the
    same [updates] gives the same answer and leaves the store as the first
    call left it, and a call with the empty [updates] returns the stored
    row and leaves the store as it was. *)
Theorem update_twice_is_update_once :
  (forall id updates this,
     let once := updateProcessedFile id updates this in
     updateProcessedFile id updates (snd once) = (fst once, snd once)) /\
  (forall id updates this,
     let once := updateTriggeredAction id updates this in
     updateTriggeredAction id updates (snd once) = (fst once, snd once)) /\
  (forall id existing this,
     processedFiles this !! id = Some existing ->
     updateProcessedFile id PartialProcessedFile.empty this
       = (Returned existing, this)) /\
  (forall id existing this,
     triggeredActions this !! id = Some existing ->
     updateTriggeredAction id
       (PartialTriggeredAction.mk None None None None None None None None None)
       this = (Returned existing, this)).
Proof.
  split; [|split; [|split]].
  - intros id updates this. simpl. unfold updateProcessedFile.
    destruct (processedFiles this !! id) as [existing|] eqn:Hget; simpl.
    + rewrite lookup_insert_eq, ProcessedFile_assign_twice. f_equal.
      apply MemStorage_eq; simpl; try reflexivity. apply insert_insert_eq.
    + rewrite Hget. reflexivity.
  - intros id updates this. simpl. unfold updateTriggeredAction.
    destruct (triggeredActions this !! id) as [existing|] eqn:Hget; simpl.
    + rewrite lookup_insert_eq, TriggeredAction_assign_twice. f_equal.
      apply MemStorage_eq; simpl; try reflexivity. apply insert_insert_eq.
    + rewrite Hget. reflexivity.
  - intros id existing this Hget. unfold updateProcessedFile. rewrite Hget.
    assert (Hsame : ProcessedFile_assign existing PartialProcessedFile.empty
                    = existing) by (destruct existing; reflexivity).
    rewrite Hsame. f_equal.
    apply MemStorage_eq; simpl; try reflexivity. apply insert_id, Hget.
  - intros id existing this Hget. unfold updateTriggeredAction. rewrite Hget.
    assert (Hsame : TriggeredAction_assign existing
                      (PartialTriggeredAction.mk None None None None None None
                                                 None None None)
                    = existing) by (destruct existing; reflexivity).
    rewrite Hsame. f_equal.
    apply MemStorage_eq; simpl; try reflexivity. apply insert_id, Hget.
Qed.

Lemma exec_ids_are_keys now c this :
  keeps_id c = true -> ids_are_keys this ->
  ids_are_keys (snd (exec now c this)).
Proof.
  intros Hkeeps (Husers & Hfiles & Hacts & Hactions & Hmetrics).
  destruct c; simpl in *; try (repeat split; assumption);
    try (repeat split; try assumption; intros key r; simpl;
         rewrite lookup_insert; case_decide as Hkey;
         [intros [= <-]; simpl; congruence | auto]).
  - unfold updateProcessedFile.
    destruct (processedFiles this !! id) as [existing|] eqn:Hget; simpl;
      [|repeat split; assumption].
    repeat split; try assumption. intros key r. simpl.
    rewrite lookup_insert. case_decide as Hkey; [|auto].
    intros [= <-]. simpl.
    destruct (PartialProcessedFile.id updates); [discriminate|]. simpl.
    subst key. apply Hfiles, Hget.
  - unfold updateTriggeredAction.
    destruct (triggeredActions this !! id) as [existing|] eqn:Hget; simpl;
      [|repeat split; assumption].
    repeat split; try assumption. intros key r. simpl.
    rewrite lookup_insert. case_decide as Hkey; [|auto].
    intros [= <-]. simpl.
    destruct (PartialTriggeredAction.id updates); [discriminate|]. simpl.
    subst key. apply Hactions, Hget.
Qed.

(** X9. A row knows its key unless an update says otherwise: along every
    sequence of calls on a new store in which no update names the property
    [id], the [id] column of every row of every table is the key the row
    is stored under (an update that names [id] writes the column and
    leaves the row under its old key). *)
Theorem id_column_is_key :
  forall calls,
    forallb (fun call => keeps_id (snd call)) calls = true ->
    ids_are_keys (snd (run_calls calls MemStorage_new)).
Proof.
  intros calls.
  assert (Hgen : forall this,
            forallb (fun call => keeps_id (snd call)) calls = true ->
            ids_are_keys this -> ids_are_keys (snd (run_calls calls this))).
  { induction calls as [|[now c] rest IH]; intros this Hall Hkeys.
    - exact Hkeys.
    - simpl in Hall. apply andb_true_iff in Hall as [Hc Hrest].
      rewrite run_calls_cons. simpl.
      apply IH; [exact Hrest | apply exec_ids_are_keys; assumption]. }
  intros Hall. apply Hgen; [exact Hall|].
  repeat split; intros key r Hr; simpl in Hr; rewrite lookup_empty in Hr;
    discriminate.
Qed.

(** The hypothesis of [id_column_is_key] is needed: [{ id: 7 }] leaves
    the row under key 1 with 7 in its [id] column. *)
Example update_of_id_breaks_key :
  let this :=
    snd (run_calls
           [(10, call_createProcessedFile (pending_file example_file "PDF"));
            (20, call_updateProcessedFile 1 updates_id_7)] MemStorage_new) in
  ProcessedFile.id <$> getProcessedFile 1 this = Some 7 /\
  getProcessedFile 7 this = None.
Proof. vm_compute. split; reflexivity. Qed.

(** * The routes, further *)

(** X10. [processFileWithAI] on an id without a row gives up without a
    trace in the store: the first update throws, the [catch] block passes
    the text "Processing error:" and the error it caught to
    [console.error], and its own update throws as well, so the promise is
    rejected with an error of the same message and nobody handles it (which
    ends a Node process that runs with the default settings); up to then
    the store and the running children are as they were, no activity is
    recorded and nothing is spawned.  The id is an integer a double holds
    exactly, so that the message spells it out in decimal digits. *)
Theorem processFileWithAI_without_row :
  forall e fileId filePath fileType w,
    - 2 ^ 53 <= fileId <= 2 ^ 53 ->
    processedFiles (storage w) !! fileId = None ->
    exists w',
      run_macrotask 3 (processFileWithAI e fileId filePath fileType) w
        = Some w' /\
      storage w' = storage w /\
      children w' = children w /\
      log w' =
        log w ++
        [ConsoleErrorWith "Processing error:"
           (MkError ("ProcessedFile with id " +:+ pretty fileId
                     +:+ " not found"));
         UnhandledRejection
           (MkError ("ProcessedFile with id " +:+ pretty fileId
                     +:+ " not found"))].
Proof.
  intros e fileId filePath fileType w _ Hmissing.
  unfold run_macrotask, processFileWithAI. simpl.
  unfold storage_updateProcessedFile, updateProcessedFile. simpl.
  rewrite Hmissing. simpl.
  unfold storage_updateProcessedFile, updateProcessedFile. simpl.
  rewrite Hmissing. simpl.
  eexists. split; [reflexivity|]. simpl.
  rewrite <- app_assoc. repeat split.
Qed.

Lemma processFileWithAI_without_row_witness :
  - 2 ^ 53 <= 5 <= 2 ^ 53 /\
  processedFiles (storage boot) !! 5 = None /\
  exists w',
    run_macrotask 3 (processFileWithAI example_env 5 "uploads/3f2a9c" "PDF") boot
      = Some w' /\
    storage w' = storage boot /\
    log w' =
      [ConsoleErrorWith "Processing error:"
         (MkError "ProcessedFile with id 5 not found");
       UnhandledRejection (MkError "ProcessedFile with id 5 not found")].
Proof.
  assert (Hsafe : - 2 ^ 53 <= 5 <= 2 ^ 53) by lia.
  assert (Hmissing : processedFiles (storage boot) !! 5 = None)
    by (vm_compute; reflexivity).
  split; [exact Hsafe|]. split; [exact Hmissing|].
  destruct (processFileWithAI_without_row
              example_env 5 "uploads/3f2a9c" "PDF" boot Hsafe Hmissing)
    as (w' & Hrun & Hstore & _ & Hlog).
  exists w'. split; [exact Hrun|]. split; [exact Hstore|].
  rewrite Hlog. reflexivity.
Defined.

(** X11. Every upload request gets exactly one answer, and never the 500
    of the [catch] block: in the turn that handles the request one
    response is sent; it is 400 "No file uploaded" when the request carries
    no file, 400 "Unsupported file type" when the extension has no format,
    and 200 otherwise; the store is written only in the last case. *)
Theorem upload_answers_once :
  forall e req_file w,
    exists w' new,
      run_macrotask 4 (upload e req_file) w = Some w' /\
      log w' = log w ++ new /\
      List.filter is_response new =
        [match req_file with
         | None => Responded 400 (JObj [("error", JStr "No file uploaded")])
         | Some file =>
             match fileType_of_extension
                     (toLowerCase (extname (MulterFile.originalname file))) with
             | None => Responded 400 unsupported_body
             | Some _ => Responded 200 (accepted_body (currentId (storage w)))
             end
         end] /\
      (match req_file with
       | None => True
       | Some file =>
           fileType_of_extension
             (toLowerCase (extname (MulterFile.originalname file))) = None
       end -> storage w' = storage w).
Proof.
  intros e [file|] w.
  - destruct (fileType_of_extension
                (toLowerCase (extname (MulterFile.originalname file))))
      as [fileType|] eqn:Hty.
    + exists (after_upload e file fileType w).
      pose proof (upload_accepted_run e file fileType 0 w Hty) as Hrun.
      unfold after_upload in *. simpl in *.
      destruct (spawn_throws e); simpl in *;
        (eexists; split; [exact Hrun|]; split; [reflexivity|]);
        (split; [reflexivity | discriminate]).
    + exists (emit (Responded 400 unsupported_body) w), [Responded 400 unsupported_body].
      split; [apply (upload_unsupported_run e file 4 w Hty)|].
      repeat split.
  - eexists (emit _ w), [_].
    split; [apply (upload_no_file_run e 4 w)|]. repeat split.
Qed.

(** ** What the routes leave in the store *)

Lemma plain_boot : plain boot.
Proof.
  split; simpl; try reflexivity;
    intros id x Hx; rewrite lookup_empty in Hx; discriminate.
Qed.

Lemma fileType_of_extension_format ext fileType :
  fileType_of_extension ext = Some fileType ->
  In fileType ["PDF"; "Email"; "JSON"].
Proof.
  destruct (fileType_of_extension_cases ext)
    as [[_ ->]|[[_ ->]|[[_ ->]|[_ ->]]]]; intros [= <-]; simpl; auto.
Qed.

(** The rows an accepted upload writes, column by column. *)
Lemma after_upload_rows e file fileType w :
  let fileId := currentId (storage w) in
  let w' := after_upload e file fileType w in
  exists row a new,
    processedFiles (storage w') = <[fileId := row]> (processedFiles (storage w)) /\
    agentActivities (storage w') =
      <[fileId + 1 := a]> (agentActivities (storage w)) /\
    log w' = log w ++ new /\
    List.filter is_failure new = [] /\
    length (List.filter is_accepted new) = 1%nat /\
    (ProcessedFile.id row = fileId /\
     ProcessedFile.fileType row = fileType /\
     is_Some (ProcessedFile.processedAt row) /\
     ProcessedFile.classificationResult row = JNull /\
     ProcessedFile.extractedData row = JNull /\
     ProcessedFile.businessIntent row = None /\
     ProcessedFile.priority row = Some "low" /\
     ProcessedFile.agentAssigned row = None) /\
    (AgentActivity.id a = fileId + 1 /\
     AgentActivity.fileId a = Some fileId /\
     AgentActivity.output a = JNull /\
     AgentActivity.processingTime a = None).
Proof.
  unfold after_upload. simpl.
  destruct (spawn_throws e) as [error|]; simpl; do 3 eexists;
    rewrite ?insert_insert_eq;
    (split; [reflexivity|]); (split; [reflexivity|]);
    (split; [reflexivity|]); simpl; repeat split; eauto.
Qed.

Lemma plain_after_upload e file fileType w :
  fileType_of_extension
    (toLowerCase (extname (MulterFile.originalname file))) = Some fileType ->
  consistent w -> plain w -> plain (after_upload e file fileType w).
Proof.
  intros Hty Hc Hp.
  pose proof (after_upload_storage e file fileType w) as Hs. simpl in Hs.
  destruct Hs as (_ & _ & _ & _ & Husers & Hactions & Hmetrics).
  destruct (after_upload_rows e file fileType w)
    as (row & a & new & Hfiles & Hacts & Hlog & Hquiet & Hone & Hrow & Ha).
  simpl in *.
  set (fileId := currentId (storage w)) in *.
  assert (Hfresh : processedFiles (storage w) !! fileId = None).
  { destruct (processedFiles (storage w) !! fileId) eqn:E; [|reflexivity].
    pose proof (files_below_counter w Hc fileId (ex_intro _ _ E)). lia. }
  assert (Hfresh' : agentActivities (storage w) !! (fileId + 1) = None).
  { destruct (agentActivities (storage w) !! (fileId + 1)) eqn:E;
      [|reflexivity].
    pose proof (activities_below w Hc (fileId + 1) (ex_intro _ _ E)). lia. }
  destruct Hp as [P1 P2 P3 P4 P5 P6 P7 P8].
  split.
  - rewrite Husers. exact P1.
  - rewrite Hactions. exact P2.
  - rewrite Hmetrics. exact P3.
  - intros id f. rewrite Hfiles, lookup_insert. case_decide as Hid.
    + intros [= <-]. subst id.
      destruct Hrow as (? & Hft & ? & ? & ? & ? & ? & ?).
      repeat split; try assumption.
      rewrite Hft. eapply fileType_of_extension_format, Hty.
    + apply P4.
  - intros id a'. rewrite Hacts, Hfiles, lookup_insert. case_decide as Hid.
    + intros [= <-]. subst id. destruct Ha as (? & ? & ? & ?).
      replace (fileId + 1 - 1) with fileId by lia.
      rewrite lookup_insert_eq. repeat split; eauto.
    + intros Ha'. destruct (P5 id a' Ha') as (? & ? & Hfile & ? & ?).
      repeat split; try assumption.
      rewrite lookup_insert. case_decide; [eauto | exact Hfile].
  - rewrite Hlog, List.filter_app, P6, Hquiet. reflexivity.
  - rewrite Hlog, List.filter_app, length_app, P7, Hone, Hfiles.
    rewrite (map_size_insert_None _ _ _ Hfresh). lia.
  - rewrite Hacts, Hfiles, (map_size_insert_None _ _ _ Hfresh),
      (map_size_insert_None _ _ _ Hfresh'), P8. reflexivity.
Qed.

Lemma plain_emit ev w :
  is_failure ev = false -> is_accepted ev = false -> plain w ->
  plain (emit ev w).
Proof.
  intros Hquiet Hno [P1 P2 P3 P4 P5 P6 P7 P8].
  split; try assumption; unfold emit; simpl;
    rewrite List.filter_app; simpl; rewrite ?Hquiet, ?Hno, app_nil_r;
    assumption.
Qed.

Lemma plain_before i w : plain w -> plain (before i w).
Proof. intros [P1 P2 P3 P4 P5 P6 P7 P8]. destruct i; split; assumption. Qed.

Lemma plain_mark_failed w fileId existing text :
  plain w ->
  processedFiles (storage w) !! fileId = Some existing ->
  plain
    {| storage :=
         set_processedFiles
           (<[fileId := ProcessedFile_assign existing updates_failed]>
              (processedFiles (storage w))) (storage w);
       children := children w;
       log := (log w ++ [ConsoleError text])
              ++ [UpdatedProcessedFile fileId updates_failed] |}.
Proof.
  intros [P1 P2 P3 P4 P5 P6 P7 P8] Hget.
  split; simpl; try assumption.
  - intros id f. rewrite lookup_insert. case_decide as Hid; [|apply P4].
    intros [= <-]. subst id. simpl. apply (P4 fileId existing Hget).
  - intros id a Ha. destruct (P5 id a Ha) as (? & ? & Hfile & ? & ?).
    repeat split; try assumption.
    rewrite lookup_insert. case_decide; [eauto | exact Hfile].
  - rewrite !List.filter_app. simpl. rewrite P6. reflexivity.
  - rewrite !List.filter_app, !length_app. simpl.
    rewrite map_size_insert_Some by eauto. lia.
  - rewrite map_size_insert_Some by eauto. exact P8.
Qed.

Lemma plain_step w w' : consistent w -> plain w -> step w w' -> plain w'.
Proof.
  intros Hc Hp [e i fuel w'' Hen Hrun].
  destruct i as [[file|]|fileId data|fileId data|fileId code].
  - destruct (fileType_of_extension
                (toLowerCase (extname (MulterFile.originalname file))))
      as [fileType|] eqn:Hty.
    + finished_as Hrun (upload_accepted_run e file fileType 0 _ Hty).
      apply plain_after_upload; assumption.
    + finished_as Hrun (upload_unsupported_run e file 0 _ Hty).
      apply plain_emit; [reflexivity | reflexivity | exact Hp].
  - finished_as Hrun (upload_no_file_run e 0 _).
    apply plain_emit; [reflexivity | reflexivity | exact Hp].
  - finished_as Hrun (on_stdout_data_run data 0 _).
    apply plain_emit; [reflexivity | reflexivity | exact Hp].
  - finished_as Hrun (on_stderr_data_run data 0 _).
    apply plain_emit; [reflexivity | reflexivity | exact Hp].
  - simpl in Hen.
    destruct (children_running w Hc fileId Hen) as (f & Hf & _).
    pose proof (plain_before (ChildClose fileId code) w Hp) as Hp0.
    finished_as Hrun (on_close_run fileId code 0 _).
    pose proof (fun text => plain_mark_failed _ fileId f text Hp0 Hf) as Hfail.
    change (processedFiles (storage (before (ChildClose fileId code) w)))
      with (processedFiles (storage w)).
    rewrite Hf.
    destruct code as [[| |]|]; try apply Hfail.
    apply plain_emit; [reflexivity | reflexivity | exact Hp0].
Qed.

Lemma reachable_plain w : reachable w -> plain w.
Proof.
  induction 1 as [|w w' Hreach IH Hstep].
  - apply plain_boot.
  - eapply plain_step; [apply reachable_consistent| |]; eassumption.
Qed.

(** X12. The routes store no result of the analysis: in every state the
    server reaches through uploads and events of the child processes (the
    other routes only read the store), the tables of users, triggered
    actions and metrics are empty; every file row has its key as id, one of the three formats,
    a [processedAt] time, no classification result, no extracted data, no
    business intent, no assigned agent, and priority "low"; and every
    activity is the one recorded for the file created just before it (its
    id is the id of the file plus one), with no output and no processing
    time. *)
Theorem routes_store_no_results :
  forall w, reachable w ->
    users (storage w) = ∅ /\
    triggeredActions (storage w) = ∅ /\
    systemMetrics (storage w) = ∅ /\
    (forall id f, processedFiles (storage w) !! id = Some f ->
       ProcessedFile.id f = id /\
       In (ProcessedFile.fileType f) ["PDF"; "Email"; "JSON"] /\
       is_Some (ProcessedFile.processedAt f) /\
       ProcessedFile.classificationResult f = JNull /\
       ProcessedFile.extractedData f = JNull /\
       ProcessedFile.businessIntent f = None /\
       ProcessedFile.priority f = Some "low" /\
       ProcessedFile.agentAssigned f = None) /\
    (forall id a, agentActivities (storage w) !! id = Some a ->
       AgentActivity.id a = id /\
       AgentActivity.fileId a = Some (id - 1) /\
       is_Some (processedFiles (storage w) !! (id - 1)) /\
       AgentActivity.output a = JNull /\
       AgentActivity.processingTime a = None).
Proof.
  intros w Hreach.
  destruct (reachable_plain w Hreach) as [P1 P2 P3 P4 P5 _ _ _]. auto.
Qed.

(** X13. No error is left unhandled: in every state the server reaches
    through uploads and events of the child processes, the log holds no
    rejected promise that nobody awaits (the [close] listener always finds
    the row it marks), and no upload has been answered with anything other
    than 200 and 400 (the [catch] block of the upload handler never
    runs). *)
Theorem no_unhandled_failure :
  forall w, reachable w ->
  forall ev, ev ∈ log w ->
    match ev with
    | UnhandledRejection _ => False
    | Responded status _ => status = 200 \/ status = 400
    | _ => True
    end.
Proof.
  intros w Hreach ev Hin.
  pose proof (plain_log w (reachable_plain w Hreach)) as Hnone.
  assert (Hev : is_failure ev = false).
  { destruct (is_failure ev) eqn:E; [|reflexivity].
    assert (Hin' : In ev (List.filter is_failure (log w)))
      by (apply filter_In; split; [apply list_elem_of_In, Hin | exact E]).
    rewrite Hnone in Hin'. destruct Hin'. }
  destruct ev; simpl in Hev; try exact I; try discriminate.
  apply negb_false_iff, orb_true_iff in Hev as [H|H]; apply Z.eqb_eq in H; auto.
Qed.

Lemma filter_none {A : Type} (P : A -> bool) (l : list A) :
  (forall x, x ∈ l -> P x = false) -> List.filter P l = [].
Proof.
  induction l as [|x l IH]; intros Hall; [reflexivity|]. simpl.
  rewrite (Hall x) by left. apply IH. intros y Hy. apply Hall. by right.
Qed.

Lemma sum_of_nulls (l : list AgentActivity.t) :
  (forall a, a ∈ l -> AgentActivity.processingTime a = None) ->
  total_processing_time l = Num 0.
Proof.
  unfold total_processing_time.
  induction l as [|a l IH]; intros Hall; [reflexivity|].
  simpl. rewrite (Hall a) by left.
  change (js_add (Num 0) (Num (inject_Z (or_else None 0)))) with (Num 0).
  apply IH. intros y Hy. apply Hall. by right.
Qed.

(** X14. What the dashboard can show: in every state the server reaches
    through uploads and events of the child processes,
    [getDashboardStats] reports a success rate of 0 (no route ever
    writes [completed]) and an average processing time of 0 (no activity
    carries one); [totalProcessed] is the number of uploads that were
    answered with 200; and [activeAgents] is the default 4 before the
    first accepted upload and 1 after it. *)
Theorem dashboard_of_the_routes :
  forall w today, reachable w ->
    let stats := getDashboardStats today (storage w) in
    number_is (successRate stats) 0 = true /\
    number_is (averageProcessingTime stats) 0 = true /\
    totalProcessed stats = length (List.filter is_accepted (log w)) /\
    activeAgents stats =
      (if decide (processedFiles (storage w) = ∅) then 4%nat else 1%nat).
Proof.
  intros w today Hreach.
  pose proof (reachable_consistent w Hreach) as Hc.
  pose proof (reachable_plain w Hreach) as Hp.
  unfold getDashboardStats.
  cbn [successRate averageProcessingTime activeAgents totalProcessed
         processedToday].
  assert (Hcompleted :
            List.filter
              (fun f => String.eqb (ProcessedFile.status f) "completed")
              (rows (processedFiles (storage w))) = []).
  { apply filter_none. intros f [id Hf]%elem_of_rows.
    destruct (files_lifecycle w Hc id f Hf) as [[_ ->]|[(_ & -> & _)|(_ & -> & _)]];
      reflexivity. }
  assert (Htimes :
            total_processing_time (rows (agentActivities (storage w)))
            = Num 0).
  { apply sum_of_nulls. intros a [id Ha]%elem_of_rows.
    apply (plain_activities w Hp id a Ha). }
  assert (Hzero : below_threshold (Num 0))
    by (split; vm_compute; reflexivity).
  rewrite Hcompleted, Htimes.
  split; [|split; [|split]].
  - destruct (0 <? length (rows (processedFiles (storage w))))%nat eqn:E;
      [|reflexivity].
    rewrite (percentage_finite 0) by (exact E || (simpl; lia)).
    reflexivity.
  - destruct (0 <? length (rows (agentActivities (storage w))))%nat eqn:E;
      [|reflexivity].
    rewrite js_div_by_length by assumption. reflexivity.
  - rewrite length_rows. symmetry. apply (plain_accepted w Hp).
  - case_decide as Hempty.
    + assert (Hacts : agentActivities (storage w) = ∅).
      { apply map_empty. intros id.
        destruct (agentActivities (storage w) !! id) as [a|] eqn:Ha;
          [|reflexivity].
        destruct (plain_activities w Hp id a Ha) as (_ & _ & [f Hf] & _).
        rewrite Hempty, lookup_empty in Hf. discriminate. }
      rewrite Hacts, rows_empty. reflexivity.
    + assert (Hnames :
                (list_to_set (AgentActivity.agentName
                                <$> rows (agentActivities (storage w)))
                   : gset string) = {["Classifier Agent"]}).
      { apply set_eq. intros name.
        rewrite elem_of_list_to_set, list_elem_of_fmap, elem_of_singleton.
        split.
        - intros (a & -> & [id Ha]%elem_of_rows).
          apply (activities_start w Hc id a Ha).
        - intros ->.
          destruct (map_choose _ Hempty) as (id & f & Hf).
          destruct (files_logged w Hc id f Hf) as (a & Ha & _).
          exists a. split.
          + symmetry. apply (activities_start w Hc _ a Ha).
          + apply elem_of_rows. eauto. }
      rewrite Hnames, size_singleton. reflexivity.
Qed.

(** ** Rows that are settled *)

Lemma step_keeps_settled_row w w' id f :
  consistent w -> step w w' ->
  processedFiles (storage w) !! id = Some f -> id ∉ children w ->
  processedFiles (storage w') !! id = Some f /\ id ∉ children w'.
Proof.
  intros Hc [e i fuel w'' Hen Hrun] Hf Hout.
  destruct i as [[file|]|fileId data|fileId data|fileId code].
  - destruct (fileType_of_extension
                (toLowerCase (extname (MulterFile.originalname file))))
      as [fileType|] eqn:Hty.
    + finished_as Hrun (upload_accepted_run e file fileType 0 _ Hty).
      pose proof (after_upload_storage e file fileType w) as Hs. simpl in Hs.
      destruct Hs as (_ & (row & Hfiles & _) & _ & Hchildren & _).
      simpl. rewrite Hfiles, Hchildren.
      assert (Hne : currentId (storage w) <> id).
      { pose proof (files_below_counter w Hc id (ex_intro _ _ Hf)). lia. }
      rewrite lookup_insert_ne by exact Hne. split; [exact Hf|].
      destruct (spawn_throws e); [exact Hout|].
      rewrite elem_of_app, list_elem_of_singleton. intros [?|?]; congruence.
    + finished_as Hrun (upload_unsupported_run e file 0 _ Hty). auto.
  - finished_as Hrun (upload_no_file_run e 0 _). auto.
  - finished_as Hrun (on_stdout_data_run data 0 _). auto.
  - finished_as Hrun (on_stderr_data_run data 0 _). auto.
  - simpl in Hen. assert (Hne : fileId <> id) by congruence.
    assert (Hout' : id ∉ List.filter (fun c => negb (c =? fileId)) (children w)).
    { rewrite list_elem_of_In, filter_In, <- list_elem_of_In. tauto. }
    finished_as Hrun (on_close_run fileId code 0 _).
    destruct code as [[| |]|]; simpl;
      try (split; [exact Hf | exact Hout']);
      destruct (processedFiles (storage w) !! fileId); simpl;
      rewrite ?lookup_insert_ne by exact Hne; split; assumption.
Qed.

(** X15. A row whose child process has gone never changes again: in a
    state the server reaches through uploads and events of the child
    processes, take a file that has no running child
    (its process has exited, or [spawn] threw); then in every state
    reachable from there the table holds the very same row under its id.
    In particular, when the child of a file exits with code 0 the row
    stays as it is, with status [processing], in that turn and ever
    after. *)
Theorem settled_row_never_changes :
  forall w, reachable w ->
    (forall id f,
       processedFiles (storage w) !! id = Some f -> (id ∉ children w) ->
       forall w', rtc step w w' ->
         processedFiles (storage w') !! id = Some f) /\
    (forall e id,
       id ∈ children w ->
       let w1 := turn e (ChildClose id (Some 0)) w in
       step w w1 /\ (id ∉ children w1) /\
       exists f, processedFiles (storage w1) !! id = Some f /\
                 processedFiles (storage w) !! id = Some f /\
                 ProcessedFile.status f = "processing").
Proof.
  intros w Hreach. split.
  - intros id f Hf Hout w' Hsteps.
    pose proof (reachable_consistent w Hreach) as Hc.
    assert (Hgen : consistent w' /\
                   processedFiles (storage w') !! id = Some f /\
                   id ∉ children w').
    { clear Hreach. induction Hsteps as [w|w w1 w2 Hstep _ IH]; [auto|].
      destruct (step_keeps_settled_row w w1 id f Hc Hstep Hf Hout)
        as [Hf1 Hout1].
      apply IH; [exact Hf1 | exact Hout1 | eapply consistent_step; eassumption]. }
    apply Hgen.
  - intros e id Hin w1. subst w1.
    pose proof (reachable_consistent w Hreach) as Hc.
    destruct (children_running w Hc id Hin) as (f & Hf & Hstatus & _).
    split; [apply turn_step, Hin|].
    pose proof (turn_run e (ChildClose id (Some 0)) w) as Hrun.
    finished_as Hrun (on_close_run id (Some 0) 3 _).
    simpl. split.
    + rewrite list_elem_of_In, filter_In. intros [_ Hneq].
      rewrite Z.eqb_refl in Hneq. discriminate.
    + exists f. auto.
Qed.

(** * The status of the agents *)

Lemma length_filter_Permutation {A : Type} (P : A -> bool) (l l' : list A) :
  l ≡ₚ l' -> length (List.filter P l) = length (List.filter P l').
Proof.
  induction 1 as [|x l l' _ IH|x y l|l1 l2 l3 _ IH1 _ IH2]; simpl.
  - reflexivity.
  - destruct (P x); simpl; lia.
  - destruct (P x), (P y); reflexivity.
  - lia.
Qed.

Lemma length_slice_to_50 {A : Type} (l : list A) :
  (length (slice_to 50 l) <= 50)%nat.
Proof. unfold slice_to. rewrite length_take. simpl. lia. Qed.

Lemma slice_to_all {A : Type} (limit : Z) (l : list A) :
  Z.of_nat (length l) <= limit -> slice_to limit l = l.
Proof.
  intros Hle. unfold slice_to.
  destruct (Z.ltb_spec limit 0); [lia|]. apply take_ge. lia.
Qed.

Lemma count_recent_files (P : ProcessedFile.t -> bool) this :
  (length (List.filter P (getProcessedFiles None this)) <= 50)%nat /\
  ((size (processedFiles this) <= 50)%nat ->
   length (List.filter P (getProcessedFiles None this)) =
   length (List.filter P (rows (processedFiles this)))).
Proof.
  unfold getProcessedFiles. simpl limit_or_50. split.
  - etransitivity; [apply length_filter_le | apply length_slice_to_50].
  - intros Hsize. rewrite slice_to_all.
    + apply length_filter_Permutation, sort_Permutation.
    + rewrite (Permutation_length (sort_Permutation _ _)), length_rows. lia.
Qed.

Lemma count_recent_actions (P : TriggeredAction.t -> bool) this :
  (length (List.filter P (getTriggeredActions None this)) <= 50)%nat /\
  ((size (triggeredActions this) <= 50)%nat ->
   length (List.filter P (getTriggeredActions None this)) =
   length (List.filter P (rows (triggeredActions this)))).
Proof.
  unfold getTriggeredActions. simpl limit_or_50. split.
  - etransitivity; [apply length_filter_le | apply length_slice_to_50].
  - intros Hsize. rewrite slice_to_all.
    + apply length_filter_Permutation, sort_Permutation.
    + rewrite (Permutation_length (sort_Permutation _ _)), length_rows. lia.
Qed.

Lemma getProcessedFiles_stored limit this f :
  f ∈ getProcessedFiles limit this ->
  exists id, processedFiles this !! id = Some f.
Proof.
  intros Hf.
  destruct (sort_slice_newest_first ProcessedFile.uploadedAt
              (limit_or_50 limit) (rows (processedFiles this)))
    as (rest & Hperm & _).
  apply elem_of_rows. rewrite <- Hperm. apply elem_of_app. left. exact Hf.
Qed.

(** X16. Five of the figures of [/api/agents/status] look at the 50 newest
    rows only: [validatedCount] and [parsedCount] are taken from
    [getProcessedFiles()], and [escalatedToday], [anomaliesCount] and
    [flaggedCount] from [getTriggeredActions()], both with the default
    limit, so none of them exceeds 50 on any store; each is the number of
    matching rows of the whole table as long as the table has at most 50
    rows. *)
Theorem agent_figures_capped_at_50 :
  forall toDateString now this,
    (validatedCount this <= 50 /\ parsedCount this <= 50 /\
     escalatedToday toDateString now this <= 50 /\
     anomaliesCount this <= 50 /\ flaggedCount this <= 50)%nat /\
    ((size (processedFiles this) <= 50)%nat ->
     validatedCount this =
       length (List.filter
                 (fun file =>
                    String.eqb (ProcessedFile.fileType file) "JSON"
                    && String.eqb (ProcessedFile.status file) "completed")
                 (rows (processedFiles this))) /\
     parsedCount this =
       length (List.filter
                 (fun file =>
                    String.eqb (ProcessedFile.fileType file) "PDF"
                    && String.eqb (ProcessedFile.status file) "completed")
                 (rows (processedFiles this)))) /\
    ((size (triggeredActions this) <= 50)%nat ->
     escalatedToday toDateString now this =
       length (List.filter
                 (fun action =>
                    String.eqb (TriggeredAction.actionType action) "escalate"
                    && String.eqb
                         (toDateString (TriggeredAction.timestamp action))
                         (toDateString now))
                 (rows (triggeredActions this))) /\
     anomaliesCount this =
       length (List.filter
                 (fun action =>
                    String.eqb (TriggeredAction.actionType action) "flag"
                    && String_includes "anomaly"
                         (TriggeredAction.description action))
                 (rows (triggeredActions this))) /\
     flaggedCount this =
       length (List.filter
                 (fun action =>
                    String.eqb (TriggeredAction.actionType action) "flag"
                    && String_includes "high"
                         (TriggeredAction.description action))
                 (rows (triggeredActions this)))).
Proof.
  intros toDateString now this.
  unfold validatedCount, parsedCount, escalatedToday, anomaliesCount,
    flaggedCount.
  split; [|split].
  - repeat split; first [apply count_recent_files | apply count_recent_actions].
  - intros Hsize. split; apply count_recent_files, Hsize.
  - intros Hsize. repeat split; apply count_recent_actions, Hsize.
Qed.

Lemma filter_all {A : Type} (P : A -> bool) (l : list A) :
  (forall x, x ∈ l -> P x = true) -> List.filter P l = l.
Proof.
  induction l as [|x l IH]; intros Hall; [reflexivity|]. simpl.
  rewrite (Hall x) by left. f_equal. apply IH. intros y Hy. apply Hall.
  by right.
Qed.

(** X17. The status page of the running server: in every state the server
    reaches through uploads and events of the child processes, the
    [Classifier Agent] has processed as many activities as
    there are files, the three format agents none, and the counts of
    validated and parsed files, of escalations, anomalies and flags are all
    0, at any time and in any time zone. *)
Theorem agents_status_of_the_routes :
  forall toDateString now w, reachable w ->
    processedCount "Classifier Agent" (storage w)
      = size (processedFiles (storage w)) /\
    (forall agentName, agentName <> "Classifier Agent" ->
       processedCount agentName (storage w) = 0%nat) /\
    validatedCount (storage w) = 0%nat /\
    parsedCount (storage w) = 0%nat /\
    escalatedToday toDateString now (storage w) = 0%nat /\
    anomaliesCount (storage w) = 0%nat /\
    flaggedCount (storage w) = 0%nat.
Proof.
  intros toDateString now w Hreach.
  pose proof (reachable_consistent w Hreach) as Hc.
  pose proof (reachable_plain w Hreach) as Hp.
  assert (Hnot_completed :
            forall P : ProcessedFile.t -> bool,
              List.filter
                (fun file =>
                   P file && String.eqb (ProcessedFile.status file) "completed")
                (getProcessedFiles None (storage w)) = []).
  { intros P. apply filter_none. intros f Hf.
    destruct (getProcessedFiles_stored None (storage w) f Hf) as [id Hid].
    destruct (files_lifecycle w Hc id f Hid)
      as [[_ ->]|[(_ & -> & _)|(_ & -> & _)]];
      rewrite andb_false_r; reflexivity. }
  assert (Hno_actions : getTriggeredActions None (storage w) = []).
  { unfold getTriggeredActions. rewrite (plain_actions w Hp), rows_empty.
    reflexivity. }
  unfold processedCount, getAgentActivitiesByAgent, validatedCount,
    parsedCount, escalatedToday, anomaliesCount, flaggedCount.
  rewrite !Hnot_completed, Hno_actions. simpl.
  split; [|split; [|repeat split]].
  - rewrite filter_all, length_rows; [apply (plain_sizes w Hp)|].
    intros a [id Ha]%elem_of_rows.
    apply String.eqb_eq, (activities_start w Hc id a Ha).
  - intros agentName Hne. rewrite filter_none; [reflexivity|].
    intros a [id Ha]%elem_of_rows. apply String.eqb_neq.
    destruct (activities_start w Hc id a Ha) as [-> _]. congruence.
Qed.

(** * The form of the client and the handler of the server *)

(** ** [split('.')] and its last piece *)

Lemma split_dot_without_dot s :
  has_char CHAR_DOT s = false -> split_dot s = [s].
Proof.
  induction s as [|x rest IH]; cbn [split_dot has_char]; [reflexivity|].
  intros Hno. apply orb_false_iff in Hno as [Hx Hrest].
  now rewrite Hx, (IH Hrest).
Qed.

Lemma split_dot_last_dot pre piece :
  has_char CHAR_DOT piece = false ->
  exists first others,
    split_dot (pre +:+ String CHAR_DOT piece) = first :: others ++ [piece].
Proof.
  intros Hno.
  induction pre as [|x pre (first & others & IH)].
  - exists "", [].
    change (split_dot ("" +:+ String CHAR_DOT piece))
      with ("" :: split_dot piece).
    now rewrite (split_dot_without_dot piece Hno).
  - change (String x pre +:+ String CHAR_DOT piece)
      with (String x (pre +:+ String CHAR_DOT piece)).
    cbn [split_dot]. rewrite IH. destruct (Ascii.eqb x CHAR_DOT).
    + now exists "", (first :: others).
    + now exists (String x first), others.
Qed.

Lemma last_split_dot pre piece :
  has_char CHAR_DOT piece = false ->
  last (split_dot (pre +:+ String CHAR_DOT piece)) = Some piece.
Proof.
  intros Hno. destruct (split_dot_last_dot pre piece Hno) as (first & others & ->).
  change (first :: others ++ [piece]) with ((first :: others) ++ [piece]).
  apply last_snoc.
Qed.

(** ** Lower case keeps the dots *)

Lemma lower_ascii_dot x :
  Ascii.eqb (lower_ascii x) CHAR_DOT = Ascii.eqb x CHAR_DOT.
Proof. destruct x as [[] [] [] [] [] [] [] []]; reflexivity. Qed.

Lemma has_dot_toLowerCase s :
  has_char CHAR_DOT (toLowerCase s) = has_char CHAR_DOT s.
Proof.
  induction s as [|x rest IH]; cbn [has_char toLowerCase]; [reflexivity|].
  now rewrite lower_ascii_dot, IH.
Qed.

Lemma toLowerCase_append pre rest :
  toLowerCase (pre +:+ rest) = toLowerCase pre +:+ toLowerCase rest.
Proof. induction pre as [|x pre IH]; simpl; [reflexivity|now rewrite IH]. Qed.

Lemma includes_In l s : includes l s = true <-> In s l.
Proof.
  unfold includes. rewrite existsb_exists. split.
  - intros (x & Hin & Heq). apply String.eqb_eq in Heq. now subst x.
  - intros Hin. exists s. split; [exact Hin|apply String.eqb_refl].
Qed.

(** ** The two checks of the extension *)

(** The handler's chain accepts what is in the client's list. *)
Lemma fileType_of_extension_Some e :
  includes [".pdf"; ".eml"; ".msg"; ".json"] e = true
  <-> exists fileType, fileType_of_extension e = Some fileType.
Proof.
  unfold fileType_of_extension, includes. simpl.
  destruct (String.eqb e ".pdf"), (String.eqb e ".eml"),
    (String.eqb e ".msg"), (String.eqb e ".json"); simpl;
    (split; [intros H|intros [fileType H]]); first [discriminate|eauto].
Qed.

Lemma includes_dotted e :
  includes [".pdf"; ".eml"; ".msg"; ".json"] (String CHAR_DOT e)
  = includes ["pdf"; "eml"; "msg"; "json"] e.
Proof. reflexivity. Qed.

Lemma bare_extensions_dotted e :
  includes bare_extensions (String CHAR_DOT e)
  = includes ["pdf"; "eml"; "msg"; "json"] e.
Proof. reflexivity. Qed.

Lemma bare_extensions_plain e :
  has_char CHAR_DOT e = false ->
  includes bare_extensions e = includes ["pdf"; "eml"; "msg"; "json"] e.
Proof.
  intros Hno.
  assert (Hne : forall d, has_char CHAR_DOT d = true -> String.eqb e d = false).
  { intros d Hd. apply String.eqb_neq. intros ->. congruence. }
  unfold bare_extensions, includes. cbn [existsb].
  rewrite (Hne ".pdf"), (Hne ".eml"), (Hne ".msg"), (Hne ".json");
    reflexivity.
Qed.

Lemma getFileTypeIcon_of_piece name piece fileType :
  last (split_dot name) = Some piece ->
  fileType_of_extension (String CHAR_DOT (toLowerCase piece)) = Some fileType ->
  getFileTypeIcon name = toLowerCase fileType.
Proof.
  intros Hlast. unfold getFileTypeIcon. rewrite Hlast.
  cbn [fmap option_fmap option_map].
  unfold fileType_of_extension.
  change (includes [".pdf"] (String CHAR_DOT ?e))
    with (String.eqb e "pdf" || false).
  change (includes [".eml"; ".msg"] (String CHAR_DOT ?e))
    with (String.eqb e "eml" || (String.eqb e "msg" || false)).
  change (includes [".json"] (String CHAR_DOT ?e))
    with (String.eqb e "json" || false).
  destruct (String.eqb (toLowerCase piece) "pdf"),
    (String.eqb (toLowerCase piece) "eml"),
    (String.eqb (toLowerCase piece) "msg"),
    (String.eqb (toLowerCase piece) "json");
    cbn [orb]; intros [= <-]; reflexivity.
Qed.

(** X18. On a file name without a slash, the upload form of the client and
    the upload handler of the server agree except on eight names: what
    the server accepts the form has let through, with the lower-cased
    format as its icon type; the form lets through a name that the server
    answers with 400 exactly when the name is, up to case, one of the
    four extensions alone, with or without its dot. *)
Theorem form_and_handler_extensions (name : string) :
  has_char CHAR_FORWARD_SLASH name = false ->
  (forall fileType,
     fileType_of_extension (toLowerCase (extname name)) = Some fileType ->
     client_accepts name = true
     /\ getFileTypeIcon name = toLowerCase fileType)
  /\ (client_accepts name = true
      /\ fileType_of_extension (toLowerCase (extname name)) = None
      <-> includes bare_extensions (toLowerCase name) = true).
Proof.
  intros Hslash. unfold client_accepts, client_extension.
  destruct (has_char CHAR_DOT name) eqn:Hdot.
  - destruct (last_dot name Hdot) as (pre & piece & -> & Hno).
    rewrite (last_split_dot pre piece Hno).
    rewrite (extname_last_dot pre piece Hslash Hno).
    change ("." +:+ toLowerCase piece)
      with (String CHAR_DOT (toLowerCase piece)).
    rewrite toLowerCase_append.
    change (toLowerCase (String CHAR_DOT piece))
      with (String CHAR_DOT (toLowerCase piece)).
    destruct pre as [|x pre].
    + cbn [String.eqb orb toLowerCase].
      change ("" +:+ ?s) with s. rewrite bare_extensions_dotted.
      rewrite includes_dotted.
      split; [discriminate|]. split; [tauto|]. intros H. now split.
    + destruct (String.eqb (String x pre) "." && String.eqb piece "") eqn:Hdots.
      * apply andb_true_iff in Hdots as [Hpre Hpiece].
        apply String.eqb_eq in Hpre, Hpiece. rewrite Hpre, Hpiece.
        split; [discriminate|]. split; [intros [[=] _]|intros [=]].
      * cbn [String.eqb orb].
        change (toLowerCase (String CHAR_DOT piece))
          with (String CHAR_DOT (toLowerCase piece)).
        split.
        -- intros fileType Hty. split.
           ++ apply fileType_of_extension_Some. eauto.
           ++ eapply getFileTypeIcon_of_piece; [|exact Hty].
              apply last_split_dot, Hno.
        -- split.
           ++ intros [Hin Hnone].
              apply fileType_of_extension_Some in Hin as [fileType Hty].
              congruence.
           ++ intros Hin. exfalso.
              change (toLowerCase (String x pre))
                with (String (lower_ascii x) (toLowerCase pre)) in Hin.
              change (String ?c ?s +:+ ?r) with (String c (s +:+ r)) in Hin.
              apply includes_In in Hin.
              assert (Hrest : has_char CHAR_DOT
                        (toLowerCase pre +:+ String CHAR_DOT (toLowerCase piece))
                      = true).
              { rewrite has_char_append. cbn [has_char].
                change (Ascii.eqb CHAR_DOT CHAR_DOT) with true.
                apply orb_true_r. }
              simpl in Hin.
              destruct Hin as [H|[H|[H|[H|[H|[H|[H|[H|[]]]]]]]]];
                injection H as _ H; rewrite <- H in Hrest; discriminate.
  - rewrite (split_dot_without_dot name Hdot).
    rewrite (extname_without_dot name Hdot Hslash).
    cbn [last toLowerCase].
    change ("." +:+ toLowerCase name) with (String CHAR_DOT (toLowerCase name)).
    rewrite includes_dotted, bare_extensions_plain
      by now rewrite has_dot_toLowerCase.
    split; [discriminate|]. split; [tauto|]. intros H. now split.
Qed.

Lemma form_and_handler_extensions_witness :
  client_accepts "Report.PDF" = true
  /\ getFileTypeIcon "Report.PDF" = "pdf".
Proof.
  apply (proj1 (form_and_handler_extensions "Report.PDF" eq_refl) "PDF").
  reflexivity.
Defined.

(** ** The further statements on the examples *)

(** The example run is a run of the server. *)
Ltac example_exited_is_reachable :=
  apply (reachable_step example_uploaded);
  [ apply (reachable_step boot); [apply reachable_boot|];
    apply (step_input boot example_env (PostUpload (Some example_file)) 4
                      example_uploaded); [exact I | vm_compute; reflexivity]
  | apply (step_input example_uploaded example_env (ChildClose 1 (Some 1)) 4
                      example_exited);
    [vm_compute; left | vm_compute; reflexivity] ].

Lemma recent_rows_newest_first_witness :
  0 <= limit_or_50 (Some 1) /\
  length (getProcessedFiles (Some 1) example_store) =
    Nat.min (Z.to_nat (limit_or_50 (Some 1)))
            (size (processedFiles example_store)).
Proof.
  assert (Hlimit : 0 <= limit_or_50 (Some 1)) by (vm_compute; discriminate).
  split; [exact Hlimit|].
  destruct (recent_rows_newest_first (Some 1) example_store)
    as (_ & _ & _ & _ & Hlength).
  apply (Hlength Hlimit).
Defined.

Lemma filtered_rows_newest_first_witness :
  1 <> 0 /\
  forall a, a ∈ getAgentActivities (Some 1) None example_store ->
            AgentActivity.fileId a = Some 1.
Proof.
  assert (Hid : 1 <> 0) by lia.
  split; [exact Hid|].
  destruct (filtered_rows_newest_first None example_store) as (Hfile & _).
  apply (Hfile 1 Hid).
Defined.

Lemma latest_metric_is_newest_witness :
  "cpu" <> "" /\
  exists latest,
    getLatestMetric "cpu" example_metrics = Some latest /\
    SystemMetric.metricValue latest = "47" /\
    forall id m, systemMetrics example_metrics !! id = Some m ->
                 SystemMetric.metricName m = "cpu" ->
                 SystemMetric.timestamp m <= SystemMetric.timestamp latest.
Proof.
  assert (Hname : "cpu" <> "") by discriminate.
  split; [exact Hname|].
  destruct (latest_metric_is_newest example_metrics) as (Hnamed & _).
  specialize (Hnamed "cpu" Hname).
  destruct (getLatestMetric "cpu" example_metrics) as [latest|] eqn:Hlatest;
    [|vm_compute in Hlatest; discriminate Hlatest].
  exists latest. split; [reflexivity|]. split; [|apply Hnamed].
  vm_compute in Hlatest. injection Hlatest as <-. reflexivity.
Defined.

Lemma first_user_of_a_name_witness :
  exists user,
    getUserByUsername "ann" example_users = Some user /\
    User.password user = "first" /\
    exists id,
      users example_users !! id = Some user /\
      forall id' user', users example_users !! id' = Some user' ->
                        User.username user' = "ann" -> id <= id'.
Proof.
  destruct (getUserByUsername "ann" example_users) as [user|] eqn:Huser;
    [|vm_compute in Huser; discriminate Huser].
  exists user. split; [reflexivity|]. split.
  - vm_compute in Huser. injection Huser as <-. reflexivity.
  - destruct (first_user_of_a_name "ann" example_users) as (_ & Hfirst & _).
    destruct (Hfirst user Huser) as (id & Hid & _ & Hleast).
    exists id. split; [exact Hid|exact Hleast].
Defined.

Lemma update_twice_is_update_once_witness :
  exists existing,
    processedFiles example_store !! 1 = Some existing /\
    updateProcessedFile 1 PartialProcessedFile.empty example_store
      = (Returned existing, example_store).
Proof.
  destruct (processedFiles example_store !! 1) as [existing|] eqn:Hrow;
    [|vm_compute in Hrow; discriminate Hrow].
  exists existing. split; [reflexivity|].
  destruct update_twice_is_update_once as (_ & _ & Hempty & _).
  apply (Hempty 1 existing example_store Hrow).
Defined.

Lemma id_column_is_key_witness :
  forallb (fun call => keeps_id (snd call))
          (example_calls ++ example_further_calls) = true /\
  ids_are_keys
    (snd (run_calls (example_calls ++ example_further_calls) MemStorage_new)).
Proof.
  assert (Hkeep : forallb (fun call => keeps_id (snd call))
                          (example_calls ++ example_further_calls) = true)
    by (vm_compute; reflexivity).
  split; [exact Hkeep|].
  apply (id_column_is_key (example_calls ++ example_further_calls) Hkeep).
Defined.

Lemma upload_answers_once_witness :
  fileType_of_extension
    (toLowerCase (extname (MulterFile.originalname example_text_file))) = None /\
  exists w',
    run_macrotask 4 (upload example_env (Some example_text_file)) boot
      = Some w' /\
    storage w' = storage boot.
Proof.
  assert (Hnone : fileType_of_extension
            (toLowerCase (extname (MulterFile.originalname example_text_file)))
          = None) by (vm_compute; reflexivity).
  split; [exact Hnone|].
  destruct (upload_answers_once example_env (Some example_text_file) boot)
    as (w' & new & Hrun & _ & _ & Hsame).
  exists w'. split; [exact Hrun|apply (Hsame Hnone)].
Defined.

Lemma routes_store_no_results_witness :
  reachable example_exited /\
  triggeredActions (storage example_exited) = ∅ /\
  exists f,
    processedFiles (storage example_exited) !! 1 = Some f /\
    ProcessedFile.status f = "failed" /\
    ProcessedFile.classificationResult f = JNull /\
    ProcessedFile.businessIntent f = None.
Proof.
  assert (Hreach : reachable example_exited) by example_exited_is_reachable.
  split; [exact Hreach|].
  destruct (routes_store_no_results example_exited Hreach)
    as (_ & Hactions & _ & Hfiles & _).
  split; [exact Hactions|].
  destruct (processedFiles (storage example_exited) !! 1) as [f|] eqn:Hf;
    [|vm_compute in Hf; discriminate Hf].
  exists f. split; [reflexivity|].
  destruct (Hfiles 1 f Hf) as (_ & _ & _ & Hresult & _ & Hintent & _).
  split; [|split; [exact Hresult|exact Hintent]].
  vm_compute in Hf. injection Hf as <-. reflexivity.
Defined.

Lemma no_unhandled_failure_witness :
  reachable example_exited /\
  forall ev, ev ∈ log example_exited ->
    match ev with
    | UnhandledRejection _ => False
    | Responded status _ => status = 200 \/ status = 400
    | _ => True
    end.
Proof.
  assert (Hreach : reachable example_exited) by example_exited_is_reachable.
  split; [exact Hreach|].
  apply (no_unhandled_failure example_exited Hreach).
Defined.

Lemma dashboard_of_the_routes_witness :
  reachable example_exited /\
  totalProcessed (getDashboardStats 1700000000000 (storage example_exited))
    = length (List.filter is_accepted (log example_exited)) /\
  number_is
    (successRate (getDashboardStats 1700000000000 (storage example_exited))) 0
    = true.
Proof.
  assert (Hreach : reachable example_exited) by example_exited_is_reachable.
  split; [exact Hreach|].
  destruct (dashboard_of_the_routes example_exited 1700000000000 Hreach)
    as (Hrate & _ & Htotal & _).
  split; [exact Htotal|exact Hrate].
Defined.

Lemma settled_row_never_changes_witness :
  reachable example_exited /\
  (1 ∉ children example_exited) /\
  exists f,
    processedFiles (storage example_exited) !! 1 = Some f /\
    ProcessedFile.status f = "failed" /\
    forall w', rtc step example_exited w' ->
               processedFiles (storage w') !! 1 = Some f.
Proof.
  assert (Hreach : reachable example_exited) by example_exited_is_reachable.
  assert (Hgone : 1 ∉ children example_exited).
  { replace (children example_exited) with (@nil Z) by (vm_compute; reflexivity).
    apply not_elem_of_nil. }
  split; [exact Hreach|]. split; [exact Hgone|].
  destruct (processedFiles (storage example_exited) !! 1) as [f|] eqn:Hf;
    [|vm_compute in Hf; discriminate Hf].
  exists f. split; [reflexivity|]. split.
  - vm_compute in Hf. injection Hf as <-. reflexivity.
  - destruct (settled_row_never_changes example_exited Hreach) as (Hsettled & _).
    apply (Hsettled 1 f Hf Hgone).
Defined.

Lemma agent_figures_capped_at_50_witness :
  (size (processedFiles example_store) <= 50)%nat /\
  validatedCount example_store =
    length (List.filter
              (fun file =>
                 String.eqb (ProcessedFile.fileType file) "JSON"
                 && String.eqb (ProcessedFile.status file) "completed")
              (rows (processedFiles example_store))).
Proof.
  assert (Hsize : (size (processedFiles example_store) <= 50)%nat)
    by (vm_compute; lia).
  split; [exact Hsize|].
  destruct (agent_figures_capped_at_50 (fun _ => "") 0 example_store)
    as (_ & Hfiles & _).
  apply (Hfiles Hsize).
Defined.

Lemma agents_status_of_the_routes_witness :
  reachable example_exited /\
  processedCount "Classifier Agent" (storage example_exited)
    = size (processedFiles (storage example_exited)) /\
  processedCount "PDF Agent" (storage example_exited) = 0%nat.
Proof.
  assert (Hreach : reachable example_exited) by example_exited_is_reachable.
  split; [exact Hreach|].
  destruct (agents_status_of_the_routes (fun _ => "") 0 example_exited Hreach)
    as (Hclassifier & Hothers & _).
  split; [exact Hclassifier|]. apply Hothers. discriminate.
Defined.

(** * What the tables of the dashboard show *)

Lemma elem_of_slice_to {A : Type} (end_index : Z) (l : list A) x :
  x ∈ slice_to end_index l -> x ∈ l.
Proof. unfold slice_to. apply subseteq_take. Qed.

Lemma getAgentActivities_stored limit this a :
  a ∈ getAgentActivities None limit this ->
  exists id, agentActivities this !! id = Some a.
Proof.
  unfold getAgentActivities. intros Ha. apply elem_of_slice_to in Ha.
  rewrite sort_Permutation in Ha. apply elem_of_rows, Ha.
Qed.

(** X19. What the two tables of the dashboard show for the rows the routes
    write: in every state the server reaches through uploads and events of
    the child processes, a file listed under Recent Classifications has
    status [processing] and the action badge Processed, or status [failed]
    and the badge Failed (never Escalated, Flagged or Pending), and every
    activity of the audit trail has the status badge Pending. *)
Theorem tables_of_the_dashboard :
  forall w, reachable w ->
    (forall f, f ∈ ProcessingResults.shown (storage w) ->
       let badge := ProcessingResults.getActionBadge
                      (ProcessedFile.priority f) (ProcessedFile.status f) in
       (ProcessedFile.status f = "processing" /\
        badge = Badge.mk None (Some "bg-carbon-green text-white") "Processed")
       \/ (ProcessedFile.status f = "failed" /\
           badge = Badge.mk (Some "destructive") None "Failed")) /\
    (forall a, a ∈ AuditTrail.shown (storage w) ->
       AuditTrail.getStatusBadge (AgentActivity.status a)
       = Badge.mk None (Some "bg-carbon-yellow text-white") "Pending").
Proof.
  intros w Hreach.
  pose proof (reachable_plain w Hreach) as Hplain.
  pose proof (reachable_consistent w Hreach) as Hcons.
  split.
  - intros f Hf badge. subst badge.
    apply elem_of_slice_to, getProcessedFiles_stored in Hf as [id Hid].
    destruct (plain_files w Hplain id f Hid)
      as (_ & _ & _ & _ & _ & _ & Hlow & _).
    unfold ProcessingResults.getActionBadge. rewrite Hlow.
    destruct (files_lifecycle w Hcons id f Hid)
      as [[_ ->]|[(_ & -> & _)|(_ & -> & _)]]; auto.
  - intros a Ha. apply getAgentActivities_stored in Ha as [id Hid].
    destruct (activities_start w Hcons id a Hid) as (_ & _ & -> & _).
    reflexivity.
Qed.

Lemma tables_of_the_dashboard_witness :
  reachable example_exited /\
  exists f,
    ProcessingResults.shown (storage example_exited) = [f] /\
    ProcessingResults.getActionBadge
      (ProcessedFile.priority f) (ProcessedFile.status f)
    = Badge.mk (Some "destructive") None "Failed".
Proof.
  assert (Hreach : reachable example_exited) by example_exited_is_reachable.
  split; [exact Hreach|].
  destruct (ProcessingResults.shown (storage example_exited))
    as [|f [|g rest]] eqn:Hshown;
    [vm_compute in Hshown; discriminate Hshown| |
     vm_compute in Hshown; discriminate Hshown].
  exists f. split; [reflexivity|].
  destruct (tables_of_the_dashboard example_exited Hreach) as (Hfiles & _).
  assert (Hf : f ∈ ProcessingResults.shown (storage example_exited))
    by (rewrite Hshown; apply list_elem_of_here).
  destruct (Hfiles f Hf) as [[Hstatus _]|[_ Hbadge]]; [|exact Hbadge].
  vm_compute in Hshown. injection Hshown as <-. discriminate Hstatus.
Defined.
